(** * LiteX BIOS SD-card loader ([libbase/spi.c]): shallow embedding

    The C functions of [spi.c] are embedded as Rocq functions over an
    explicit machine state: the SPI core's registers with the card behind
    them, the byte-addressed RAM, and the file's global variables.

    Conventions.
    - Integers are [Z]; the wrap-around of [unsigned char], [unsigned short]
      and of the 32-bit [unsigned int]/[unsigned long]/pointers of the
      RISC-V target is written out with [wrap8], [wrap16], [wrap32].
    - The packed structures are little endian, as on the target.
    - [printf] output is not part of the state.
    - Loop counters of type [int] are not wrapped: none of the loops
      reaches [INT_MAX] for a sector size above 2.
    - The card is an arbitrary machine behind the SPI core (class
      [SpiCard]); the state keeps two records that no function reads, the
      bytes sent on MOSI and the calls of [readSector], so that statements
      can speak of what was sent and asked for.
    - The file's global variables are fields of the state, beside the
      RAM: a store through [storage] or [address] is taken not to reach
      them, which in the code is the caller's duty.
    - A division by zero is reported as the outcome [Undefined]; the only
      loop of the file without a bound of its own (the directory scan of
      [spi_sdcard_readFile]) takes fuel and reports [OutOfFuel]. *)

From Stdlib Require Import ZArith List Bool Lia String Ascii.
Import ListNotations.
Local Open Scope Z_scope.

(** ** Machine integers *)

Definition wrap8 (z : Z) : Z := z mod 2 ^ 8.
Definition wrap16 (z : Z) : Z := z mod 2 ^ 16.
Definition wrap32 (z : Z) : Z := z mod 2 ^ 32.

(** ** Constants of [spi.c] *)

Definition CS_HIGH : Z := 0x00.
Definition CS_LOW : Z := 0x01.
Definition ONEBYTE : Z := 0x0800.
Definition SPI_START : Z := 0x01.
Definition SPI_DONE : Z := 0x01.
Definition SUCCESS : Z := 0x01.
Definition FAILURE : Z := 0x00.

(** ** The card behind the SPI core

    The card is any machine that answers one byte for each byte clocked
    out to it.  [shift] takes the byte driven on MOSI and gives the byte
    sampled on MISO, the number of status polls the transfer stays busy
    for, and the card's next state; [select] is the chip-select line. *)

Class SpiCard (C : Type) : Type := {
  shift : Z -> C -> Z * nat * C;
  select : Z -> C -> C
}.

(** A card that plays back a fixed list of bytes, whatever is sent to it;
    once the list is used up the line idles high. *)
#[export] Instance script_card : SpiCard (list Z) := {
  shift := fun _ l => (hd 0xff l, 0%nat, tl l);
  select := fun _ l => l
}.

(** ** Memory *)

Definition memory : Type := Z -> Z.

Definition load8 (m : memory) (a : Z) : Z := wrap8 (m (wrap32 a)).

Definition store8 (m : memory) (a v : Z) : memory :=
  fun x => if x =? wrap32 a then wrap8 v else m x.

Definition load16 (m : memory) (a : Z) : Z :=
  load8 m a + 2 ^ 8 * load8 m (a + 1).

Definition load32 (m : memory) (a : Z) : Z :=
  load8 m a + 2 ^ 8 * load8 m (a + 1)
  + 2 ^ 16 * load8 m (a + 2) + 2 ^ 24 * load8 m (a + 3).

Fixpoint load_bytes (m : memory) (a : Z) (n : nat) : list Z :=
  match n with
  | O => []
  | S k => load8 m a :: load_bytes m (a + 1) k
  end.

Fixpoint store_bytes (m : memory) (a : Z) (l : list Z) : memory :=
  match l with
  | [] => m
  | b :: l' => store_bytes (store8 m a b) (a + 1) l'
  end.

(** [memcpy(dst, src, n)] for regions that do not overlap. *)
Definition memcpy (m : memory) (dst src : Z) (n : Z) : memory :=
  store_bytes m dst (load_bytes m src (Z.to_nat n)).

(** ** Structures of [spi.c] *)

Record PartitionTable : Type := {
  first_byte : Z;
  start_chs : list Z;
  partition_type : Z;
  end_chs : list Z;
  start_sector : Z;
  length_sectors : Z
}.

Record Fat16BootSector : Type := {
  jmp : list Z;
  oem : list Z;
  sector_size : Z;
  sectors_per_cluster : Z;
  reserved_sectors : Z;
  number_of_fats : Z;
  root_dir_entries : Z;
  total_sectors_short : Z;
  media_descriptor : Z;
  fat_size_sectors : Z;
  sectors_per_track : Z;
  number_of_heads : Z;
  hidden_sectors : Z;
  total_sectors_long : Z;
  drive_number : Z;
  current_head : Z;
  boot_signature : Z;
  volume_id : Z;
  volume_label : list Z;
  fs_type : list Z;
  boot_code : list Z;
  boot_sector_signature : Z
}.

(** [memcpy] of 16 bytes into a [PartitionTable]. *)
Definition read_PartitionTable (m : memory) (a : Z) : PartitionTable := {|
  first_byte := load8 m a;
  start_chs := load_bytes m (a + 1) 3;
  partition_type := load8 m (a + 4);
  end_chs := load_bytes m (a + 5) 3;
  start_sector := load32 m (a + 8);
  length_sectors := load32 m (a + 12)
|}.

(** [memcpy] of 512 bytes into a [Fat16BootSector]. *)
Definition read_Fat16BootSector (m : memory) (a : Z) : Fat16BootSector := {|
  jmp := load_bytes m a 3;
  oem := load_bytes m (a + 3) 8;
  sector_size := load16 m (a + 11);
  sectors_per_cluster := load8 m (a + 13);
  reserved_sectors := load16 m (a + 14);
  number_of_fats := load8 m (a + 16);
  root_dir_entries := load16 m (a + 17);
  total_sectors_short := load16 m (a + 19);
  media_descriptor := load8 m (a + 21);
  fat_size_sectors := load16 m (a + 22);
  sectors_per_track := load16 m (a + 24);
  number_of_heads := load16 m (a + 26);
  hidden_sectors := load32 m (a + 28);
  total_sectors_long := load32 m (a + 32);
  drive_number := load8 m (a + 36);
  current_head := load8 m (a + 37);
  boot_signature := load8 m (a + 38);
  volume_id := load32 m (a + 39);
  volume_label := load_bytes m (a + 43) 11;
  fs_type := load_bytes m (a + 54) 8;
  boot_code := load_bytes m (a + 62) 448;
  boot_sector_signature := load16 m (a + 510)
|}.

(** [sizeof(Fat16Entry)] and the offsets of its fields. *)
Definition sizeof_Fat16Entry : Z := 32.
Definition off_filename : Z := 0.
Definition off_ext : Z := 8.
Definition off_starting_cluster : Z := 26.
Definition off_file_size : Z := 28.

(** One completed call of [readSector]: the sector asked for, the buffer
    it was read into, and the 512 bytes that arrived ([None] when the call
    failed).  The history is a record of what happened; no function reads
    it. *)
Record sector_read : Type := {
  rd_sector : Z;
  rd_storage : Z;
  rd_data : option (list Z)
}.

(** ** State monad for the transport functions *)

Definition M (St A : Type) : Type := St -> A * St.

Definition ret {St A : Type} (a : A) : M St A := fun st => (a, st).

Definition bind {St A B : Type} (m : M St A) (k : A -> M St B) : M St B :=
  fun st => let (a, st') := m st in k a st'.

Notation "x <- m ;; k" := (bind m (fun x => k))
  (at level 61, m at next level, right associativity).
Notation "m ;; k" := (bind m (fun _ => k))
  (at level 61, right associativity).

(** [for (i = 0; i < n; i++) body]. *)
Fixpoint times {St A : Type} (n : nat) (body : M St A) : M St unit :=
  match n with
  | O => ret tt
  | S k => body ;; times k body
  end.

(** Outcome of the file-system functions. *)
Inductive outcome (St A : Type) : Type :=
| Done (a : A) (st : St)
| Undefined
| OutOfFuel.

Arguments Done {St A} a st.
Arguments Undefined {St A}.
Arguments OutOfFuel {St A}.

(** Modelled from the spec: [generated/mem.h] ([MAIN_RAM_BASE],
    [MAIN_RAM_SIZE]) is generated with the SoC and is not among the
    sources; [sdCardSector] is the address the linker gives the static
    512-byte sector buffer. *)
Class Board : Type := {
  MAIN_RAM_BASE : Z;
  MAIN_RAM_SIZE : Z;
  sdCardSector : Z
}.

Section Machine.

Context {C : Type} {Card : SpiCard C} {board : Board}.

(** Modelled from the spec: the register accessors of [generated/csr.h]
    ([spi_mosi_write], [spi_control_write], [spi_status_read],
    [spi_miso_read], [spi_cs_write]) are generated with the SoC and are not
    among the sources.  Writing the control register with the start bit set
    clocks the MOSI byte out to the card and latches the byte sampled on
    MISO; the status register reads done once the transfer has finished. *)
Record spi_dev : Type := {
  card : C;
  mosi : Z;
  miso : Z;
  control : Z;
  cs : Z;
  busy : nat;
  sent : list Z
}.

Definition csr_mosi_write (v : Z) (d : spi_dev) : spi_dev :=
  {| card := card d; mosi := wrap8 v; miso := miso d; control := control d;
     cs := cs d; busy := busy d; sent := sent d |}.

Definition csr_control_write (v : Z) (d : spi_dev) : spi_dev :=
  if Z.testbit v 0 then
    let '(b, n, c) := shift (mosi d) (card d) in
    {| card := c; mosi := mosi d; miso := wrap8 b; control := v;
       cs := cs d; busy := n; sent := sent d ++ [mosi d] |}
  else
    {| card := card d; mosi := mosi d; miso := miso d; control := v;
       cs := cs d; busy := busy d; sent := sent d |}.

Definition csr_status_read (d : spi_dev) : Z * spi_dev :=
  match busy d with
  | O => (SPI_DONE, d)
  | S k => (0, {| card := card d; mosi := mosi d; miso := miso d;
                  control := control d; cs := cs d; busy := k;
                  sent := sent d |})
  end.

Definition csr_miso_read (d : spi_dev) : Z := miso d.

Definition csr_cs_write (v : Z) (d : spi_dev) : spi_dev :=
  {| card := select v (card d); mosi := mosi d; miso := miso d;
     control := control d; cs := v; busy := busy d; sent := sent d |}.

(** ** Register accessors as actions on the SPI core *)

Definition spi_mosi_write (v : Z) : M spi_dev unit :=
  fun d => (tt, csr_mosi_write v d).

Definition spi_control_write (v : Z) : M spi_dev unit :=
  fun d => (tt, csr_control_write v d).

Definition spi_status_read : M spi_dev Z := csr_status_read.

Definition spi_miso_read : M spi_dev Z :=
  fun d => (csr_miso_read d, d).

Definition spi_cs_write (v : Z) : M spi_dev unit :=
  fun d => (tt, csr_cs_write v d).

(** [while (spi_status_read() != SPI_DONE) {}]: the transfer is over after
    [busy] more polls, which bounds the iterations. *)
Fixpoint spi_wait_done_loop (polls : nat) : M spi_dev unit :=
  match polls with
  | O => spi_status_read ;; ret tt
  | S k => s <- spi_status_read ;;
           if s =? SPI_DONE then ret tt else spi_wait_done_loop k
  end.

Definition spi_wait_done : M spi_dev unit :=
  fun d => spi_wait_done_loop (busy d) d.

(** ** Transport functions *)

Definition spi_write_byte (char_to_send : Z) : M spi_dev unit :=
  spi_mosi_write char_to_send ;;
  spi_control_write (Z.lor ONEBYTE SPI_START) ;;
  spi_wait_done ;;
  spi_control_write 0x00.

Fixpoint spi_read_rbyte_loop (timeout : nat) (r : Z) : M spi_dev Z :=
  match timeout with
  | O => ret r
  | S t =>
      if negb (Z.land r 0x80 =? 0) then
        spi_mosi_write 0xff ;;
        spi_control_write (Z.lor ONEBYTE SPI_START) ;;
        spi_wait_done ;;
        r' <- spi_miso_read ;;
        spi_control_write 0x00 ;;
        spi_read_rbyte_loop t r'
      else ret r
  end.

Definition spi_read_rbyte : M spi_dev Z :=
  r <- spi_miso_read ;;
  spi_read_rbyte_loop 32 r.

Definition spi_read_byte : M spi_dev Z :=
  spi_write_byte 0xff ;;
  r <- spi_miso_read ;;
  ret r.

(** The [do ... while] of [spi_setspimode]; [timeout] is the counter on
    entry to the body, and the pair returned is the counter and the
    response on leaving the loop. *)
Fixpoint spi_setspimode_loop (timeout : nat) : M spi_dev (Z * Z) :=
  match timeout with
  | O => ret (0, 0)
  | S t =>
      spi_cs_write CS_HIGH ;;
      times 10 (spi_write_byte 0xff) ;;
      spi_cs_write CS_LOW ;;
      r <- spi_read_rbyte ;;
      if (0 <? Z.of_nat t) && (r =? 0) then spi_setspimode_loop t
      else ret (Z.of_nat t, r)
  end.

Definition spi_setspimode : M spi_dev Z :=
  tr <- spi_setspimode_loop 32 ;;
  if fst tr =? 0 then ret FAILURE else ret SUCCESS.

(** The seven bytes of a command frame, written one after the other. *)
Fixpoint spi_write_bytes (l : list Z) : M spi_dev unit :=
  match l with
  | [] => ret tt
  | b :: l' => spi_write_byte b ;; spi_write_bytes l'
  end.

(** The [do ... while] of the CMD55+ACMD41 poll of [spi_sdcard_goidle]. *)
Fixpoint spi_sdcard_goidle_loop (timeout : nat) : M spi_dev Z :=
  match timeout with
  | O => ret 0xff
  | S t =>
      spi_write_bytes [0xff; 0x77; 0x00; 0x00; 0x00; 0x00; 0x00] ;;
      spi_read_rbyte ;;
      spi_write_bytes [0xff; 0x69; 0x40; 0x00; 0x00; 0x00; 0x00] ;;
      r <- spi_read_rbyte ;;
      if negb (r =? 0x00) && (0 <? Z.of_nat t) then spi_sdcard_goidle_loop t
      else ret r
  end.

Definition spi_sdcard_goidle : M spi_dev Z :=
  r <- spi_setspimode ;;
  if negb (r =? 0x01) then ret FAILURE else
  spi_write_bytes [0xff; 0x40; 0x00; 0x00; 0x00; 0x00; 0x95] ;;
  r <- spi_read_rbyte ;;
  if negb (r =? 0x01) then ret FAILURE else
  spi_write_bytes [0xff; 0x48; 0x00; 0x00; 0x01; 0xaa; 0x87] ;;
  r <- spi_read_rbyte ;;
  if negb (r =? 0x01) then ret FAILURE else
  times 4 spi_read_byte ;;
  r <- spi_sdcard_goidle_loop 32 ;;
  if negb (r =? 0x00) then ret FAILURE else
  spi_write_bytes [0xff; 0x7a; 0x00; 0x00; 0x00; 0x00; 0xff] ;;
  r <- spi_read_rbyte ;;
  if r >? 0x01 then ret FAILURE else
  times 4 spi_read_byte ;;
  spi_write_bytes [0xff; 0x50; 0x00; 0x00; 0x02; 0x00; 0xff] ;;
  r <- spi_read_rbyte ;;
  if negb (r =? 0x00) then ret FAILURE else
  ret SUCCESS.

(** ** Machine state *)

Record state : Type := {
  dev : spi_dev;
  ram : memory;
  sdCardPartition : PartitionTable;
  sdCardFatBootSector : Fat16BootSector;
  sdCardFat16RootDir : Z;
  sdCardFatTable : Z;
  fatSectorStart : Z;
  rootDirSectorStart : Z;
  history : list sector_read
}.

Definition set_dev (d : spi_dev) (st : state) : state :=
  {| dev := d; ram := ram st; sdCardPartition := sdCardPartition st;
     sdCardFatBootSector := sdCardFatBootSector st;
     sdCardFat16RootDir := sdCardFat16RootDir st;
     sdCardFatTable := sdCardFatTable st;
     fatSectorStart := fatSectorStart st;
     rootDirSectorStart := rootDirSectorStart st;
     history := history st |}.

Definition set_ram (m : memory) (st : state) : state :=
  {| dev := dev st; ram := m; sdCardPartition := sdCardPartition st;
     sdCardFatBootSector := sdCardFatBootSector st;
     sdCardFat16RootDir := sdCardFat16RootDir st;
     sdCardFatTable := sdCardFatTable st;
     fatSectorStart := fatSectorStart st;
     rootDirSectorStart := rootDirSectorStart st;
     history := history st |}.

Definition set_history (h : list sector_read) (st : state) : state :=
  {| dev := dev st; ram := ram st; sdCardPartition := sdCardPartition st;
     sdCardFatBootSector := sdCardFatBootSector st;
     sdCardFat16RootDir := sdCardFat16RootDir st;
     sdCardFatTable := sdCardFatTable st;
     fatSectorStart := fatSectorStart st;
     rootDirSectorStart := rootDirSectorStart st;
     history := h |}.

Definition set_sdCardPartition (v : PartitionTable) (st : state) : state :=
  {| dev := dev st;
     ram := ram st;
     sdCardPartition := v;
     sdCardFatBootSector := sdCardFatBootSector st;
     sdCardFat16RootDir := sdCardFat16RootDir st;
     sdCardFatTable := sdCardFatTable st;
     fatSectorStart := fatSectorStart st;
     rootDirSectorStart := rootDirSectorStart st;
     history := history st |}.

Definition set_sdCardFatBootSector (v : Fat16BootSector) (st : state) : state :=
  {| dev := dev st;
     ram := ram st;
     sdCardPartition := sdCardPartition st;
     sdCardFatBootSector := v;
     sdCardFat16RootDir := sdCardFat16RootDir st;
     sdCardFatTable := sdCardFatTable st;
     fatSectorStart := fatSectorStart st;
     rootDirSectorStart := rootDirSectorStart st;
     history := history st |}.

Definition set_sdCardFat16RootDir (v : Z) (st : state) : state :=
  {| dev := dev st;
     ram := ram st;
     sdCardPartition := sdCardPartition st;
     sdCardFatBootSector := sdCardFatBootSector st;
     sdCardFat16RootDir := v;
     sdCardFatTable := sdCardFatTable st;
     fatSectorStart := fatSectorStart st;
     rootDirSectorStart := rootDirSectorStart st;
     history := history st |}.

Definition set_sdCardFatTable (v : Z) (st : state) : state :=
  {| dev := dev st;
     ram := ram st;
     sdCardPartition := sdCardPartition st;
     sdCardFatBootSector := sdCardFatBootSector st;
     sdCardFat16RootDir := sdCardFat16RootDir st;
     sdCardFatTable := v;
     fatSectorStart := fatSectorStart st;
     rootDirSectorStart := rootDirSectorStart st;
     history := history st |}.

Definition set_fatSectorStart (v : Z) (st : state) : state :=
  {| dev := dev st;
     ram := ram st;
     sdCardPartition := sdCardPartition st;
     sdCardFatBootSector := sdCardFatBootSector st;
     sdCardFat16RootDir := sdCardFat16RootDir st;
     sdCardFatTable := sdCardFatTable st;
     fatSectorStart := v;
     rootDirSectorStart := rootDirSectorStart st;
     history := history st |}.

Definition set_rootDirSectorStart (v : Z) (st : state) : state :=
  {| dev := dev st;
     ram := ram st;
     sdCardPartition := sdCardPartition st;
     sdCardFatBootSector := sdCardFatBootSector st;
     sdCardFat16RootDir := sdCardFat16RootDir st;
     sdCardFatTable := sdCardFatTable st;
     fatSectorStart := fatSectorStart st;
     rootDirSectorStart := v;
     history := history st |}.

(** A transport action run on the SPI core of the machine. *)
Definition on_dev {A : Type} (m : M spi_dev A) : M state A :=
  fun st => let (a, d) := m (dev st) in (a, set_dev d st).

(** ** [readSector] *)

Definition poke (a v : Z) : M state unit :=
  fun st => (tt, set_ram (store8 (ram st) a v) st).

Definition record_read (sectorNumber storage : Z) (data : option (list Z))
  : M state unit :=
  fun st =>
    (tt, set_history
           (history st ++ [{| rd_sector := sectorNumber;
                              rd_storage := storage;
                              rd_data := data |}]) st).

(** The frame of CMD17 for a sector number. *)
Definition cmd17 (sectorNumber : Z) : list Z :=
  [0xff; 0x51;
   Z.land (Z.shiftr sectorNumber 24) 0xff;
   Z.land (Z.shiftr sectorNumber 16) 0xff;
   Z.land (Z.shiftr sectorNumber 8) 0xff;
   Z.land sectorNumber 0xff;
   0xff].

(** [while ((r != 0xfe) && (timeout > 0)) { r = spi_read_byte(); timeout--; }] *)
Fixpoint readSector_await (timeout : nat) (r : Z) : M state Z :=
  match timeout with
  | O => ret r
  | S t =>
      if negb (r =? 0xfe) then
        r' <- on_dev spi_read_byte ;; readSector_await t r'
      else ret r
  end.

(** [for (n = 0; n < 512; n++) storage[n] = spi_read_byte();] with [todo]
    iterations left; the bytes are also returned for the history. *)
Fixpoint readSector_block (todo : nat) (n : Z) (storage : Z)
  : M state (list Z) :=
  match todo with
  | O => ret []
  | S k =>
      b <- on_dev spi_read_byte ;;
      poke (storage + n) b ;;
      bs <- readSector_block k (n + 1) storage ;;
      ret (b :: bs)
  end.

Definition readSector_timeout : nat := Z.to_nat 16384.

Definition readSector (sectorNumber storage : Z) : M state Z :=
  on_dev (spi_write_bytes (cmd17 sectorNumber)) ;;
  r <- on_dev spi_read_rbyte ;;
  if negb (r =? 0x00) then
    record_read sectorNumber storage None ;; ret FAILURE
  else
    r <- on_dev spi_read_byte ;;
    r <- readSector_await readSector_timeout r ;;
    if negb (r =? 0xfe) then
      record_read sectorNumber storage None ;; ret FAILURE
    else
      data <- readSector_block 512 0 storage ;;
      times 8 (on_dev spi_read_byte) ;;
      record_read sectorNumber storage (Some data) ;;
      ret SUCCESS.

(** ** [spi_sdcard_readMBR]

    The function is cut where the source has its blank lines: the MBR and
    its partition entry, the boot sector, the allocation table, the root
    directory.  Each part ends the call with [FAILURE] or goes on to the
    next. *)

(** [for (n = 0; n < count; n++) if (readSector(first + n, buffer +
    sector_size * n) == FAILURE) return FAILURE;] with [todo] iterations
    left. *)
Fixpoint readMBR_sectors (todo : nat) (n : Z) (first buffer : Z)
  : M state Z :=
  match todo with
  | O => ret SUCCESS
  | S k =>
      fun st =>
        let ss := sector_size (sdCardFatBootSector st) in
        let (r, st1) :=
          readSector (wrap32 (first + n)) (wrap32 (buffer + ss * n)) st in
        if r =? FAILURE then (FAILURE, st1)
        else readMBR_sectors k (n + 1) first buffer st1
  end.

(** Number of sectors the root directory loop reads. *)
Definition rootDirSectors (b : Fat16BootSector) : Z :=
  root_dir_entries b * sizeof_Fat16Entry / sector_size b.

(** Lines 459-498: the root directory. *)
Definition readMBR_rootDir (st : state) : outcome state Z :=
  let b := sdCardFatBootSector st in
  let st1 :=
    set_sdCardFat16RootDir
      (wrap32 (MAIN_RAM_BASE + MAIN_RAM_SIZE
               - sector_size b * fat_size_sectors b
               - root_dir_entries b * sizeof_Fat16Entry)) st in
  if sector_size b =? 0 then Undefined else
  let st2 :=
    set_rootDirSectorStart
      (wrap32 (start_sector (sdCardPartition st1) + reserved_sectors b
               + number_of_fats b * fat_size_sectors b)) st1 in
  let (r, st3) :=
    readMBR_sectors (Z.to_nat (rootDirSectors b)) 0
      (rootDirSectorStart st2) (sdCardFat16RootDir st2) st2 in
  if r =? FAILURE then Done FAILURE st3 else Done SUCCESS st3.

(** Lines 445-457: the allocation table. *)
Definition readMBR_fatTable (st : state) : outcome state Z :=
  let b := sdCardFatBootSector st in
  let st1 :=
    set_sdCardFatTable
      (wrap32 (MAIN_RAM_BASE + MAIN_RAM_SIZE
               - sector_size b * fat_size_sectors b)) st in
  let st2 :=
    set_fatSectorStart
      (wrap32 (start_sector (sdCardPartition st1) + reserved_sectors b))
      st1 in
  let (r, st3) :=
    readMBR_sectors (Z.to_nat (fat_size_sectors b)) 0
      (fatSectorStart st2) (sdCardFatTable st2) st2 in
  if r =? FAILURE then Done FAILURE st3 else readMBR_rootDir st3.

(** Lines 397-443: the boot sector of partition 1. *)
Definition readMBR_bootSector (st : state) : outcome state Z :=
  let (r, st1) :=
    readSector (start_sector (sdCardPartition st)) sdCardSector st in
  if r =? SUCCESS then
    let st2 :=
      set_sdCardFatBootSector
        (read_Fat16BootSector (ram st1) sdCardSector) st1 in
    if total_sectors_long (sdCardFatBootSector st2) =? 0
    then Done FAILURE st2
    else readMBR_fatTable st2
  else Done FAILURE st1.

(** Lines 370-395: sector 0 and the entry of partition 1.  [inl] is the
    value the call returns at once, [inr] means the call goes on. *)
Definition readMBR_partition (st : state) : (Z + unit) * state :=
  let (r, st1) := readSector 0x00000000 sdCardSector st in
  if r =? SUCCESS then
    let st2 :=
      set_sdCardPartition
        (read_PartitionTable (ram st1) (sdCardSector + 0x1be)) st1 in
    let p := sdCardPartition st2 in
    if negb (first_byte p =? 0x80) && negb (first_byte p =? 0x00)
    then (inl FAILURE, st2)
    else if (partition_type p =? 4) || (partition_type p =? 6)
            || (partition_type p =? 14)
    then (inr tt, st2)
    else (inl FAILURE, st2)
  else (inl FAILURE, st1).

Definition spi_sdcard_readMBR (st : state) : outcome state Z :=
  match readMBR_partition st with
  | (inl r, st1) => Done r st1
  | (inr _, st1) => readMBR_bootSector st1
  end.

(** ** [spi_sdcard_readFile] *)

(** [strlen] of the C string held in a Rocq string: the characters before
    the first NUL. *)
Fixpoint strlen (s : string) : nat :=
  match s with
  | EmptyString => O
  | String c s' => if (nat_of_ascii c =? 0)%nat then O else S (strlen s')
  end.

(** [s[i]] for [i <= strlen s]. *)
Definition char_at (s : string) (i : Z) : Z :=
  match String.get (Z.to_nat i) s with
  | Some c => Z.of_nat (nat_of_ascii c)
  | None => 0
  end.

(** Address of [sdCardFat16RootDir[n]]. *)
Definition entry_addr (st : state) (n : Z) : Z :=
  sdCardFat16RootDir st + sizeof_Fat16Entry * n.

Definition entry_filename (st : state) (n i : Z) : Z :=
  load8 (ram st) (entry_addr st n + off_filename + i).

Definition entry_ext (st : state) (n i : Z) : Z :=
  load8 (ram st) (entry_addr st n + off_ext + i).

Definition entry_starting_cluster (st : state) (n : Z) : Z :=
  load16 (ram st) (entry_addr st n + off_starting_cluster).

Definition entry_file_size (st : state) (n : Z) : Z :=
  load32 (ram st) (entry_addr st n + off_file_size).

(** [for (i = 0; i < strlen(s); i++) if (field[i] != s[i]) nameMatch = 0;]
    with [todo] iterations left; [field] reads a byte of the entry. *)
Fixpoint readFile_compare (field : Z -> Z) (s : string) (todo : nat)
  (i : Z) (nameMatch : Z) : Z :=
  match todo with
  | O => nameMatch
  | S k =>
      readFile_compare field s k (i + 1)
        (if negb (field i =? char_at s i) then 0 else nameMatch)
  end.

(** The value of [nameMatch] after the body of the scan for entry [n]. *)
Definition readFile_nameMatch (st : state) (filename ext : string) (n : Z)
  : Z :=
  if negb (entry_filename st n 0 =? 0) then
    let nameMatch :=
      readFile_compare (entry_filename st n) filename (strlen filename) 0 1 in
    readFile_compare (entry_ext st n) ext (strlen ext) 0 nameMatch
  else 0.

(** The local variables of the directory scan. *)
Record scan : Type := {
  fileClusterStart : Z;
  fileLength : Z;
  scan_n : Z
}.

Definition readFile_scan_cond (st : state) (s : scan) : bool :=
  (fileClusterStart s =? 0)
  && (scan_n s <? root_dir_entries (sdCardFatBootSector st)).

Definition readFile_scan_body (st : state) (filename ext : string)
  (s : scan) : scan :=
  if readFile_nameMatch st filename ext (scan_n s) =? 1 then
    {| fileClusterStart := entry_starting_cluster st (scan_n s);
       fileLength := entry_file_size st (scan_n s);
       scan_n := scan_n s |}
  else
    {| fileClusterStart := fileClusterStart s;
       fileLength := fileLength s;
       scan_n := scan_n s + 1 |}.

(** [while ((fileClusterStart == 0) && (n < root_dir_entries)) ...] *)
Fixpoint readFile_scan (fuel : nat) (st : state) (filename ext : string)
  (s : scan) : option scan :=
  match fuel with
  | O => None
  | S f =>
      if readFile_scan_cond st s
      then readFile_scan f st filename ext
             (readFile_scan_body st filename ext s)
      else Some s
  end.

(** The inner [for (sector = 0; sector < sectors_per_cluster; sector++)]
    with [todo] iterations left.  [None] is the [return FAILURE] of a read
    error; otherwise the loop gives back [bytesRemaining] and [address]. *)
Fixpoint readFile_sectors (todo : nat) (sector : Z)
  (clusterSectorStart bytesRemaining address : Z) (st : state)
  : option (Z * Z) * state :=
  match todo with
  | O => (Some (bytesRemaining, address), st)
  | S k =>
      let ss := sector_size (sdCardFatBootSector st) in
      if bytesRemaining >? ss then
        let (r, st1) :=
          readSector (wrap32 (clusterSectorStart + sector)) address st in
        if r =? FAILURE then (None, st1)
        else readFile_sectors k (sector + 1) clusterSectorStart
               (bytesRemaining - ss) (wrap32 (address + ss)) st1
      else
        let (r, st1) :=
          readSector (wrap32 (clusterSectorStart + sector)) sdCardSector st
        in
        if r =? FAILURE then (None, st1)
        else
          let st2 :=
            set_ram (memcpy (ram st1) address sdCardSector bytesRemaining)
              st1 in
          readFile_sectors k (sector + 1) clusterSectorStart 0 address st2
  end.

(** First sector of a cluster, as line 557 computes it. *)
Definition clusterSector (st : state) (cluster : Z) : Z :=
  wrap32 (rootDirSectorStart st
          + (cluster - 1) * sectors_per_cluster (sdCardFatBootSector st)).

(** [sdCardFatTable[cluster]]. *)
Definition fatEntry (st : state) (cluster : Z) : Z :=
  load16 (ram st) (sdCardFatTable st + 2 * cluster).

(** The outer [for (i = 0; i < 1 + ...; i++)] with [todo] iterations
    left. *)
Fixpoint readFile_clusters (todo : nat)
  (cluster bytesRemaining address : Z) (st : state) : Z * state :=
  match todo with
  | O => (SUCCESS, st)
  | S k =>
      let spc := sectors_per_cluster (sdCardFatBootSector st) in
      match readFile_sectors (Z.to_nat spc) 0 (clusterSector st cluster)
              bytesRemaining address st with
      | (None, st1) => (FAILURE, st1)
      | (Some (bytesRemaining', address'), st1) =>
          readFile_clusters k (fatEntry st1 cluster)
            bytesRemaining' address' st1
      end
  end.

(** The bound of the outer loop, in 32-bit unsigned arithmetic. *)
Definition clusterCount (b : Fat16BootSector) (fileLength : Z) : Z :=
  wrap32 (1 + (fileLength / sectors_per_cluster b) / sector_size b).

Definition spi_sdcard_readFile (fuel : nat) (filename ext : string)
  (address : Z) (st : state) : outcome state Z :=
  match readFile_scan fuel st filename ext
          {| fileClusterStart := 0; fileLength := 0; scan_n := 0 |} with
  | None => OutOfFuel
  | Some s =>
      if fileClusterStart s =? 0 then Done FAILURE st
      else if fileLength s =? 0 then Done SUCCESS st
      else
        let b := sdCardFatBootSector st in
        if (sectors_per_cluster b =? 0) || (sector_size b =? 0)
        then Undefined
        else
          let (r, st1) :=
            readFile_clusters (Z.to_nat (clusterCount b (fileLength s)))
              (fileClusterStart s) (fileLength s) (wrap32 address) st in
          Done r st1
  end.

(** ** Vocabulary of the statements *)

(** The byte the core last sampled on MISO. *)
Definition sampled (d : spi_dev) : Z := csr_miso_read d.

(** The core after [k] filler bytes [0xff] have been sent. *)
Definition fillers (k : nat) (d : spi_dev) : spi_dev :=
  snd (times k (spi_write_byte 0xff) d).

(** Bit 7 of a response byte. *)
Definition high_bit (r : Z) : bool := Z.testbit r 7.

(** One cycle of the mode switch: select deasserted, ten filler bytes,
    select asserted, one response byte. *)
Definition mode_cycle : M spi_dev Z :=
  spi_cs_write CS_HIGH ;;
  times 10 (spi_write_byte 0xff) ;;
  spi_cs_write CS_LOW ;;
  spi_read_rbyte.

(** The core after [k] cycles, and the response of cycle [k + 1]. *)
Fixpoint cycles (k : nat) (d : spi_dev) : spi_dev :=
  match k with
  | O => d
  | S k' => cycles k' (snd (mode_cycle d))
  end.

Definition cycle_response (k : nat) (d : spi_dev) : Z :=
  fst (mode_cycle (cycles k d)).

(** ** [readSector] as the specification words it *)

(** A 32-bit value as four bytes, most significant first. *)
Definition big_endian32 (v : Z) : list Z :=
  [(v / 2 ^ 24) mod 2 ^ 8; (v / 2 ^ 16) mod 2 ^ 8;
   (v / 2 ^ 8) mod 2 ^ 8; v mod 2 ^ 8].

(** [n] single-byte reads, in order. *)
Fixpoint read_bytes (n : nat) : M spi_dev (list Z) :=
  match n with
  | O => ret []
  | S k => b <- spi_read_byte ;; bs <- read_bytes k ;; ret (b :: bs)
  end.

(** Single-byte reads until the token [0xfe] arrives, at most [bound] of
    them; the answer says whether it arrived. *)
Fixpoint poll_token (bound : nat) : M spi_dev bool :=
  match bound with
  | O => ret false
  | S k => r <- spi_read_byte ;;
           if r =? 0xfe then ret true else poll_token k
  end.

Definition store_block (storage : Z) (data : list Z) : M state unit :=
  fun st => (tt, set_ram (store_bytes (ram st) storage data) st).

(** Send the read-block command with the sector number big endian; fail
    unless the response is [0x00]; poll for the token with at most [polls]
    single-byte reads and fail if it does not arrive; read 512 bytes into
    [storage], read 8 more bytes and drop them; succeed. *)
Definition readSector_spec (polls : nat) (sectorNumber storage : Z)
  : M state Z :=
  on_dev (spi_write_bytes ([0xff; 0x51] ++ big_endian32 sectorNumber
                           ++ [0xff])) ;;
  r <- on_dev spi_read_rbyte ;;
  if r =? 0x00 then
    found <- on_dev (poll_token polls) ;;
    if (found : bool) then
      data <- on_dev (read_bytes 512) ;;
      store_block storage data ;;
      on_dev (read_bytes 8) ;;
      record_read sectorNumber storage (Some data) ;;
      ret SUCCESS
    else
      record_read sectorNumber storage None ;; ret FAILURE
  else
    record_read sectorNumber storage None ;; ret FAILURE.

(** The bytes the token poll of the specification looks at: the first
    [n] bytes that single-byte reads deliver. *)
Definition polled (n : nat) (d : spi_dev) : list Z :=
  fst (read_bytes n d).

(** A byte value. *)
Definition is_byte (v : Z) : Prop := 0 <= v < 2 ^ 8.

(** The state a call of [readSector] leaves: the core has moved on to
    [d], the call is in the history, and on success the block is in the
    buffer. *)
Definition after_read (sectorNumber storage : Z) (d : spi_dev)
  (res : option (list Z)) (st : state) : state :=
  set_history
    (history st ++ [{| rd_sector := sectorNumber; rd_storage := storage;
                       rd_data := res |}])
    (set_ram
       (match res with
        | Some data => store_bytes (ram st) storage data
        | None => ram st
        end)
       (set_dev d st)).

(** ** Vocabulary of the directory scan *)

(** The local variables on entry to the scan. *)
Definition scan0 : scan :=
  {| fileClusterStart := 0; fileLength := 0; scan_n := 0 |}.

(** Entry [n] sets [nameMatch]. *)
Definition matches (st : state) (filename ext : string) (n : Z) : Prop :=
  readFile_nameMatch st filename ext n = 1.

(** Entry [m] is the first of the directory that sets [nameMatch]. *)
Definition first_match (st : state) (filename ext : string) (m : Z) : Prop :=
  0 <= m < root_dir_entries (sdCardFatBootSector st)
  /\ matches st filename ext m
  /\ forall j, 0 <= j < m -> ~ matches st filename ext j.

(** The local variables after [k] passes through the body of the scan. *)
Definition readFile_scan_steps (st : state) (filename ext : string)
  (k : nat) : scan :=
  Nat.iter k (readFile_scan_body st filename ext) scan0.

(** The scan has not met a matching entry below [scan_n]. *)
Definition scanning (st : state) (filename ext : string) (s : scan) : Prop :=
  fileClusterStart s = 0
  /\ 0 <= scan_n s
  /\ forall j, 0 <= j < scan_n s -> ~ matches st filename ext j.

(** The scan stands on the first matching entry and has copied its cluster
    and size. *)
Definition found (st : state) (filename ext : string) (s : scan) : Prop :=
  first_match st filename ext (scan_n s)
  /\ fileClusterStart s = entry_starting_cluster st (scan_n s)
  /\ fileLength s = entry_file_size st (scan_n s).

(** The scan is at or below entry [m], has no cluster yet and has met no
    match below where it stands. *)
Definition held_at (st : state) (filename ext : string) (m : Z) (s : scan)
  : Prop :=
  fileClusterStart s = 0
  /\ 0 <= scan_n s <= m
  /\ forall j, 0 <= j < scan_n s -> ~ matches st filename ext j.

(** ** Vocabulary of the loader *)

(** The global variables that [readSector] does not touch. *)
Definition globals (st : state)
  : PartitionTable * Fat16BootSector * Z * Z * Z * Z :=
  (sdCardPartition st, sdCardFatBootSector st, sdCardFat16RootDir st,
   sdCardFatTable st, fatSectorStart st, rootDirSectorStart st).

(** Which sector a call of [readSector] asked for, and into which buffer. *)
Definition rd_key (e : sector_read) : Z * Z := (rd_sector e, rd_storage e).

(** [count] consecutive sectors from [first], read into consecutive
    stretches of [step] bytes from [buffer]. *)
Definition sector_run (first buffer step : Z) (count : nat) : list (Z * Z) :=
  map (fun i => (wrap32 (first + Z.of_nat i),
                 wrap32 (buffer + step * Z.of_nat i)))
      (seq 0 count).

(** The validation of the partition entry. *)
Definition valid_partition (p : PartitionTable) : Prop :=
  (first_byte p = 0x00 \/ first_byte p = 0x80)
  /\ (partition_type p = 4 \/ partition_type p = 6 \/ partition_type p = 14).

(** ** Vocabulary of the cluster chain *)

(** The fields of the boot sector that the reader divides and counts by
    hold values of their C types. *)
Definition boot_fields_in_range (b : Fat16BootSector) : Prop :=
  0 <= sector_size b < 2 ^ 16 /\ 0 <= sectors_per_cluster b < 2 ^ 8.

(** The first [n] clusters of the chain that starts at [c]: each next
    cluster is the table entry of the one before, whatever its value. *)
Fixpoint cluster_chain (st : state) (n : nat) (c : Z) : list Z :=
  match n with
  | O => []
  | S k => c :: cluster_chain st k (fatEntry st c)
  end.

(** The sectors of a cluster, in order. *)
Definition cluster_sectors (st : state) (c : Z) : list Z :=
  map (fun j => wrap32 (clusterSector st c + Z.of_nat j))
      (seq 0 (Z.to_nat (sectors_per_cluster (sdCardFatBootSector st)))).

(** Between two sector reads of [spi_sdcard_readFile], for a file of [L]
    bytes loaded at [A] from the state [st0]: the globals are as they
    were, memory has changed only in the window of the destination and in
    the sector buffer, and the bytes still to copy fit behind the current
    address. *)
Definition walk_inv (st0 : state) (A L : Z) (st : state)
  (bytesRemaining address : Z) : Prop :=
  globals st = globals st0
  /\ (forall a,
        ~ (A <= a < A + L + 512) ->
        ~ (sdCardSector <= a < sdCardSector + 512) ->
        ram st a = ram st0 a)
  /\ 0 <= bytesRemaining
  /\ A <= address
  /\ address + bytesRemaining <= A + L.

(** ** Vocabulary of the copy *)

(** The bytes that arrived in a stretch of the history, in order. *)
Definition payload (reads : list sector_read) : list Z :=
  flat_map (fun e => match rd_data e with Some d => d | None => [] end)
           reads.

(** Where the [k]-th sector of a file goes when it is loaded at [A] and
    its last byte is in sector [K]: straight to its place below sector
    [K], to the sector buffer from there on. *)
Definition sector_target (A K : Z) (k : nat) : Z :=
  if Z.of_nat k <? K then A + 512 * Z.of_nat k else sdCardSector.

(** Between two sector reads of [spi_sdcard_readFile] with 512-byte
    sectors, for a file of [L] bytes loaded at [A] from the state [st0],
    after the reads [new]: the destination holds the first
    [min (512 * |new|) L] bytes that arrived, nothing else has changed but
    the sector buffer, and the local variables are where that many bytes
    leave them. *)
Definition copy_inv (st0 : state) (A L K : Z) (st : state)
  (new : list sector_read) (bytesRemaining address : Z) : Prop :=
  let j := Z.of_nat (List.length new) in
  globals st = globals st0
  /\ history st = history st0 ++ new
  /\ Z.of_nat (List.length (payload new)) = 512 * j
  /\ Forall is_byte (payload new)
  /\ map rd_storage new = map (sector_target A K) (seq 0 (List.length new))
  /\ bytesRemaining = Z.max 0 (L - 512 * j)
  /\ address = A + 512 * Z.min j K
  /\ (forall i, 0 <= i < Z.min (512 * j) L ->
        ram st (A + i) = nth (Z.to_nat i) (payload new) 0)
  /\ (forall a,
        ~ (A <= a < A + Z.min (512 * j) L) ->
        ~ (sdCardSector <= a < sdCardSector + 512) ->
        ram st a = ram st0 a).

(** ** Vocabulary of the initialisation *)

(** The command frames of [spi_sdcard_goidle]. *)
Definition cmd0 : list Z := [0xff; 0x40; 0x00; 0x00; 0x00; 0x00; 0x95].
Definition cmd8 : list Z := [0xff; 0x48; 0x00; 0x00; 0x01; 0xaa; 0x87].
Definition cmd55 : list Z := [0xff; 0x77; 0x00; 0x00; 0x00; 0x00; 0x00].
Definition acmd41 : list Z := [0xff; 0x69; 0x40; 0x00; 0x00; 0x00; 0x00].
Definition cmd58 : list Z := [0xff; 0x7a; 0x00; 0x00; 0x00; 0x00; 0xff].
Definition cmd16 : list Z := [0xff; 0x50; 0x00; 0x00; 0x02; 0x00; 0xff].

(** One round of the ready poll: CMD55, its response, ACMD41, its
    response. *)
Definition ready_round : M spi_dev Z :=
  spi_write_bytes cmd55 ;;
  spi_read_rbyte ;;
  spi_write_bytes acmd41 ;;
  spi_read_rbyte.

(** The core after [k] rounds, and the response of round [k + 1]. *)
Fixpoint ready_rounds (k : nat) (d : spi_dev) : spi_dev :=
  match k with
  | O => d
  | S k' => ready_rounds k' (snd (ready_round d))
  end.

Definition ready_response (k : nat) (d : spi_dev) : Z :=
  fst (ready_round (ready_rounds k d)).

(** What the ready poll puts on the wire in rounds that needed the given
    numbers of filler bytes after CMD55 and after ACMD41. *)
Definition ready_wire (rounds : list (nat * nat)) : list Z :=
  flat_map (fun ab => cmd55 ++ repeat 0xff (fst ab)
                      ++ acmd41 ++ repeat 0xff (snd ab)) rounds.

(** ** Vocabulary of read errors *)

(** A call of [readSector] in the history that succeeded. *)
Definition read_ok (e : sector_read) : Prop := rd_data e <> None.

(** A stretch of the history in which every read succeeded but the last,
    which failed. *)
Definition ends_failed (new : list sector_read) : Prop :=
  exists oks e, new = oks ++ [e] /\ Forall read_ok oks /\ rd_data e = None.

(** ** Vocabulary of the card's bytes *)

(** Byte [i] of a block, and the little-endian values of two and four
    bytes from byte [i] on. *)
Definition byte_at (l : list Z) (i : Z) : Z := nth (Z.to_nat i) l 0.

Definition le16_at (l : list Z) (i : Z) : Z :=
  byte_at l i + 2 ^ 8 * byte_at l (i + 1).

Definition le32_at (l : list Z) (i : Z) : Z :=
  byte_at l i + 2 ^ 8 * byte_at l (i + 1) + 2 ^ 16 * byte_at l (i + 2)
  + 2 ^ 24 * byte_at l (i + 3).

(** ** Vocabulary of the wire *)

(** What a run of [readSector] calls puts on the wire: for each call the
    read-block command with its sector number, and the filler bytes that
    clock the answer in. *)
Definition read_wire (jobs : list (Z * nat)) : list Z :=
  flat_map (fun j => [0xff; 0x51] ++ big_endian32 (fst j) ++ [0xff]
                     ++ repeat 0xff (snd j)) jobs.

(** From [st] to [st'] the card was sent read-block commands and filler
    bytes only, one command for each read that the history has gained, in
    order and with its sector number, and the chip select is as it
    was. *)
Definition reads_on_wire (st st' : state) : Prop :=
  exists new jobs,
    history st' = history st ++ new
    /\ map fst jobs = map rd_sector new
    /\ sent (dev st') = sent (dev st) ++ read_wire jobs
    /\ cs (dev st') = cs (dev st).

(** ** Vocabulary of a card that is not there *)

(** Whatever is sent, the byte that comes back has its high bit set: no
    response ever arrives.  This is what the core samples on a line that
    idles high, with no card in the slot. *)
Definition never_responds : Prop :=
  forall (b : Z) (c : C), high_bit (fst (fst (shift b c)) mod 2 ^ 8) = true.

(** Entry [n] of a root directory held in the bytes [P] answers to a
    name and an extension: its first byte is not zero, and its name and
    its extension begin with the characters asked for. *)
Definition entry_bytes_match (P : list Z) (filename ext : string) (n : Z)
  : Prop :=
  byte_at P (32 * n) <> 0
  /\ (forall i, 0 <= i < Z.of_nat (strlen filename) ->
        byte_at P (32 * n + i) = char_at filename i)
  /\ (forall j, 0 <= j < Z.of_nat (strlen ext) ->
        byte_at P (32 * n + 8 + j) = char_at ext j).

End Machine.

(** ** Concrete machines

    Cards that play back a script, used to run the functions on explicit
    inputs. *)

#[export] Instance demo_board : Board := {
  MAIN_RAM_BASE := 0x40000000;
  MAIN_RAM_SIZE := 0x04000000;
  sdCardSector := 0x10001000
}.

Definition script_dev (l : list Z) : spi_dev (C := list Z) :=
  {| card := l; mosi := 0; miso := 0xff; control := 0; cs := 0;
     busy := 0%nat; sent := [] |}.

(** A card that leaves the response of the mode switch at zero for [k]
    cycles and answers [resp] in the next one. *)
Definition mode_switch_script (k : nat) (resp : Z) : list Z :=
  List.concat (repeat (repeat 0xff 9 ++ [0x00]) k) ++ repeat 0xff 9 ++ [resp].

Definition zero_memory : memory := fun _ => 0.

(** A machine right after reset, in front of a scripted card. *)
Definition script_state (l : list Z) (m : memory) : state (C := list Z) :=
  {| dev := script_dev l;
     ram := m;
     sdCardPartition := read_PartitionTable zero_memory 0;
     sdCardFatBootSector := read_Fat16BootSector zero_memory 0;
     sdCardFat16RootDir := 0;
     sdCardFatTable := 0;
     fatSectorStart := 0;
     rootDirSectorStart := 0;
     history := [] |}.

(** What a card plays back for one successful block read: the response
    [0x00] on the last byte of the command, [wait] idle bytes, the token,
    the 512 data bytes and 8 trailing bytes. *)
Definition block_reply (wait : nat) (data : list Z) : list Z :=
  repeat 0xff 6 ++ [0x00] ++ repeat 0xff wait ++ [0xfe] ++ data
  ++ repeat 0xff 8.

(** A block of 512 bytes counting up from [b]. *)
Definition ramp (b : Z) : list Z :=
  map (fun i => wrap8 (b + Z.of_nat i)) (seq 0 512).

(** A card whose token is the 16385th byte after the response. *)
Definition late_token_script : list Z :=
  block_reply (Z.to_nat 16384) (ramp 0).

(** *** A small volume in memory *)

Definition bytes_of_string (s : string) : list Z :=
  map (fun c => Z.of_nat (nat_of_ascii c)) (list_ascii_of_string s).

Definition le16 (v : Z) : list Z := [v mod 2 ^ 8; (v / 2 ^ 8) mod 2 ^ 8].

Definition le32 (v : Z) : list Z :=
  [v mod 2 ^ 8; (v / 2 ^ 8) mod 2 ^ 8; (v / 2 ^ 16) mod 2 ^ 8;
   (v / 2 ^ 24) mod 2 ^ 8].

(** A directory entry: the 11 characters of the name and extension, 15
    bytes of attributes and times, the starting cluster, the size. *)
Definition dir_entry (name : string) (cluster size : Z) : list Z :=
  bytes_of_string name ++ repeat 0 15 ++ le16 cluster ++ le32 size.

(** Memory [m] with the bytes [l] laid over it from [base] on. *)
Definition image (base : Z) (l : list Z) (m : memory) : memory :=
  fun a =>
    if (base <=? a) && (a <? base + Z.of_nat (List.length l))
    then nth (Z.to_nat (a - base)) l 0
    else m a.

Definition demo_partition : PartitionTable :=
  {| first_byte := 0x80; start_chs := [0; 0; 0]; partition_type := 6;
     end_chs := [0; 0; 0]; start_sector := 1; length_sectors := 100 |}.

Definition demo_boot (spc entries : Z) : Fat16BootSector :=
  {| jmp := [0xeb; 0x3c; 0x90];
     oem := bytes_of_string "MSDOS5.0";
     sector_size := 512;
     sectors_per_cluster := spc;
     reserved_sectors := 1;
     number_of_fats := 1;
     root_dir_entries := entries;
     total_sectors_short := 100;
     media_descriptor := 0xf8;
     fat_size_sectors := 1;
     sectors_per_track := 0;
     number_of_heads := 0;
     hidden_sectors := 0;
     total_sectors_long := 100;
     drive_number := 0;
     current_head := 0;
     boot_signature := 0x29;
     volume_id := 0;
     volume_label := bytes_of_string "NO NAME    ";
     fs_type := bytes_of_string "FAT16   ";
     boot_code := repeat 0 448;
     boot_sector_signature := 0xaa55 |}.

Definition demo_fat_addr : Z := 0x43fffe00.
Definition demo_dir_addr : Z := 0x43fffc00.

(** The machine as [spi_sdcard_readMBR] leaves it for a volume with one
    allocation table of one sector and 16 directory entries: the table
    [fat] and the directory [dir] are in memory below the top of RAM. *)
Definition loaded_state (script : list Z) (spc : Z) (fat dir : list Z)
  : state (C := list Z) :=
  {| dev := script_dev script;
     ram := image demo_fat_addr fat (image demo_dir_addr dir zero_memory);
     sdCardPartition := demo_partition;
     sdCardFatBootSector := demo_boot spc 16;
     sdCardFat16RootDir := demo_dir_addr;
     sdCardFatTable := demo_fat_addr;
     fatSectorStart := 2;
     rootDirSectorStart := 3;
     history := [] |}.

(** A directory whose first entry is an empty file the way FAT16 records
    one: size 0 and starting cluster 0. *)
Definition empty_file_dir : list Z :=
  dir_entry "EMPTY   TXT" 0 0 ++ dir_entry "HELLO   TXT" 2 10.

(** A directory with two files with the same first letters. *)
Definition hello_dir : list Z :=
  dir_entry "README  MD " 5 700 ++ dir_entry "HELLOWLDTXT" 3 20
  ++ dir_entry "HELLO   TXT" 2 10.

(** *** A small card image *)

(** [l] with [bytes] written over it from offset [off] on. *)
Definition patch (off : nat) (bytes l : list Z) : list Z :=
  firstn off l ++ bytes ++ skipn (off + List.length bytes) l.

(** Sector 0 with the entry of partition 1 at [0x1be]. *)
Definition mbr_sector (status type : Z) : list Z :=
  patch 0x1be ([status; 0; 0; 0; type; 0; 0; 0] ++ le32 1 ++ le32 100)
    (patch 510 [0x55; 0xaa] (repeat 0 512)).

(** The boot sector of a volume with 512-byte sectors, one reserved
    sector and one allocation table of one sector. *)
Definition boot_sector (spc entries : Z) : list Z :=
  patch 11 (le16 512 ++ [spc] ++ le16 1 ++ [1] ++ le16 entries ++ le16 100
            ++ [0xf8] ++ le16 1)
    (patch 32 (le32 100) (patch 510 [0x55; 0xaa] (repeat 0 512))).

(** A sector holding [l], padded with zeros. *)
Definition sector_of (l : list Z) : list Z :=
  firstn 512 (l ++ repeat 0 512).

(** An allocation table in which cluster 2 is followed by cluster 3, and
    cluster 3 ends its chain. *)
Definition demo_fat : list Z :=
  le16 0xfff8 ++ le16 0xffff ++ le16 3 ++ le16 0xffff.

(** What the card plays back for [spi_sdcard_readMBR]: sector 0, the boot
    sector, the allocation table, and the sectors of the root directory. *)
Definition volume_script (status type entries : Z) (dir : list (list Z))
  : list Z :=
  block_reply 0 (mbr_sector status type)
  ++ block_reply 0 (boot_sector 1 entries)
  ++ block_reply 0 (sector_of demo_fat)
  ++ List.concat (map (block_reply 0) dir).

(** The value an outcome returns, when it returns. *)
Definition outcome_value {St A : Type} (o : outcome St A) : option A :=
  match o with
  | Done a _ => Some a
  | _ => None
  end.

(** The state an outcome ends in, [st] when there is none. *)
Definition final_state {St A : Type} (o : outcome St A) (st : St) : St :=
  match o with
  | Done _ st' => st'
  | _ => st
  end.

(** The machine in front of a card holding a volume with 16 directory
    entries, before [spi_sdcard_readMBR]. *)
Definition fresh_volume : state (C := list Z) :=
  script_state (volume_script 0x80 6 16 [sector_of hello_dir]) zero_memory.

(** The same with a partition entry whose status byte is [0x81]. *)
Definition bad_status_volume : state (C := list Z) :=
  script_state (volume_script 0x81 6 16 [sector_of hello_dir]) zero_memory.

(** The loaded machine with the directory of the empty file. *)
Definition empty_file_state : state (C := list Z) :=
  loaded_state [] 1 demo_fat empty_file_dir.

(** The loaded machine with the directory of the two files. *)
Definition hello_state : state (C := list Z) :=
  loaded_state [] 1 demo_fat hello_dir.

(** A directory with one file of two full sectors. *)
Definition kernel_dir : list Z := dir_entry "KERNEL  BIN" 2 1024.

(** The loaded machine with that directory, one sector per cluster, in
    front of a card that has three blocks to give. *)
Definition kernel_state : state (C := list Z) :=
  loaded_state
    (block_reply 0 (ramp 0) ++ block_reply 3 (ramp 1) ++ block_reply 0 (ramp 2))
    1 demo_fat kernel_dir.

(** The loaded machine with the directory of the two files and a third of
    700 bytes, in front of a card that has two blocks to give. *)
Definition readme_state : state (C := list Z) :=
  loaded_state (block_reply 0 (ramp 0) ++ block_reply 2 (ramp 7))
    1 demo_fat hello_dir.

Definition load_address : Z := 0x40000000.

(** The card with the 16-entry volume and, behind it, the one sector of
    [HELLO.TXT]. *)
Definition full_volume : state (C := list Z) :=
  script_state
    (volume_script 0x80 6 16 [sector_of hello_dir] ++ block_reply 5 (ramp 65))
    zero_memory.

(** *** A card that initialises *)

(** What a card plays back for one command frame answered [r]. *)
Definition frame_reply (r : Z) : list Z := repeat 0xff 6 ++ [r].

(** A card that answers the mode switch in the first cycle, is idle after
    CMD0 and CMD8, is ready in the second round of the ready poll, and
    accepts CMD58 and CMD16. *)
Definition goidle_script : list Z :=
  repeat 0xff 9 ++ [0x01]
  ++ frame_reply 0x01
  ++ frame_reply 0x01 ++ [0x00; 0x00; 0x01; 0xaa]
  ++ frame_reply 0x01 ++ frame_reply 0x01
  ++ frame_reply 0x01 ++ frame_reply 0x00
  ++ frame_reply 0x00 ++ [0x00; 0xff; 0x80; 0x00]
  ++ frame_reply 0x00.

(** The loaded machine with the directory of the three files, in front of
    a card that has one block to give and then stays silent. *)
Definition one_block_state : state (C := list Z) :=
  loaded_state (block_reply 0 (ramp 0)) 1 demo_fat hello_dir.

(** The card with the 16-entry volume whose boot sector declares a
    sector size of zero. *)
Definition zero_sector_size_volume : state (C := list Z) :=
  script_state
    (block_reply 0 (mbr_sector 0x80 6)
     ++ block_reply 0 (patch 11 [0; 0] (boot_sector 1 16))
     ++ block_reply 0 (sector_of demo_fat))
    zero_memory.

(** The card with the 16-entry volume that falls silent after the boot
    sector. *)
Definition silent_table_volume : state (C := list Z) :=
  script_state
    (block_reply 0 (mbr_sector 0x80 6) ++ block_reply 0 (boot_sector 1 16))
    zero_memory.

(** *** No card *)

(** An empty slot: the line idles high whatever is sent. *)
Definition absent_card : SpiCard unit :=
  {| shift := fun _ c => (0xff, 0%nat, c); select := fun _ c => c |}.

(** *** Volumes off the beaten track *)

(** A boot sector with another sector size. *)
Definition with_sector_size (v : Z) (b : Fat16BootSector) : Fat16BootSector :=
  {| jmp := jmp b;
     oem := oem b;
     sector_size := v;
     sectors_per_cluster := sectors_per_cluster b;
     reserved_sectors := reserved_sectors b;
     number_of_fats := number_of_fats b;
     root_dir_entries := root_dir_entries b;
     total_sectors_short := total_sectors_short b;
     media_descriptor := media_descriptor b;
     fat_size_sectors := fat_size_sectors b;
     sectors_per_track := sectors_per_track b;
     number_of_heads := number_of_heads b;
     hidden_sectors := hidden_sectors b;
     total_sectors_long := total_sectors_long b;
     drive_number := drive_number b;
     current_head := current_head b;
     boot_signature := boot_signature b;
     volume_id := volume_id b;
     volume_label := volume_label b;
     fs_type := fs_type b;
     boot_code := boot_code b;
     boot_sector_signature := boot_sector_signature b |}.

(** The loaded machine of a volume that declares 256-byte sectors, with
    one file of 300 bytes in cluster 2, in front of a card that has two
    blocks to give. *)
Definition small_sector_state : state (C := list Z) :=
  set_sdCardFatBootSector (with_sector_size 256 (demo_boot 1 16))
    (loaded_state (block_reply 0 (ramp 1) ++ block_reply 0 (ramp 7))
       1 demo_fat (dir_entry "NOTE    TXT" 2 300)).

(** A directory in which a file with starting cluster 0 stands behind a
    file whose name begins with the same letters. *)
Definition shadowed_dir : list Z :=
  dir_entry "HELLOWLDTXT" 3 20 ++ dir_entry "HELLO   TXT" 0 0.

(** The loaded machine with that directory, in front of a card that has
    one block to give. *)
Definition shadowed_state : state (C := list Z) :=
  loaded_state (block_reply 0 (ramp 0)) 1 demo_fat shadowed_dir.

(** The card with a volume of 8 directory entries, half a sector; the
    card holds the directory sector, with [README.MD] in its first
    entry. *)
Definition half_directory_volume : state (C := list Z) :=
  script_state (volume_script 0x80 6 8 [sector_of hello_dir]) zero_memory.

(** * Properties *)

Section Transport.

Context {C : Type} {Card : SpiCard C}.

Implicit Types d : spi_dev (C := C).

Lemma land_0x80_testbit (r : Z) :
  negb (Z.land r 0x80 =? 0) = Z.testbit r 7.
Proof.
  change 0x80 with (2 ^ 7).
  destruct (Z.testbit r 7) eqn:E.
  - apply negb_true_iff, Z.eqb_neq. intros H.
    assert (T : Z.testbit (Z.land r (2 ^ 7)) 7 = true).
    { rewrite Z.land_spec, E, Z.pow2_bits_true by lia. reflexivity. }
    rewrite H, Z.bits_0 in T. discriminate.
  - apply negb_false_iff, Z.eqb_eq, Z.bits_inj'. intros n Hn.
    rewrite Z.land_spec, Z.bits_0.
    destruct (Z.eq_dec n 7) as [->|Hne].
    + rewrite E. reflexivity.
    + rewrite Z.pow2_bits_false by lia. apply andb_false_r.
Qed.

Lemma control_write_0_miso d :
  csr_miso_read (csr_control_write 0x00 d) = csr_miso_read d.
Proof. reflexivity. Qed.

Lemma fillers_S k d :
  fillers (S k) d = fillers k (snd (spi_write_byte 0xff d)).
Proof.
  unfold fillers. cbn [times]. unfold bind at 1.
  destruct (spi_write_byte 0xff d) as [u d1]. reflexivity.
Qed.

(** The body of the loop of [spi_read_rbyte] is one filler byte followed by
    a sample. *)
Lemma rbyte_body d (k : Z -> M spi_dev Z) :
  (spi_mosi_write 0xff ;;
   spi_control_write (Z.lor ONEBYTE SPI_START) ;;
   spi_wait_done ;;
   r' <- spi_miso_read ;;
   spi_control_write 0x00 ;;
   k r') d
  = k (sampled (fillers 1 d)) (fillers 1 d).
Proof.
  unfold fillers. cbn [times]. unfold spi_write_byte, bind, ret, sampled.
  unfold spi_mosi_write, spi_control_write, spi_miso_read.
  destruct (spi_wait_done _) as [u d1]. cbn [snd].
  rewrite control_write_0_miso. reflexivity.
Qed.

Lemma fillers_1_swap k d : fillers k (fillers 1 d) = fillers (S k) d.
Proof.
  rewrite (fillers_S k d). unfold fillers at 2. cbn [times].
  unfold bind, ret. destruct (spi_write_byte 0xff d) as [u d1]. reflexivity.
Qed.

Lemma spi_read_rbyte_loop_spec (t : nat) d :
  exists k : nat,
    (k <= t)%nat
    /\ spi_read_rbyte_loop t (sampled d) d = (sampled (fillers k d), fillers k d)
    /\ (forall j : nat, (j < k)%nat -> high_bit (sampled (fillers j d)) = true)
    /\ (high_bit (sampled (fillers k d)) = false \/ k = t).
Proof.
  revert d. induction t as [|t IH]; intros d.
  - exists 0%nat. repeat split; [lia| |now right]. intros j Hj. lia.
  - cbn [spi_read_rbyte_loop]. rewrite land_0x80_testbit.
    destruct (Z.testbit (sampled d) 7) eqn:E.
    + rewrite rbyte_body.
      destruct (IH (fillers 1 d)) as (k & Hk & Hrun & Hbefore & Hend).
      exists (S k). rewrite <- (fillers_1_swap k d). repeat split.
      * lia.
      * exact Hrun.
      * intros [|j] Hj; [exact E|].
        rewrite <- (fillers_1_swap j d). apply Hbefore. lia.
      * destruct Hend as [H|H]; [left; exact H|right; lia].
    + exists 0%nat. repeat split; [lia| |left; exact E].
      intros j Hj. lia.
Qed.

(** C9.  [spi_read_rbyte] samples one byte and, while the sampled byte has
    its high bit set, sends a filler byte and samples again, for at most 32
    filler bytes.  The value returned is the sample after some [k <= 32]
    filler bytes: every earlier sample had the high bit set, and either
    this one has it clear or [k = 32], in which case the value is just the
    last sample. *)
Theorem spi_read_rbyte_spec d :
  exists k : nat,
    (k <= 32)%nat
    /\ spi_read_rbyte d = (sampled (fillers k d), fillers k d)
    /\ (forall j : nat, (j < k)%nat -> high_bit (sampled (fillers j d)) = true)
    /\ (high_bit (sampled (fillers k d)) = false \/ k = 32%nat).
Proof.
  unfold spi_read_rbyte, bind, spi_miso_read.
  apply (spi_read_rbyte_loop_spec 32 d).
Qed.

Lemma spi_setspimode_loop_S (t : nat) d :
  spi_setspimode_loop (S t) d =
  let (r, d1) := mode_cycle d in
  if (0 <? Z.of_nat t) && (r =? 0) then spi_setspimode_loop t d1
  else (Z.of_nat t, r, d1).
Proof.
  cbn [spi_setspimode_loop]. unfold mode_cycle, bind.
  destruct (spi_cs_write CS_HIGH d) as [u1 d1].
  destruct (times 10 (spi_write_byte 0xff) d1) as [u2 d2].
  destruct (spi_cs_write CS_LOW d2) as [u3 d3].
  destruct (spi_read_rbyte d3) as [r d4].
  destruct ((0 <? Z.of_nat t) && (r =? 0)); reflexivity.
Qed.

Lemma cycles_S_cycle_response k d :
  cycle_response (S k) d = cycle_response k (snd (mode_cycle d)).
Proof. reflexivity. Qed.

(** What the loop of [spi_setspimode] does when entered with the counter
    at [S t]: it runs [k] cycles, [1 <= k <= S t], the first [k - 1] of
    which gave response zero, and stops with the counter at [S t - k]. *)
Lemma spi_setspimode_loop_spec (t : nat) d :
  exists k : nat,
    (k <= t)%nat
    /\ spi_setspimode_loop (S t) d
       = (Z.of_nat (t - k), cycle_response k d, cycles (S k) d)
    /\ (forall j : nat, (j < k)%nat -> cycle_response j d = 0)
    /\ (cycle_response k d <> 0 \/ k = t).
Proof.
  revert d. induction t as [|t IH]; intros d.
  - exists 0%nat. rewrite spi_setspimode_loop_S.
    unfold cycle_response. cbn [cycles].
    destruct (mode_cycle d) as [r d1]. cbn [fst snd].
    repeat split; [lia| |now right]. intros j Hj. lia.
  - rewrite spi_setspimode_loop_S.
    destruct (mode_cycle d) as [r d1] eqn:E.
    assert (Hr : cycle_response 0 d = r).
    { unfold cycle_response. cbn [cycles]. rewrite E. reflexivity. }
    assert (Hd : snd (mode_cycle d) = d1) by (rewrite E; reflexivity).
    destruct (r =? 0) eqn:Er.
    + replace (0 <? Z.of_nat (S t)) with true by (symmetry; apply Z.ltb_lt; lia).
      cbn [andb].
      destruct (IH d1) as (k & Hk & Hrun & Hbefore & Hend).
      exists (S k). repeat split.
      * lia.
      * rewrite Hrun. rewrite cycles_S_cycle_response, Hd.
        cbn [cycles]. rewrite Hd.
        replace (S t - S k)%nat with (t - k)%nat by lia. reflexivity.
      * intros [|j] Hj.
        -- rewrite Hr. apply Z.eqb_eq. exact Er.
        -- rewrite cycles_S_cycle_response, Hd. apply Hbefore. lia.
      * rewrite cycles_S_cycle_response, Hd.
        destruct Hend as [H|H]; [left; exact H|right; lia].
    + rewrite andb_false_r. exists 0%nat. repeat split.
      * lia.
      * rewrite Hr. cbn [cycles]. rewrite Hd.
        replace (S t - 0)%nat with (S t) by lia. reflexivity.
      * intros j Hj. lia.
      * left. rewrite Hr. apply Z.eqb_neq. exact Er.
Qed.

(** [spi_setspimode] runs [k] cycles of the mode switch, [1 <= k <= 32],
    stopping at the first nonzero response or after the 32nd cycle.  It
    returns [SUCCESS] exactly when it stopped before the 32nd cycle: a
    response that arrives in the 32nd cycle is reported as [FAILURE]. *)
Lemma spi_setspimode_spec d :
  exists k : nat,
    (1 <= k <= 32)%nat
    /\ snd (spi_setspimode d) = cycles k d
    /\ (forall j : nat, (j < k - 1)%nat -> cycle_response j d = 0)
    /\ (cycle_response (k - 1) d <> 0 \/ k = 32%nat)
    /\ fst (spi_setspimode d) = (if (k <? 32)%nat then SUCCESS else FAILURE).
Proof.
  destruct (spi_setspimode_loop_spec 31 d) as (k & Hk & Hrun & Hbefore & Hend).
  exists (S k). replace (S k - 1)%nat with k by lia.
  unfold spi_setspimode, bind.
  change (spi_setspimode_loop 32 d) with (spi_setspimode_loop (S 31) d).
  rewrite Hrun. cbn [fst].
  assert (Hres : forall b : bool,
             b = (Z.of_nat (31 - k) =? 0) ->
             b = negb (S k <? 32)%nat).
  { intros b ->. destruct (Nat.ltb_spec (S k) 32).
    - apply Z.eqb_neq. lia.
    - apply Z.eqb_eq. lia. }
  specialize (Hres _ eq_refl).
  repeat split.
  - lia.
  - lia.
  - destruct (Z.of_nat (31 - k) =? 0); reflexivity.
  - exact Hbefore.
  - destruct Hend as [H|H]; [left; exact H|right; lia].
  - rewrite Hres. destruct (S k <? 32)%nat; reflexivity.
Qed.

End Transport.

Section SectorReader.

Context {C : Type} {Card : SpiCard C}.

Implicit Types (d : spi_dev (C := C)) (st : state (C := C)).

Lemma cmd17_big_endian (s : Z) :
  cmd17 s = [0xff; 0x51] ++ big_endian32 s ++ [0xff].
Proof.
  unfold cmd17, big_endian32. cbn [app].
  change 0xff with (Z.ones 8).
  rewrite !Z.land_ones, !Z.shiftr_div_pow2 by lia. reflexivity.
Qed.

Lemma on_dev_eq {A : Type} (m : M spi_dev A) st :
  on_dev m st = (fst (m (dev st)), set_dev (snd (m (dev st))) st).
Proof. unfold on_dev. destruct (m (dev st)). reflexivity. Qed.

(** The first read and the [while] loop of [readSector] together are a
    poll of one read more than the loop's counter. *)
Lemma readSector_await_poll (n : nat) st :
  exists r : Z,
    (r0 <- on_dev spi_read_byte ;; readSector_await n r0) st
    = (r, set_dev (snd (poll_token (S n) (dev st))) st)
    /\ (r =? 0xfe) = fst (poll_token (S n) (dev st)).
Proof.
  revert st. induction n as [|n IH]; intros st.
  - cbn [readSector_await poll_token]. unfold bind, ret, on_dev.
    destruct (spi_read_byte (dev st)) as [r d1].
    exists r. destruct (r =? 0xfe); split; reflexivity.
  - specialize (IH (set_dev (snd (spi_read_byte (dev st))) st)).
    destruct IH as (r' & Hrun & Hr').
    change (poll_token (S (S n)) (dev st))
      with ((r <- spi_read_byte ;;
             if r =? 0xfe then ret true else poll_token (S n)) (dev st)).
    cbn [readSector_await].
    unfold bind, ret, on_dev in Hrun |- *. cbn [dev set_dev] in Hrun, Hr'.
    destruct (spi_read_byte (dev st)) as [r d1]. cbn [snd] in Hrun, Hr'.
    destruct (r =? 0xfe) eqn:Er; cbn [negb].
    + exists r. split; [reflexivity|exact Er].
    + exists r'. split; [exact Hrun|exact Hr'].
Qed.

Lemma readSector_block_read_bytes (n : nat) (i p : Z) st :
  readSector_block n i p st
  = (fst (read_bytes n (dev st)),
     set_ram (store_bytes (ram st) (p + i) (fst (read_bytes n (dev st))))
       (set_dev (snd (read_bytes n (dev st))) st)).
Proof.
  revert i st. induction n as [|n IH]; intros i st.
  - destruct st. reflexivity.
  - cbn [readSector_block read_bytes]. unfold bind, ret, on_dev, poke.
    destruct (spi_read_byte (dev st)) as [b d1].
    rewrite IH. cbn [dev ram set_ram set_dev].
    destruct (read_bytes n d1) as [bs d2].
    cbn [fst snd store_bytes].
    replace (p + (i + 1)) with (p + i + 1) by ring. reflexivity.
Qed.

Lemma times_read_byte (n : nat) st :
  times n (on_dev spi_read_byte) st
  = (tt, set_dev (snd (read_bytes n (dev st))) st).
Proof.
  revert st. induction n as [|n IH]; intros st.
  - destruct st. reflexivity.
  - cbn [times read_bytes]. unfold bind, ret, on_dev.
    destruct (spi_read_byte (dev st)) as [b d1].
    rewrite IH. cbn [dev set_dev].
    destruct (read_bytes n d1) as [bs d2]. reflexivity.
Qed.

Lemma readSector_polls : Z.to_nat 16385 = S readSector_timeout.
Proof. vm_compute. reflexivity. Qed.

Lemma readSector_refines (polls : nat) (s p : Z) st :
  polls = S readSector_timeout ->
  readSector s p st = readSector_spec polls s p st.
Proof.
  intros ->. unfold readSector, readSector_spec.
  rewrite <- cmd17_big_endian.
  destruct (readSector_await_poll readSector_timeout
              (snd (on_dev spi_read_rbyte
                      (snd (on_dev (spi_write_bytes (cmd17 s)) st)))))
    as (r' & Hrun & Hr').
  unfold bind in Hrun |- *.
  destruct (on_dev (spi_write_bytes (cmd17 s)) st) as [u st1].
  cbn [snd] in Hrun, Hr'.
  destruct (on_dev spi_read_rbyte st1) as [r st2]. cbn [snd] in Hrun, Hr'.
  destruct (r =? 0x00); cbn [negb]; [|reflexivity].
  destruct (on_dev spi_read_byte st2) as [r0 st3].
  rewrite Hrun, Hr'. rewrite (on_dev_eq (poll_token _)).
  destruct (fst (poll_token (S readSector_timeout) (dev st2)));
    cbn [negb]; [|reflexivity].
  rewrite readSector_block_read_bytes, times_read_byte.
  unfold store_block. rewrite !on_dev_eq. cbv beta iota.
  rewrite ?on_dev_eq. cbn [dev ram set_ram set_dev fst snd].
  rewrite Z.add_0_r. reflexivity.
Qed.

(** *** The bytes sent on MOSI *)

Lemma spi_wait_done_loop_sent (n : nat) d :
  sent (snd (spi_wait_done_loop n d)) = sent d.
Proof.
  revert d. induction n as [|n IH]; intros d;
    cbn [spi_wait_done_loop]; unfold bind, ret, spi_status_read,
    csr_status_read; destruct (busy d); cbn [snd sent]; try reflexivity.
  - change (0 =? SPI_DONE) with false. cbv iota. rewrite IH. reflexivity.
Qed.

Lemma spi_write_byte_sent (b : Z) d :
  sent (snd (spi_write_byte b d)) = sent d ++ [wrap8 b].
Proof.
  unfold spi_write_byte, bind, spi_mosi_write, spi_control_write,
    spi_wait_done.
  set (d1 := csr_control_write (Z.lor ONEBYTE SPI_START) (csr_mosi_write b d)).
  assert (H1 : sent d1 = sent d ++ [wrap8 b]).
  { unfold d1, csr_control_write.
    change (Z.testbit (Z.lor ONEBYTE SPI_START) 0) with true. cbv iota.
    destruct (shift _ _) as [[b0 n] c]. reflexivity. }
  pose proof (spi_wait_done_loop_sent (busy d1) d1) as H2.
  destruct (spi_wait_done_loop (busy d1) d1) as [u d2]. cbn [snd] in H2 |- *.
  unfold csr_control_write. change (Z.testbit 0 0) with false. cbv iota.
  cbn [sent]. rewrite H2. exact H1.
Qed.

Lemma spi_write_bytes_sent (l : list Z) d :
  sent (snd (spi_write_bytes l d)) = sent d ++ map wrap8 l.
Proof.
  revert d. induction l as [|b l IH]; intros d.
  - cbn. rewrite app_nil_r. reflexivity.
  - cbn [spi_write_bytes map]. unfold bind.
    pose proof (spi_write_byte_sent b d) as H.
    destruct (spi_write_byte b d) as [u d1]. cbn [snd] in H.
    rewrite IH, H, <- app_assoc. reflexivity.
Qed.

Lemma fillers_sent (k : nat) d :
  sent (fillers k d) = sent d ++ repeat 0xff k.
Proof.
  revert d. induction k as [|k IH]; intros d.
  - cbn. rewrite app_nil_r. reflexivity.
  - rewrite fillers_S, IH, spi_write_byte_sent, <- app_assoc. reflexivity.
Qed.

Lemma spi_read_rbyte_sent d :
  exists k : nat, sent (snd (spi_read_rbyte d)) = sent d ++ repeat 0xff k.
Proof.
  destruct (spi_read_rbyte_loop_spec 32 d) as (k & _ & Hrun & _).
  exists k. unfold spi_read_rbyte, bind, spi_miso_read.
  change (csr_miso_read d) with (sampled d). rewrite Hrun. apply fillers_sent.
Qed.

Lemma spi_read_byte_sent d :
  sent (snd (spi_read_byte d)) = sent d ++ [0xff].
Proof.
  unfold spi_read_byte, bind, ret, spi_miso_read.
  pose proof (spi_write_byte_sent 0xff d) as H.
  destruct (spi_write_byte 0xff d) as [u d1]. exact H.
Qed.

Lemma read_bytes_sent (n : nat) d :
  sent (snd (read_bytes n d)) = sent d ++ repeat 0xff n.
Proof.
  revert d. induction n as [|n IH]; intros d.
  - cbn. rewrite app_nil_r. reflexivity.
  - cbn [read_bytes repeat]. unfold bind, ret.
    pose proof (spi_read_byte_sent d) as H.
    destruct (spi_read_byte d) as [b d1]. cbn [snd] in H.
    specialize (IH d1). destruct (read_bytes n d1) as [bs d2].
    cbn [snd] in IH |- *. rewrite IH, H, <- app_assoc. reflexivity.
Qed.

Lemma poll_token_sent (n : nat) d :
  exists k : nat, sent (snd (poll_token n d)) = sent d ++ repeat 0xff k.
Proof.
  revert d. induction n as [|n IH]; intros d.
  - exists 0%nat. cbn. rewrite app_nil_r. reflexivity.
  - cbn [poll_token]. unfold bind, ret.
    pose proof (spi_read_byte_sent d) as H.
    destruct (spi_read_byte d) as [b d1]. cbn [snd] in H.
    destruct (b =? 0xfe).
    + exists 1%nat. exact H.
    + destruct (IH d1) as (k & Hk). exists (S k).
      rewrite Hk, H, <- app_assoc. reflexivity.
Qed.

Lemma byte_mod (v : Z) : wrap8 (v mod 2 ^ 8) = v mod 2 ^ 8.
Proof. unfold wrap8. apply Z.mod_mod. lia. Qed.

Lemma readSector_spec_sent (polls : nat) (s p : Z) st :
  exists fill : nat,
    sent (dev (snd (readSector_spec polls s p st)))
    = sent (dev st) ++ [0xff; 0x51] ++ big_endian32 s ++ [0xff]
      ++ repeat 0xff fill.
Proof.
  unfold readSector_spec, bind, store_block, record_read, ret.
  rewrite !on_dev_eq.
  pose proof (spi_write_bytes_sent
                ([0xff; 0x51] ++ big_endian32 s ++ [0xff]) (dev st)) as H1.
  set (d1 := snd (spi_write_bytes _ (dev st))) in *.
  assert (Hframe : sent d1
                   = sent (dev st) ++ [0xff; 0x51] ++ big_endian32 s ++ [0xff]).
  { rewrite H1. unfold big_endian32. cbn [map app].
    rewrite !byte_mod. reflexivity. }
  clear H1. cbn [dev set_dev].
  destruct (spi_read_rbyte_sent d1) as (k1 & H2).
  set (d2 := snd (spi_read_rbyte d1)) in *.
  destruct (fst (spi_read_rbyte d1) =? 0x00).
  - rewrite on_dev_eq. cbn [dev set_dev].
    destruct (poll_token_sent polls d2) as (k2 & H3).
    set (d3 := snd (poll_token polls d2)) in *.
    destruct (fst (poll_token polls d2)).
    + rewrite !on_dev_eq. cbn [dev set_dev set_ram set_history snd].
      exists (k1 + k2 + 512 + 8)%nat.
      rewrite !read_bytes_sent, H3, H2, Hframe.
      rewrite !repeat_app, <- !app_assoc. reflexivity.
    + cbn [dev set_dev set_history snd]. exists (k1 + k2)%nat.
      rewrite H3, H2, Hframe, repeat_app, <- !app_assoc. reflexivity.
  - cbn [dev set_dev set_history snd]. exists k1.
    rewrite H2, Hframe, <- !app_assoc. reflexivity.
Qed.

(** *** The effect of [readSector] on the machine *)

Lemma spi_wait_done_loop_miso (n : nat) d :
  miso (snd (spi_wait_done_loop n d)) = miso d.
Proof.
  revert d. induction n as [|n IH]; intros d;
    cbn [spi_wait_done_loop]; unfold bind, ret, spi_status_read,
    csr_status_read; destruct (busy d); cbn [snd miso]; try reflexivity.
  - change (0 =? SPI_DONE) with false. cbv iota. rewrite IH. reflexivity.
Qed.

Lemma wrap8_is_byte (v : Z) : is_byte (wrap8 v).
Proof. unfold is_byte, wrap8. apply Z.mod_pos_bound. lia. Qed.

Lemma spi_read_byte_is_byte d : is_byte (fst (spi_read_byte d)).
Proof.
  unfold spi_read_byte, spi_write_byte, bind, ret, spi_mosi_write,
    spi_control_write, spi_wait_done, spi_miso_read.
  set (d1 := csr_control_write (Z.lor ONEBYTE SPI_START)
               (csr_mosi_write 0xff d)).
  assert (H1 : is_byte (miso d1)).
  { unfold d1, csr_control_write.
    change (Z.testbit (Z.lor ONEBYTE SPI_START) 0) with true. cbv iota.
    destruct (shift _ _) as [[b0 n] c]. cbn [miso]. apply wrap8_is_byte. }
  pose proof (spi_wait_done_loop_miso (busy d1) d1) as H2.
  destruct (spi_wait_done_loop (busy d1) d1) as [u d2]. cbn [snd] in H2.
  cbn [fst]. unfold csr_miso_read, csr_control_write.
  change (Z.testbit 0 0) with false. cbv iota. cbn [miso].
  rewrite H2. exact H1.
Qed.

Lemma read_bytes_block (n : nat) d :
  List.length (fst (read_bytes n d)) = n
  /\ Forall is_byte (fst (read_bytes n d)).
Proof.
  revert d. induction n as [|n IH]; intros d.
  - split; [reflexivity|constructor].
  - cbn [read_bytes]. unfold bind, ret.
    pose proof (spi_read_byte_is_byte d) as Hb.
    destruct (spi_read_byte d) as [b d1]. cbn [fst] in Hb.
    destruct (IH d1) as [Hlen Hall].
    destruct (read_bytes n d1) as [bs d2]. cbn [fst] in *.
    split; [cbn [List.length]; rewrite Hlen; reflexivity|].
    constructor; assumption.
Qed.

Lemma readSector_effect (s p : Z) st :
  exists (d : spi_dev) (res : option (list Z)),
    readSector s p st
    = (match res with Some _ => SUCCESS | None => FAILURE end,
       after_read s p d res st)
    /\ (forall data, res = Some data ->
        List.length data = 512%nat /\ Forall is_byte data).
Proof.
  rewrite (readSector_refines (S readSector_timeout)) by reflexivity.
  unfold readSector_spec, bind, store_block, record_read, ret, after_read.
  rewrite !on_dev_eq. cbn [dev set_dev].
  destruct (fst (spi_read_rbyte _) =? 0x00).
  - rewrite on_dev_eq. cbn [dev set_dev].
    destruct (fst (poll_token _ _)).
    + rewrite !on_dev_eq. cbn [dev ram set_dev set_ram history fst snd].
      match goal with
      | |- context [store_bytes _ _ (fst (read_bytes ?n ?d0))] =>
          pose proof (read_bytes_block n d0) as Hblock;
          change (List.length (fst (read_bytes n d0)) = 512%nat
                  /\ Forall is_byte (fst (read_bytes n d0))) in Hblock;
          set (blk := fst (read_bytes n d0)) in *
      end.
      match goal with
      | |- context [set_history _ (set_dev ?d0 _)] => exists d0
      end.
      exists (Some blk). split; [reflexivity|].
      intros data H. assert (data = blk) as -> by congruence. exact Hblock.
    + cbn [dev ram set_dev set_ram history fst snd].
      match goal with
      | |- context [set_history _ (set_dev ?d0 _)] => exists d0
      end.
      exists None. split; [reflexivity|]. intros data H. discriminate H.
  - cbn [dev ram set_dev set_ram history fst snd].
    match goal with
    | |- context [set_history _ (set_dev ?d0 _)] => exists d0
    end.
    exists None. split; [reflexivity|]. intros data H. discriminate H.
Qed.

(** C8, amended.  [readSector] sends the read-block command with the
    sector number as four big-endian bytes and fails unless the response is
    [0x00]; it then reads single bytes until the token [0xfe] arrives, one
    first read and up to 16384 more, 16385 in all, and fails if none of
    them is the token; after the token it reads 512 bytes into
    [storage[0..511]] in order, reads 8 more bytes that it drops, and
    succeeds.  Everything it sends after the command is filler. *)
Theorem readSector_spec_16385 (s p : Z) st :
  readSector s p st = readSector_spec (Z.to_nat 16385) s p st
  /\ exists fill : nat,
       sent (dev (snd (readSector s p st)))
       = sent (dev st) ++ [0xff; 0x51] ++ big_endian32 s ++ [0xff]
         ++ repeat 0xff fill.
Proof.
  assert (H : readSector s p st = readSector_spec (Z.to_nat 16385) s p st)
    by (apply readSector_refines, readSector_polls).
  split; [exact H|]. rewrite H. apply readSector_spec_sent.
Qed.

End SectorReader.

Section DirectoryScan.

Context {C : Type} {Card : SpiCard C} {board : Board}.

Implicit Types (st : state (C := C)) (s : scan).

Lemma readFile_compare_spec (field : Z -> Z) (str : string) (todo : nat)
  (i nm : Z) :
  nm = 0 \/ nm = 1 ->
  (readFile_compare field str todo i nm = 0
   \/ readFile_compare field str todo i nm = 1)
  /\ (readFile_compare field str todo i nm = 1 <->
      nm = 1
      /\ forall k, i <= k < i + Z.of_nat todo -> field k = char_at str k).
Proof.
  revert i nm. induction todo as [|todo IH]; intros i nm Hnm.
  - cbn [readFile_compare]. split; [exact Hnm|]. split.
    + intros H. split; [exact H|]. intros k Hk. lia.
    + intros [H _]. exact H.
  - cbn [readFile_compare].
    destruct (Z.eqb_spec (field i) (char_at str i)) as [E|E]; cbn [negb].
    + destruct (IH (i + 1) nm Hnm) as [H01 Hiff]. split; [exact H01|].
      rewrite Hiff. split.
      * intros [H1 H2]. split; [exact H1|]. intros k Hk.
        destruct (Z.eq_dec k i) as [->|Hne]; [exact E|apply H2; lia].
      * intros [H1 H2]. split; [exact H1|]. intros k Hk. apply H2. lia.
    + destruct (IH (i + 1) 0 (or_introl eq_refl)) as [H01 Hiff].
      split; [exact H01|]. rewrite Hiff. split.
      * intros [H1 _]. discriminate H1.
      * intros [_ H2]. exfalso. apply E, H2. lia.
Qed.

Lemma readFile_nameMatch_spec st (filename ext : string) (n : Z) :
  readFile_nameMatch st filename ext n = 1 <->
  entry_filename st n 0 <> 0
  /\ (forall i, 0 <= i < Z.of_nat (strlen filename) ->
      entry_filename st n i = char_at filename i)
  /\ (forall j, 0 <= j < Z.of_nat (strlen ext) ->
      entry_ext st n j = char_at ext j).
Proof.
  unfold readFile_nameMatch.
  destruct (Z.eqb_spec (entry_filename st n 0) 0) as [E|E]; cbn [negb].
  - split; [intros H; discriminate H|intros [H _]; contradiction].
  - destruct (readFile_compare_spec (entry_filename st n) filename
                (strlen filename) 0 1 (or_intror eq_refl)) as [H01 Hname].
    destruct (readFile_compare_spec (entry_ext st n) ext (strlen ext) 0 _ H01)
      as [_ Hext].
    rewrite Hext, Hname. cbn [Z.add]. intuition.
Qed.

Lemma matches_dec st (filename ext : string) (n : Z) :
  {matches st filename ext n} + {~ matches st filename ext n}.
Proof. unfold matches. apply Z.eq_dec. Qed.

(** Up to any bound, either no entry matches or there is a first one that
    does. *)
Lemma first_match_below st (filename ext : string) (bound : nat) :
  (forall j, 0 <= j < Z.of_nat bound -> ~ matches st filename ext j)
  \/ exists m, 0 <= m < Z.of_nat bound
               /\ matches st filename ext m
               /\ forall j, 0 <= j < m -> ~ matches st filename ext j.
Proof.
  induction bound as [|bound [IH|(m & Hm & Hmatch & Hfirst)]].
  - left. intros j Hj. lia.
  - destruct (matches_dec st filename ext (Z.of_nat bound)) as [Y|N].
    + right. exists (Z.of_nat bound). split; [lia|]. split; [exact Y|].
      intros j Hj. apply IH. lia.
    + left. intros j Hj.
      destruct (Z.eq_dec j (Z.of_nat bound)) as [->|Hne]; [exact N|].
      apply IH. lia.
  - right. exists m. split; [lia|]. split; assumption.
Qed.

Lemma readFile_scan_body_inv st (filename ext : string) s :
  scanning st filename ext s \/ found st filename ext s ->
  readFile_scan_cond st s = true ->
  scanning st filename ext (readFile_scan_body st filename ext s)
  \/ found st filename ext (readFile_scan_body st filename ext s).
Proof.
  intros Hinv Hcond. unfold readFile_scan_cond in Hcond.
  apply andb_true_iff in Hcond. destruct Hcond as [Hc Hn].
  apply Z.eqb_eq in Hc. apply Z.ltb_lt in Hn.
  unfold readFile_scan_body.
  destruct (Z.eqb_spec (readFile_nameMatch st filename ext (scan_n s)) 1)
    as [Y|N].
  - right. destruct Hinv as [(_ & Hpos & Hbefore)|((Hrange & _ & Hbefore) & _)];
      (repeat split; cbn [scan_n fileClusterStart fileLength];
       [lia|lia|exact Y|exact Hbefore]).
  - left. destruct Hinv as [(_ & Hpos & Hbefore)|((_ & Hmatch & _) & _)];
      [|contradiction].
    repeat split; cbn [scan_n fileClusterStart fileLength]; [exact Hc|lia|].
    intros j Hj. destruct (Z.eq_dec j (scan_n s)) as [->|Hne]; [exact N|].
    apply Hbefore. lia.
Qed.

(** When the scan ends, it has either passed every entry without a match
    or stopped on the first matching entry. *)
Lemma readFile_scan_result st (filename ext : string) (fuel : nat) s s' :
  readFile_scan fuel st filename ext s = Some s' ->
  scanning st filename ext s \/ found st filename ext s ->
  (scanning st filename ext s' \/ found st filename ext s')
  /\ readFile_scan_cond st s' = false.
Proof.
  revert s. induction fuel as [|fuel IH]; intros s Hrun Hinv.
  - discriminate Hrun.
  - cbn [readFile_scan] in Hrun.
    destruct (readFile_scan_cond st s) eqn:Hcond.
    + apply (IH _ Hrun). apply readFile_scan_body_inv; assumption.
    + injection Hrun as <-. split; assumption.
Qed.

Lemma readFile_scan_outcome st (filename ext : string) (fuel : nat) s' :
  readFile_scan fuel st filename ext scan0 = Some s' ->
  (fileClusterStart s' = 0
   /\ forall j, 0 <= j < root_dir_entries (sdCardFatBootSector st) ->
                ~ matches st filename ext j)
  \/ (fileClusterStart s' <> 0 /\ found st filename ext s').
Proof.
  intros Hrun.
  assert (H0 : scanning st filename ext scan0 \/ found st filename ext scan0).
  { left. repeat split; cbn; try lia. }
  destruct (readFile_scan_result _ _ _ _ _ _ Hrun H0) as [Hinv Hcond].
  unfold readFile_scan_cond in Hcond. apply andb_false_iff in Hcond.
  destruct Hinv as [(Hc & Hpos & Hbefore)|Hfound].
  - left. split; [exact Hc|]. intros j Hj. apply Hbefore.
    destruct Hcond as [H|H]; [apply Z.eqb_neq in H; contradiction|].
    apply Z.ltb_ge in H. lia.
  - destruct (Z.eq_dec (fileClusterStart s') 0) as [Hc|Hc].
    + exfalso. destruct Hfound as ((Hrange & _) & _).
      destruct Hcond as [H|H]; [apply Z.eqb_neq in H; contradiction|].
      apply Z.ltb_ge in H. lia.
    + right. split; assumption.
Qed.


(** *** When the scan ends *)

Lemma held_at_step st (filename ext : string) (m : Z) s :
  first_match st filename ext m ->
  entry_starting_cluster st m = 0 ->
  held_at st filename ext m s ->
  readFile_scan_cond st s = true
  /\ held_at st filename ext m (readFile_scan_body st filename ext s).
Proof.
  intros (Hrange & Hmatch & Hfirst) Hzero (Hc & Hn & Hbefore). split.
  - unfold readFile_scan_cond. apply andb_true_iff. split.
    + apply Z.eqb_eq. exact Hc.
    + apply Z.ltb_lt. lia.
  - unfold readFile_scan_body.
    destruct (Z.eqb_spec (readFile_nameMatch st filename ext (scan_n s)) 1)
      as [Y|N].
    + assert (scan_n s = m) as Hm.
      { destruct (Z.eq_dec (scan_n s) m) as [E|E]; [exact E|].
        exfalso. apply (Hfirst (scan_n s)); [lia|exact Y]. }
      unfold held_at. cbn [scan_n fileClusterStart].
      split; [rewrite Hm; exact Hzero|]. split; [lia|exact Hbefore].
    + assert (scan_n s <> m) by (intros E; rewrite E in N; contradiction).
      unfold held_at. cbn [scan_n fileClusterStart].
      split; [exact Hc|]. split; [lia|].
      intros j Hj. destruct (Z.eq_dec j (scan_n s)) as [->|Hne]; [exact N|].
      apply Hbefore. lia.
Qed.

Lemma held_at_scan0 st (filename ext : string) (m : Z) :
  first_match st filename ext m -> held_at st filename ext m scan0.
Proof.
  intros (Hrange & _). unfold held_at. cbn [scan0 scan_n fileClusterStart].
  split; [reflexivity|]. split; [lia|]. intros j Hj. lia.
Qed.

Lemma held_at_diverges st (filename ext : string) (m : Z) :
  first_match st filename ext m ->
  entry_starting_cluster st m = 0 ->
  forall (fuel : nat) s,
    held_at st filename ext m s ->
    readFile_scan fuel st filename ext s = None.
Proof.
  intros Hfirst Hzero. induction fuel as [|fuel IH]; intros s Hheld.
  - reflexivity.
  - cbn [readFile_scan].
    destruct (held_at_step _ _ _ _ _ Hfirst Hzero Hheld) as [-> Hnext].
    apply IH. exact Hnext.
Qed.

Lemma held_at_steps st (filename ext : string) (m : Z) :
  first_match st filename ext m ->
  entry_starting_cluster st m = 0 ->
  forall k : nat, held_at st filename ext m (readFile_scan_steps st filename ext k).
Proof.
  intros Hfirst Hzero. induction k as [|k IH].
  - apply held_at_scan0. exact Hfirst.
  - unfold readFile_scan_steps. cbn [Nat.iter].
    apply (held_at_step _ _ _ _ _ Hfirst Hzero IH).
Qed.

(** A first matching entry with starting cluster 0 keeps the call in the
    scan for ever. *)
Lemma readFile_never_returns st (filename ext : string) (m : Z) :
  first_match st filename ext m ->
  entry_starting_cluster st m = 0 ->
  forall (fuel : nat) (address : Z),
    spi_sdcard_readFile fuel filename ext address st = OutOfFuel.
Proof.
  intros Hfirst Hzero fuel address. unfold spi_sdcard_readFile.
  change {| fileClusterStart := 0; fileLength := 0; scan_n := 0 |} with scan0.
  rewrite (held_at_diverges _ _ _ _ Hfirst Hzero fuel scan0
             (held_at_scan0 _ _ _ _ Hfirst)).
  reflexivity.
Qed.

Lemma readFile_scan_no_match st (filename ext : string) (todo : nat) s :
  scanning st filename ext s ->
  Z.of_nat todo = Z.max 0 (root_dir_entries (sdCardFatBootSector st) - scan_n s) ->
  (forall j, scan_n s <= j < root_dir_entries (sdCardFatBootSector st) ->
             ~ matches st filename ext j) ->
  exists s', readFile_scan (S todo) st filename ext s = Some s'.
Proof.
  revert s. induction todo as [|todo IH]; intros s Hscan Htodo Hnone.
  - cbn [readFile_scan]. unfold readFile_scan_cond.
    replace (scan_n s <? root_dir_entries (sdCardFatBootSector st)) with false
      by (symmetry; apply Z.ltb_ge; lia).
    rewrite andb_false_r. eexists. reflexivity.
  - change (readFile_scan (S (S todo)) st filename ext s)
      with (if readFile_scan_cond st s
            then readFile_scan (S todo) st filename ext
                   (readFile_scan_body st filename ext s)
            else Some s).
    destruct (readFile_scan_cond st s) eqn:Hcond; [|eexists; reflexivity].
    assert (Hn : ~ matches st filename ext (scan_n s)) by (apply Hnone; lia).
    assert (Hbody : readFile_scan_body st filename ext s
                    = {| fileClusterStart := fileClusterStart s;
                         fileLength := fileLength s;
                         scan_n := scan_n s + 1 |}).
    { unfold readFile_scan_body.
      destruct (Z.eqb_spec (readFile_nameMatch st filename ext (scan_n s)) 1);
        [contradiction|reflexivity]. }
    rewrite Hbody. apply IH.
    + destruct Hscan as (Hc & Hpos & Hbefore).
      repeat split; cbn [scan_n fileClusterStart]; [exact Hc|lia|].
      intros j Hj. destruct (Z.eq_dec j (scan_n s)) as [->|Hne]; [exact Hn|].
      apply Hbefore. lia.
    + cbn [scan_n]. lia.
    + cbn [scan_n]. intros j Hj. apply Hnone. lia.
Qed.

Lemma readFile_scan_finds st (filename ext : string) (m : Z) (todo : nat) s :
  first_match st filename ext m ->
  entry_starting_cluster st m <> 0 ->
  scanning st filename ext s ->
  Z.of_nat todo = m - scan_n s ->
  exists s', readFile_scan (S (S todo)) st filename ext s = Some s'.
Proof.
  intros (Hrange & Hmatch & Hfirst) Hcluster.
  revert s. induction todo as [|todo IH]; intros s Hscan Htodo.
  - assert (Hm : scan_n s = m) by lia.
    destruct Hscan as (Hc & _).
    cbn [readFile_scan]. unfold readFile_scan_cond at 1.
    rewrite Hc, Hm.
    replace (m <? root_dir_entries (sdCardFatBootSector st)) with true
      by (symmetry; apply Z.ltb_lt; lia).
    cbn [Z.eqb andb]. unfold readFile_scan_body. rewrite Hm.
    unfold matches in Hmatch. rewrite Hmatch. cbn [Z.eqb Pos.eqb].
    unfold readFile_scan_cond. cbn [fileClusterStart].
    apply Z.eqb_neq in Hcluster. rewrite Hcluster. cbn [andb].
    eexists. reflexivity.
  - change (readFile_scan (S (S (S todo))) st filename ext s)
      with (if readFile_scan_cond st s
            then readFile_scan (S (S todo)) st filename ext
                   (readFile_scan_body st filename ext s)
            else Some s).
    destruct (readFile_scan_cond st s) eqn:Hcond; [|eexists; reflexivity].
    destruct Hscan as (Hc & Hpos & Hbefore).
    assert (Hn : ~ matches st filename ext (scan_n s)) by (apply Hfirst; lia).
    assert (Hbody : readFile_scan_body st filename ext s
                    = {| fileClusterStart := fileClusterStart s;
                         fileLength := fileLength s;
                         scan_n := scan_n s + 1 |}).
    { unfold readFile_scan_body.
      destruct (Z.eqb_spec (readFile_nameMatch st filename ext (scan_n s)) 1);
        [contradiction|reflexivity]. }
    rewrite Hbody. apply IH.
    + repeat split; cbn [scan_n fileClusterStart]; [exact Hc|lia|].
      intros j Hj. destruct (Z.eq_dec j (scan_n s)) as [->|Hne]; [exact Hn|].
      apply Hbefore. lia.
    + cbn [scan_n]. lia.
Qed.

Lemma scanning_scan0 st (filename ext : string) :
  scanning st filename ext scan0.
Proof.
  unfold scanning. cbn [scan0 scan_n fileClusterStart].
  split; [reflexivity|]. split; [lia|]. intros j Hj. lia.
Qed.

(** C5, amended.  If the first entry that matches the requested name and
    extension records starting cluster 0, every pass through the body of
    the scan leaves the loop condition true and the index at or below
    that entry, so the scan, and the call, never end.  The scan ends
    exactly when no entry matches or the first matching entry has a
    nonzero starting cluster, and then it has found nothing or stands on
    the first match. *)
Theorem readFile_scan_termination st (filename ext : string) :
  (forall m,
     first_match st filename ext m ->
     entry_starting_cluster st m = 0 ->
     (forall k : nat,
        readFile_scan_cond st (readFile_scan_steps st filename ext k) = true
        /\ scan_n (readFile_scan_steps st filename ext k) <= m)
     /\ (forall fuel : nat, readFile_scan fuel st filename ext scan0 = None)
     /\ (forall (fuel : nat) (address : Z),
           spi_sdcard_readFile fuel filename ext address st = OutOfFuel))
  /\ ((exists (fuel : nat) s,
         readFile_scan fuel st filename ext scan0 = Some s) <->
      (forall j, 0 <= j < root_dir_entries (sdCardFatBootSector st) ->
                 ~ matches st filename ext j)
      \/ (exists m, first_match st filename ext m
                    /\ entry_starting_cluster st m <> 0))
  /\ (forall (fuel : nat) s,
        readFile_scan fuel st filename ext scan0 = Some s ->
        (fileClusterStart s = 0
         /\ forall j, 0 <= j < root_dir_entries (sdCardFatBootSector st) ->
                      ~ matches st filename ext j)
        \/ (fileClusterStart s <> 0 /\ found st filename ext s)).
Proof.
  split; [|split].
  - intros m Hfirst Hzero. split; [|split].
    + intros k.
      destruct (held_at_step _ _ _ _ _ Hfirst Hzero
                  (held_at_steps _ _ _ _ Hfirst Hzero k)) as [Hcond _].
      split; [exact Hcond|].
      destruct (held_at_steps _ _ _ _ Hfirst Hzero k) as (_ & Hn & _). lia.
    + intros fuel.
      apply (held_at_diverges _ _ _ _ Hfirst Hzero fuel scan0
               (held_at_scan0 _ _ _ _ Hfirst)).
    + apply (readFile_never_returns _ _ _ _ Hfirst Hzero).
  - split.
    + intros (fuel & s & Hrun).
      destruct (first_match_below st filename ext
                  (Z.to_nat (root_dir_entries (sdCardFatBootSector st))))
        as [Hnone|(m & Hm & Hmatch & Hbefore)].
      * left. intros j Hj. apply Hnone. lia.
      * assert (Hfirst : first_match st filename ext m).
        { split; [lia|]. split; assumption. }
        right. exists m. split; [exact Hfirst|]. intros Hzero.
        rewrite (held_at_diverges _ _ _ _ Hfirst Hzero fuel scan0
                   (held_at_scan0 _ _ _ _ Hfirst)) in Hrun.
        discriminate Hrun.
    + intros [Hnone|(m & Hfirst & Hcluster)].
      * destruct (readFile_scan_no_match st filename ext
                    (Z.to_nat (root_dir_entries (sdCardFatBootSector st)))
                    scan0 (scanning_scan0 _ _ _)) as (s' & Hrun).
        -- cbn [scan_n scan0]. lia.
        -- cbn [scan_n scan0]. exact Hnone.
        -- eexists. exists s'. exact Hrun.
      * destruct (readFile_scan_finds st filename ext m (Z.to_nat m) scan0
                    Hfirst Hcluster (scanning_scan0 _ _ _)) as (s' & Hrun).
        -- destruct Hfirst as (Hrange & _). cbn [scan_n scan0]. lia.
        -- eexists. exists s'. exact Hrun.
  - intros fuel s Hrun. apply (readFile_scan_outcome _ _ _ _ _ Hrun).
Qed.

(** A matching first entry of size zero whose starting cluster is not 0
    ends the call at once, with nothing read. *)
Lemma readFile_zero_length st (filename ext : string) (fuel : nat)
  (address : Z) s :
  readFile_scan fuel st filename ext scan0 = Some s ->
  fileClusterStart s <> 0 ->
  fileLength s = 0 ->
  spi_sdcard_readFile fuel filename ext address st = Done SUCCESS st.
Proof.
  intros Hrun Hc Hlen. unfold spi_sdcard_readFile.
  change {| fileClusterStart := 0; fileLength := 0; scan_n := 0 |} with scan0.
  rewrite Hrun. apply Z.eqb_neq in Hc. rewrite Hc, Hlen. reflexivity.
Qed.

End DirectoryScan.

Section Loader.

Context {C : Type} {Card : SpiCard C} {board : Board}.

Implicit Types (st : state (C := C)).

Lemma globals_after_read (sec p : Z) d res st :
  globals (after_read sec p d res st) = globals st.
Proof. reflexivity. Qed.

Lemma history_after_read (sec p : Z) d res st :
  history (after_read sec p d res st)
  = history st ++ [{| rd_sector := sec; rd_storage := p; rd_data := res |}].
Proof. reflexivity. Qed.

(** *** Loads give values of their width *)

Lemma load8_range (m : memory) (a : Z) : 0 <= load8 m a < 2 ^ 8.
Proof. unfold load8, wrap8. apply Z.mod_pos_bound. lia. Qed.

Lemma load16_range (m : memory) (a : Z) : 0 <= load16 m a < 2 ^ 16.
Proof.
  unfold load16.
  pose proof (load8_range m a). pose proof (load8_range m (a + 1)). lia.
Qed.

Lemma load32_range (m : memory) (a : Z) : 0 <= load32 m a < 2 ^ 32.
Proof.
  unfold load32.
  pose proof (load8_range m a). pose proof (load8_range m (a + 1)).
  pose proof (load8_range m (a + 2)). pose proof (load8_range m (a + 3)).
  lia.
Qed.

(** *** The sector loops of [spi_sdcard_readMBR] *)

Lemma readMBR_sectors_spec (todo start : nat) (first buffer : Z) st r st' :
  readMBR_sectors todo (Z.of_nat start) first buffer st = (r, st') ->
  globals st' = globals st
  /\ exists new,
       history st' = history st ++ new
       /\ (r = FAILURE \/
           r = SUCCESS
           /\ map rd_key new
              = map (fun i =>
                       (wrap32 (first + Z.of_nat i),
                        wrap32 (buffer
                                + sector_size (sdCardFatBootSector st)
                                  * Z.of_nat i)))
                    (seq start todo)).
Proof.
  revert start st. induction todo as [|todo IH]; intros start st Hrun.
  - cbn [readMBR_sectors] in Hrun. unfold ret in Hrun.
    injection Hrun as <- <-. split; [reflexivity|].
    exists []. rewrite app_nil_r. split; [reflexivity|].
    right. split; reflexivity.
  - cbn [readMBR_sectors] in Hrun.
    destruct (readSector_effect (wrap32 (first + Z.of_nat start))
                (wrap32 (buffer + sector_size (sdCardFatBootSector st)
                                  * Z.of_nat start)) st)
      as (d & res & Heff & _).
    rewrite Heff in Hrun. destruct res as [data|].
    + change (SUCCESS =? FAILURE) with false in Hrun. cbv iota in Hrun.
      replace (Z.of_nat start + 1) with (Z.of_nat (S start)) in Hrun by lia.
      apply IH in Hrun. destruct Hrun as (Hg & new & Hhist & Hres).
      split; [rewrite Hg; reflexivity|].
      eexists. split.
      * rewrite Hhist, history_after_read, <- app_assoc. reflexivity.
      * destruct Hres as [Hf|[Hs Hkeys]]; [left; exact Hf|right].
        split; [exact Hs|]. cbn [app map seq rd_key rd_sector rd_storage].
        f_equal. exact Hkeys.
    + change (FAILURE =? FAILURE) with true in Hrun. cbv iota in Hrun.
      injection Hrun as <- <-. split; [reflexivity|].
      eexists. split; [apply history_after_read|]. left. reflexivity.
Qed.

Lemma readMBR_rootDir_spec st st' :
  readMBR_rootDir st = Done SUCCESS st' ->
  let b := sdCardFatBootSector st in
  sdCardPartition st' = sdCardPartition st
  /\ sdCardFatBootSector st' = b
  /\ sdCardFatTable st' = sdCardFatTable st
  /\ fatSectorStart st' = fatSectorStart st
  /\ sdCardFat16RootDir st'
     = wrap32 (MAIN_RAM_BASE + MAIN_RAM_SIZE
               - sector_size b * fat_size_sectors b
               - root_dir_entries b * sizeof_Fat16Entry)
  /\ rootDirSectorStart st'
     = wrap32 (start_sector (sdCardPartition st) + reserved_sectors b
               + number_of_fats b * fat_size_sectors b)
  /\ sector_size b <> 0
  /\ exists new,
       history st' = history st ++ new
       /\ map rd_key new
          = sector_run (rootDirSectorStart st') (sdCardFat16RootDir st')
              (sector_size b) (Z.to_nat (rootDirSectors b)).
Proof.
  intros Hrun b. unfold readMBR_rootDir in Hrun. fold b in Hrun.
  destruct (Z.eqb_spec (sector_size b) 0) as [E|E]; [discriminate Hrun|].
  destruct (readMBR_sectors _ _ _ _ _) as [r st3] eqn:Hloop.
  apply (readMBR_sectors_spec _ 0) in Hloop.
  destruct Hloop as (Hg & new & Hhist & Hres).
  destruct (r =? FAILURE) eqn:Er; [discriminate Hrun|].
  injection Hrun as <-.
  destruct Hres as [Hf|[_ Hkeys]];
    [rewrite Hf in Er; discriminate Er|].
  unfold globals in Hg.
  cbn [sdCardPartition sdCardFatBootSector sdCardFat16RootDir sdCardFatTable
       fatSectorStart rootDirSectorStart set_rootDirSectorStart
       set_sdCardFat16RootDir history] in Hg, Hhist, Hkeys.
  injection Hg as -> -> -> -> -> ->.
  repeat (split; [reflexivity|]). split; [exact E|].
  exists new. split; [exact Hhist|exact Hkeys].
Qed.

Lemma readMBR_fatTable_spec st st' :
  readMBR_fatTable st = Done SUCCESS st' ->
  let b := sdCardFatBootSector st in
  sdCardPartition st' = sdCardPartition st
  /\ sdCardFatBootSector st' = b
  /\ sdCardFatTable st'
     = wrap32 (MAIN_RAM_BASE + MAIN_RAM_SIZE
               - sector_size b * fat_size_sectors b)
  /\ fatSectorStart st'
     = wrap32 (start_sector (sdCardPartition st) + reserved_sectors b)
  /\ sdCardFat16RootDir st'
     = wrap32 (MAIN_RAM_BASE + MAIN_RAM_SIZE
               - sector_size b * fat_size_sectors b
               - root_dir_entries b * sizeof_Fat16Entry)
  /\ rootDirSectorStart st'
     = wrap32 (start_sector (sdCardPartition st) + reserved_sectors b
               + number_of_fats b * fat_size_sectors b)
  /\ sector_size b <> 0
  /\ exists fat_reads dir_reads,
       history st' = history st ++ fat_reads ++ dir_reads
       /\ map rd_key fat_reads
          = sector_run (fatSectorStart st') (sdCardFatTable st')
              (sector_size b) (Z.to_nat (fat_size_sectors b))
       /\ map rd_key dir_reads
          = sector_run (rootDirSectorStart st') (sdCardFat16RootDir st')
              (sector_size b) (Z.to_nat (rootDirSectors b)).
Proof.
  intros Hrun b. unfold readMBR_fatTable in Hrun. fold b in Hrun.
  destruct (readMBR_sectors _ _ _ _ _) as [r st3] eqn:Hloop.
  apply (readMBR_sectors_spec _ 0) in Hloop.
  destruct Hloop as (Hg & fat_reads & Hhist & Hres).
  destruct (r =? FAILURE) eqn:Er; [discriminate Hrun|].
  destruct Hres as [Hf|[_ Hkeys]];
    [rewrite Hf in Er; discriminate Er|].
  apply readMBR_rootDir_spec in Hrun.
  unfold globals in Hg.
  cbn [sdCardPartition sdCardFatBootSector sdCardFat16RootDir sdCardFatTable
       fatSectorStart rootDirSectorStart set_fatSectorStart
       set_sdCardFatTable history] in Hg, Hhist, Hkeys.
  injection Hg as Hg1 Hg2 Hg3 Hg4 Hg5 Hg6.
  rewrite Hg1, Hg2, Hg4, Hg5 in Hrun. fold b in Hrun.
  destruct Hrun
    as (Hp & Hb & Hfat & Hfs & Hdir & Hrds & Hss & dir_reads & Hh & Hk).
  repeat (split; [assumption|]).
  exists fat_reads, dir_reads. rewrite Hh, Hhist, <- app_assoc.
  split; [reflexivity|]. split; [|exact Hk].
  rewrite Hfat, Hfs. exact Hkeys.
Qed.

(** C6.  Once sector 0 has been read, [spi_sdcard_readMBR] goes on past
    the validation of the partition entry exactly when the status byte is
    [0x00] or [0x80] and the type is 4, 6 or 14, and what it does next is
    the read of the boot sector.  For any other status byte or type the
    call returns [FAILURE] in the state the read of sector 0 left, with the
    entry copied: no further sector has been asked for. *)
Theorem readMBR_partition_check st :
  fst (readSector 0 sdCardSector st) = SUCCESS ->
  let st1 := snd (readSector 0 sdCardSector st) in
  let p := read_PartitionTable (ram st1) (sdCardSector + 0x1be) in
  (fst (readMBR_partition st) = inr tt <-> valid_partition p)
  /\ (valid_partition p ->
      spi_sdcard_readMBR st
      = readMBR_bootSector (set_sdCardPartition p st1))
  /\ (~ valid_partition p ->
      spi_sdcard_readMBR st = Done FAILURE (set_sdCardPartition p st1)
      /\ exists res,
           history (set_sdCardPartition p st1)
           = history st ++ [{| rd_sector := 0; rd_storage := sdCardSector;
                               rd_data := res |}]).
Proof.
  intros Hread st1 p.
  assert (Hhist : exists res,
             history (set_sdCardPartition p st1)
             = history st ++ [{| rd_sector := 0; rd_storage := sdCardSector;
                                 rd_data := res |}]).
  { destruct (readSector_effect 0 sdCardSector st) as (d & res & Hrun & _).
    exists res. unfold st1. rewrite Hrun. reflexivity. }
  assert (Hpart : readMBR_partition st
                  = (if negb (first_byte p =? 0x80)
                        && negb (first_byte p =? 0x00)
                     then inl FAILURE
                     else if (partition_type p =? 4)
                             || (partition_type p =? 6)
                             || (partition_type p =? 14)
                     then inr tt
                     else inl FAILURE,
                     set_sdCardPartition p st1)).
  { unfold readMBR_partition, p, st1.
    destruct (readSector 0 sdCardSector st) as [r st1'].
    cbn [fst snd] in Hread |- *. rewrite Hread. cbn [sdCardPartition set_sdCardPartition].
    change (SUCCESS =? SUCCESS) with true. cbv iota.
    destruct (negb _ && negb _); [reflexivity|].
    destruct (_ || _); reflexivity. }
  unfold spi_sdcard_readMBR. rewrite Hpart. unfold valid_partition.
  destruct (Z.eqb_spec (first_byte p) 0x80) as [E80|E80];
    destruct (Z.eqb_spec (first_byte p) 0x00) as [E00|E00];
    destruct (Z.eqb_spec (partition_type p) 4) as [E4|E4];
    destruct (Z.eqb_spec (partition_type p) 6) as [E6|E6];
    destruct (Z.eqb_spec (partition_type p) 14) as [E14|E14];
    cbn [negb andb orb fst];
    (split; [split; [intros H; try discriminate H; tauto
                    |intros H; try reflexivity; exfalso; tauto]
            |split; [intros H; try reflexivity; exfalso; tauto
                    |intros H;
                     first [exfalso; tauto
                           |split; [reflexivity|exact Hhist]]]]).
Qed.

Lemma readMBR_partition_spec st u st2 :
  readMBR_partition st = (inr u, st2) ->
  exists d res,
    st2 = set_sdCardPartition
            (read_PartitionTable
               (ram (after_read 0 sdCardSector d res st))
               (sdCardSector + 0x1be))
            (after_read 0 sdCardSector d res st).
Proof.
  unfold readMBR_partition. intros Hrun.
  destruct (readSector_effect 0 sdCardSector st) as (d & res & Heff & _).
  rewrite Heff in Hrun. exists d, res.
  destruct (_ =? SUCCESS); [|discriminate Hrun].
  destruct (negb _ && negb _); [discriminate Hrun|].
  destruct (_ || _); [|discriminate Hrun].
  injection Hrun as _ <-. reflexivity.
Qed.

Lemma readMBR_bootSector_spec st st' :
  readMBR_bootSector st = Done SUCCESS st' ->
  exists d res,
    readMBR_fatTable
      (set_sdCardFatBootSector
         (read_Fat16BootSector
            (ram (after_read (start_sector (sdCardPartition st))
                    sdCardSector d res st))
            sdCardSector)
         (after_read (start_sector (sdCardPartition st)) sdCardSector d res
            st))
    = Done SUCCESS st'.
Proof.
  unfold readMBR_bootSector. intros Hrun.
  destruct (readSector_effect (start_sector (sdCardPartition st))
              sdCardSector st) as (d & res & Heff & _).
  rewrite Heff in Hrun. exists d, res.
  destruct (_ =? SUCCESS); [|discriminate Hrun].
  destruct (_ =? 0); [discriminate Hrun|]. exact Hrun.
Qed.

(** The reads of the root directory as the loop at line 466 makes them.
    When [spi_sdcard_readMBR] succeeds, the root directory was read
    starting at sector (partition start + reserved sectors + number of
    tables x table size in sectors); the loop bound is the integer
    quotient [rootEntryCount * 32 / sectorSize], so that many
    consecutive sectors were read, one after the other, into a buffer
    that ends where the allocation-table buffer begins; they are the last
    reads of the call, after sector 0, the boot sector and the allocation
    table.  A last sector that the directory fills in part is not among
    them. *)
Lemma readMBR_loads_root_directory st st' :
  spi_sdcard_readMBR st = Done SUCCESS st' ->
  let b := sdCardFatBootSector st' in
  let p := sdCardPartition st' in
  let count := root_dir_entries b * sizeof_Fat16Entry / sector_size b in
  rootDirSectorStart st'
  = wrap32 (start_sector p + reserved_sectors b
            + number_of_fats b * fat_size_sectors b)
  /\ sdCardFat16RootDir st'
     = wrap32 (MAIN_RAM_BASE + MAIN_RAM_SIZE
               - sector_size b * fat_size_sectors b
               - root_dir_entries b * sizeof_Fat16Entry)
  /\ wrap32 (sdCardFat16RootDir st' + root_dir_entries b * sizeof_Fat16Entry)
     = sdCardFatTable st'
  /\ sector_size b * count <= root_dir_entries b * sizeof_Fat16Entry
     < sector_size b * count + sector_size b
  /\ exists before dir_reads,
       history st' = history st ++ before ++ dir_reads
       /\ map rd_key before
          = [(0, sdCardSector); (start_sector p, sdCardSector)]
            ++ sector_run (fatSectorStart st') (sdCardFatTable st')
                 (sector_size b) (Z.to_nat (fat_size_sectors b))
       /\ map rd_key dir_reads
          = sector_run (rootDirSectorStart st') (sdCardFat16RootDir st')
              (sector_size b) (Z.to_nat count).
Proof.
  intros Hrun. unfold spi_sdcard_readMBR in Hrun.
  destruct (readMBR_partition st) as [[r|u] st2] eqn:Hpart.
  - exfalso. injection Hrun as -> _. revert Hpart.
    unfold readMBR_partition.
    destruct (readSector _ _ _) as [r1 st1].
    destruct (_ =? SUCCESS); [|intros H; discriminate H].
    destruct (negb _ && negb _); [intros H; discriminate H|].
    destruct (_ || _); intros H; discriminate H.
  - apply readMBR_partition_spec in Hpart.
    destruct Hpart as (d0 & res0 & ->).
    apply readMBR_bootSector_spec in Hrun.
    destruct Hrun as (d1 & res1 & Hrun).
    apply readMBR_fatTable_spec in Hrun.
    cbn [sdCardPartition sdCardFatBootSector set_sdCardFatBootSector
         set_sdCardPartition after_read set_history set_ram set_dev history]
      in Hrun.
    destruct Hrun as (Hp & Hb & Hfat & Hfs & Hdir & Hrds & Hss
                      & fat_reads & dir_reads & Hh & Hkf & Hkd).
    cbv zeta. rewrite Hp, Hb.
    match type of Hb with
    | _ = read_Fat16BootSector ?m ?a =>
        set (b := read_Fat16BootSector m a) in *
    end.
    assert (Hssr : 0 < sector_size b).
    { pose proof (load16_range
                    (match res1 with
                     | Some data =>
                         store_bytes
                           (match res0 with
                            | Some data0 =>
                                store_bytes (ram st) sdCardSector data0
                            | None => ram st
                            end) sdCardSector data
                     | None =>
                         match res0 with
                         | Some data0 =>
                             store_bytes (ram st) sdCardSector data0
                         | None => ram st
                         end
                     end) (sdCardSector + 11)) as Hr.
      change (0 <= sector_size b < 2 ^ 16) in Hr. lia. }
    split; [exact Hrds|]. split; [exact Hdir|]. split.
    { rewrite Hdir, Hfat. unfold wrap32.
      rewrite Zplus_mod_idemp_l. f_equal. ring. }
    split.
    { pose proof (Z.mul_div_le (root_dir_entries b * sizeof_Fat16Entry)
                    (sector_size b) Hssr).
      pose proof (Z.mul_succ_div_gt (root_dir_entries b * sizeof_Fat16Entry)
                    (sector_size b) Hssr).
      lia. }
    eexists (_ :: _ :: fat_reads), dir_reads. split.
    { rewrite Hh, <- !app_assoc. cbn [app]. reflexivity. }
    split; [|exact Hkd].
    cbn [map app rd_key rd_sector rd_storage]. rewrite Hkf. reflexivity.
Qed.

End Loader.

Section ClusterChain.

Context {C : Type} {Card : SpiCard C} {board : Board}.

Implicit Types (st : state (C := C)).

(** *** Memory *)

Lemma wrap32_small (a : Z) : 0 <= a < 2 ^ 32 -> wrap32 a = a.
Proof. intros H. unfold wrap32. apply Z.mod_small. exact H. Qed.

Lemma store_bytes_outside (l : list Z) (m : memory) (p a : Z) :
  0 <= p -> p + Z.of_nat (List.length l) <= 2 ^ 32 ->
  ~ (p <= a < p + Z.of_nat (List.length l)) ->
  store_bytes m p l a = m a.
Proof.
  revert m p. induction l as [|b l IH]; intros m p Hp Hend Hout.
  - reflexivity.
  - cbn [store_bytes]. cbn [List.length] in Hend, Hout.
    rewrite IH by lia. unfold store8.
    rewrite wrap32_small by lia.
    destruct (Z.eqb_spec a p) as [E|E]; [lia|reflexivity].
Qed.

Lemma store_bytes_inside (l : list Z) (m : memory) (p i : Z) :
  0 <= p -> p + Z.of_nat (List.length l) <= 2 ^ 32 ->
  0 <= i < Z.of_nat (List.length l) ->
  store_bytes m p l (p + i) = wrap8 (nth (Z.to_nat i) l 0).
Proof.
  revert m p i. induction l as [|b l IH]; intros m p i Hp Hend Hi.
  - cbn [List.length] in Hi. lia.
  - cbn [store_bytes]. cbn [List.length] in Hend, Hi.
    destruct (Z.eq_dec i 0) as [->|Hne].
    + rewrite store_bytes_outside by lia. unfold store8.
      rewrite wrap32_small, Z.add_0_r, Z.eqb_refl by lia. reflexivity.
    + replace (p + i) with (p + 1 + (i - 1)) by ring.
      rewrite IH by lia.
      replace (Z.to_nat i) with (S (Z.to_nat (i - 1))) by lia.
      reflexivity.
Qed.

Lemma load_bytes_length (m : memory) (a : Z) (n : nat) :
  List.length (load_bytes m a n) = n.
Proof.
  revert a. induction n as [|n IH]; intros a; [reflexivity|].
  cbn [load_bytes List.length]. rewrite IH. reflexivity.
Qed.

Lemma load_bytes_nth (m : memory) (a : Z) (n k : nat) :
  (k < n)%nat -> nth k (load_bytes m a n) 0 = load8 m (a + Z.of_nat k).
Proof.
  revert a k. induction n as [|n IH]; intros a k Hk; [lia|].
  cbn [load_bytes]. destruct k as [|k].
  - cbn [nth]. rewrite Z.add_0_r. reflexivity.
  - cbn [nth]. rewrite IH by lia. f_equal. lia.
Qed.

(** *** The sectors asked for *)

Lemma globals_fields st st0 :
  globals st = globals st0 ->
  sdCardFatBootSector st = sdCardFatBootSector st0
  /\ sdCardFatTable st = sdCardFatTable st0
  /\ rootDirSectorStart st = rootDirSectorStart st0.
Proof.
  unfold globals. intros H. injection H as _ H2 _ H4 _ H6.
  repeat split; assumption.
Qed.

Lemma readFile_sectors_walk st0 (A L : Z) (todo start : nat)
  (css br addr : Z) st (br' addr' : Z) st' :
  0 < sector_size (sdCardFatBootSector st0) ->
  0 <= A -> A + L + 512 <= 2 ^ 32 ->
  0 <= sdCardSector -> sdCardSector + 512 <= 2 ^ 32 ->
  walk_inv st0 A L st br addr ->
  readFile_sectors todo (Z.of_nat start) css br addr st
  = (Some (br', addr'), st') ->
  walk_inv st0 A L st' br' addr'
  /\ exists new,
       history st' = history st ++ new
       /\ map rd_sector new
          = map (fun j => wrap32 (css + Z.of_nat j)) (seq start todo).
Proof.
  intros Hss HA HAend Hsc Hscend.
  revert start br addr st.
  induction todo as [|todo IH]; intros start br addr st Hinv Hrun.
  - cbn [readFile_sectors] in Hrun. injection Hrun as <- <- <-.
    split; [exact Hinv|]. exists []. rewrite app_nil_r. split; reflexivity.
  - cbn [readFile_sectors] in Hrun.
    destruct Hinv as (Hg & Hframe & Hbr & Haddr & Hfit).
    destruct (globals_fields _ _ Hg) as (Hb & _ & _).
    rewrite Hb in Hrun.
    destruct (br >? sector_size (sdCardFatBootSector st0)) eqn:Hcmp.
    + apply Z.gtb_lt in Hcmp.
      destruct (readSector_effect (wrap32 (css + Z.of_nat start)) addr st)
        as (d & res & Heff & Hdata).
      rewrite Heff in Hrun. destruct res as [data|];
        [|change (FAILURE =? FAILURE) with true in Hrun; discriminate Hrun].
      change (SUCCESS =? FAILURE) with false in Hrun. cbv iota in Hrun.
      destruct (Hdata data eq_refl) as [Hlen _].
      replace (Z.of_nat start + 1) with (Z.of_nat (S start)) in Hrun by lia.
      rewrite (wrap32_small (addr + _)) in Hrun by lia.
      apply IH in Hrun.
      * destruct Hrun as (Hinv' & new & Hhist & Hsecs).
        split; [exact Hinv'|]. eexists. split.
        -- rewrite Hhist, history_after_read, <- app_assoc. reflexivity.
        -- cbn [app map seq rd_sector]. f_equal. exact Hsecs.
      * split; [exact Hg|]. split; [|lia].
        intros a Ha Hs. cbn [ram after_read set_history set_ram].
        rewrite store_bytes_outside by (rewrite ?Hlen; lia).
        apply Hframe; assumption.
    + rewrite Z.gtb_ltb in Hcmp. apply Z.ltb_ge in Hcmp.
      destruct (readSector_effect (wrap32 (css + Z.of_nat start))
                  sdCardSector st) as (d & res & Heff & Hdata).
      rewrite Heff in Hrun. destruct res as [data|];
        [|change (FAILURE =? FAILURE) with true in Hrun; discriminate Hrun].
      change (SUCCESS =? FAILURE) with false in Hrun. cbv iota in Hrun.
      destruct (Hdata data eq_refl) as [Hlen _].
      replace (Z.of_nat start + 1) with (Z.of_nat (S start)) in Hrun by lia.
      apply IH in Hrun.
      * destruct Hrun as (Hinv' & new & Hhist & Hsecs).
        split; [exact Hinv'|]. eexists. split.
        -- rewrite Hhist. cbn [history set_ram].
           rewrite history_after_read, <- app_assoc. reflexivity.
        -- cbn [app map seq rd_sector]. f_equal. exact Hsecs.
      * split; [exact Hg|]. split; [|lia].
        intros a Ha Hs. cbn [ram after_read set_history set_ram].
        unfold memcpy.
        rewrite store_bytes_outside
          by (rewrite ?load_bytes_length; lia).
        rewrite store_bytes_outside by (rewrite ?Hlen; lia).
        apply Hframe; assumption.
Qed.

Lemma fatEntry_stable st0 (A L : Z) st (br addr c : Z) :
  walk_inv st0 A L st br addr ->
  0 <= sdCardFatTable st0 -> sdCardFatTable st0 + 2 ^ 17 <= 2 ^ 32 ->
  A + L + 512 <= sdCardFatTable st0 \/ sdCardFatTable st0 + 2 ^ 17 <= A ->
  sdCardSector + 512 <= sdCardFatTable st0
  \/ sdCardFatTable st0 + 2 ^ 17 <= sdCardSector ->
  0 <= c < 2 ^ 16 ->
  fatEntry st c = fatEntry st0 c.
Proof.
  intros (Hg & Hframe & _) Hfat Hfatend HdA Hds Hc.
  destruct (globals_fields _ _ Hg) as (_ & Hf & _).
  unfold fatEntry, load16, load8. rewrite Hf.
  rewrite !wrap32_small by lia.
  rewrite !Hframe by lia. reflexivity.
Qed.

Lemma readFile_clusters_walk st0 (A L : Z) (todo : nat)
  (c br addr : Z) st st' :
  0 < sector_size (sdCardFatBootSector st0) ->
  0 <= A -> A + L + 512 <= 2 ^ 32 ->
  0 <= sdCardSector -> sdCardSector + 512 <= 2 ^ 32 ->
  0 <= sdCardFatTable st0 -> sdCardFatTable st0 + 2 ^ 17 <= 2 ^ 32 ->
  A + L + 512 <= sdCardFatTable st0 \/ sdCardFatTable st0 + 2 ^ 17 <= A ->
  sdCardSector + 512 <= sdCardFatTable st0
  \/ sdCardFatTable st0 + 2 ^ 17 <= sdCardSector ->
  0 <= c < 2 ^ 16 ->
  walk_inv st0 A L st br addr ->
  readFile_clusters todo c br addr st = (SUCCESS, st') ->
  exists new,
    history st' = history st ++ new
    /\ map rd_sector new
       = flat_map (cluster_sectors st0) (cluster_chain st0 todo c).
Proof.
  intros Hss HA HAend Hsc Hscend Hfat Hfatend HdA Hds.
  revert c br addr st.
  induction todo as [|todo IH]; intros c br addr st Hc Hinv Hrun.
  - cbn [readFile_clusters] in Hrun. injection Hrun as <-.
    exists []. rewrite app_nil_r. split; reflexivity.
  - cbn [readFile_clusters] in Hrun.
    destruct (readFile_sectors _ _ _ _ _ _) as [[[br1 addr1]|] st1] eqn:Hsec;
      [|discriminate Hrun].
    assert (Hcs : clusterSector st c = clusterSector st0 c).
    { destruct Hinv as (Hg & _).
      destruct (globals_fields _ _ Hg) as (Hb & _ & Hr).
      unfold clusterSector. rewrite Hb, Hr. reflexivity. }
    assert (Hspc : sectors_per_cluster (sdCardFatBootSector st)
                   = sectors_per_cluster (sdCardFatBootSector st0)).
    { destruct Hinv as (Hg & _).
      destruct (globals_fields _ _ Hg) as (Hb & _ & _).
      rewrite Hb. reflexivity. }
    rewrite Hcs, Hspc in Hsec.
    apply (readFile_sectors_walk st0 A L _ 0) in Hsec; try assumption.
    destruct Hsec as (Hinv1 & new1 & Hhist1 & Hsecs1).
    rewrite (fatEntry_stable st0 A L st1 br1 addr1 c) in Hrun
      by assumption.
    apply IH in Hrun;
      [|pose proof (load16_range (ram st0) (sdCardFatTable st0 + 2 * c));
        unfold fatEntry; lia
       |exact Hinv1].
    destruct Hrun as (new2 & Hhist2 & Hsecs2).
    exists (new1 ++ new2). split.
    + rewrite Hhist2, Hhist1, <- app_assoc. reflexivity.
    + rewrite map_app, Hsecs1, Hsecs2. reflexivity.
Qed.

Lemma cluster_chain_length st (n : nat) (c : Z) :
  List.length (cluster_chain st n c) = n.
Proof.
  revert c. induction n as [|n IH]; intros c; [reflexivity|].
  cbn [cluster_chain List.length]. rewrite IH. reflexivity.
Qed.

Lemma walk_inv_start st (A L : Z) :
  0 <= L -> walk_inv st A L st L A.
Proof.
  intros HL. split; [reflexivity|]. split; [intros; reflexivity|]. lia.
Qed.

(** C2.  A successful load of a file of nonzero size [L] visits exactly
    [1 + floor ((L / sectorsPerCluster) / sectorSize)] clusters: the
    starting cluster and then, each time, the table entry indexed by the
    cluster just read, whatever that entry is.  Of every visited cluster
    it asks for the [sectorsPerCluster] sectors that start at
    [rootDirSectorStart + (cluster - 1) * sectorsPerCluster], and for no
    other sector.  The count is assumed not to wrap at 32 bits, and the
    destination (with one sector of slack) and the sector buffer not to
    overlap the allocation table. *)
Theorem readFile_cluster_walk st (fuel : nat) (filename ext : string)
  (address : Z) s st' :
  readFile_scan fuel st filename ext scan0 = Some s ->
  fileLength s <> 0 ->
  spi_sdcard_readFile fuel filename ext address st = Done SUCCESS st' ->
  boot_fields_in_range (sdCardFatBootSector st) ->
  1 + fileLength s / sectors_per_cluster (sdCardFatBootSector st)
      / sector_size (sdCardFatBootSector st) < 2 ^ 32 ->
  0 <= address -> address + fileLength s + 512 <= 2 ^ 32 ->
  0 <= sdCardSector -> sdCardSector + 512 <= 2 ^ 32 ->
  0 <= sdCardFatTable st -> sdCardFatTable st + 2 ^ 17 <= 2 ^ 32 ->
  address + fileLength s + 512 <= sdCardFatTable st
  \/ sdCardFatTable st + 2 ^ 17 <= address ->
  sdCardSector + 512 <= sdCardFatTable st
  \/ sdCardFatTable st + 2 ^ 17 <= sdCardSector ->
  let visited :=
    cluster_chain st
      (Z.to_nat (1 + fileLength s
                     / sectors_per_cluster (sdCardFatBootSector st)
                     / sector_size (sdCardFatBootSector st)))
      (fileClusterStart s) in
  Z.of_nat (List.length visited)
  = 1 + fileLength s / sectors_per_cluster (sdCardFatBootSector st)
        / sector_size (sdCardFatBootSector st)
  /\ (forall c,
        cluster_sectors st c
        = map (fun j =>
                 wrap32 (wrap32 (rootDirSectorStart st
                                 + (c - 1)
                                   * sectors_per_cluster
                                       (sdCardFatBootSector st))
                         + Z.of_nat j))
              (seq 0 (Z.to_nat (sectors_per_cluster
                                  (sdCardFatBootSector st)))))
  /\ exists new,
       history st' = history st ++ new
       /\ map rd_sector new = flat_map (cluster_sectors st) visited.
Proof.
  intros Hscan HL Hrun [Hssr Hspcr] Hcount HA HAend Hsc Hscend Hfat Hfatend
         HdA Hds visited.
  unfold spi_sdcard_readFile in Hrun.
  change {| fileClusterStart := 0; fileLength := 0; scan_n := 0 |}
    with scan0 in Hrun.
  rewrite Hscan in Hrun.
  destruct (readFile_scan_outcome _ _ _ _ _ Hscan) as [[Hz _]|[Hnz Hfound]].
  { rewrite Hz in Hrun. cbn [Z.eqb] in Hrun. discriminate Hrun. }
  apply Z.eqb_neq in Hnz. rewrite Hnz in Hrun.
  apply Z.eqb_neq in HL. rewrite HL in Hrun. apply Z.eqb_neq in HL.
  destruct (Z.eqb_spec (sectors_per_cluster (sdCardFatBootSector st)) 0)
    as [E1|E1]; [discriminate Hrun|].
  destruct (Z.eqb_spec (sector_size (sdCardFatBootSector st)) 0)
    as [E2|E2]; [discriminate Hrun|].
  cbn [orb] in Hrun.
  destruct Hfound as (_ & Hcl & Hlen).
  assert (HLr : 0 <= fileLength s < 2 ^ 32)
    by (rewrite Hlen; apply load32_range).
  assert (Hcr : 0 <= fileClusterStart s < 2 ^ 16)
    by (rewrite Hcl; apply load16_range).
  assert (Hq : 0 <= fileLength s
                    / sectors_per_cluster (sdCardFatBootSector st)
                    / sector_size (sdCardFatBootSector st)).
  { apply Z.div_pos; [apply Z.div_pos|]; lia. }
  unfold clusterCount in Hrun. rewrite wrap32_small in Hrun by lia.
  rewrite (wrap32_small address) in Hrun by lia.
  destruct (readFile_clusters _ _ _ _ _) as [r st1] eqn:Hloop.
  injection Hrun as -> ->.
  apply (readFile_clusters_walk st address (fileLength s)) in Hloop;
    try assumption; try lia; [|apply walk_inv_start; lia].
  split; [|split].
  - unfold visited. rewrite cluster_chain_length. lia.
  - intros c. reflexivity.
  - exact Hloop.
Qed.

End ClusterChain.

Section Copy.

Context {C : Type} {Card : SpiCard C} {board : Board}.

Implicit Types (st : state (C := C)).

Lemma wrap8_byte (v : Z) : is_byte v -> wrap8 v = v.
Proof. unfold is_byte, wrap8. intros H. apply Z.mod_small. exact H. Qed.

Lemma nth_is_byte (l : list Z) (k : nat) :
  Forall is_byte l -> (k < List.length l)%nat -> is_byte (nth k l 0).
Proof.
  intros Hall Hk. rewrite Forall_forall in Hall. apply Hall, nth_In, Hk.
Qed.

Lemma payload_snoc (new : list sector_read) (sec p : Z) (data : list Z) :
  payload (new ++ [{| rd_sector := sec; rd_storage := p;
                      rd_data := Some data |}])
  = payload new ++ data.
Proof.
  unfold payload. rewrite flat_map_app. cbn [flat_map rd_data].
  rewrite app_nil_r. reflexivity.
Qed.

(** One more block behind the reads so far. *)
Lemma copy_inv_history st0 (A K : Z) (new : list sector_read)
  (sec p : Z) (data : list Z) :
  Z.of_nat (List.length (payload new)) = 512 * Z.of_nat (List.length new) ->
  Forall is_byte (payload new) ->
  map rd_storage new = map (sector_target A K) (seq 0 (List.length new)) ->
  List.length data = 512%nat ->
  Forall is_byte data ->
  p = sector_target A K (List.length new) ->
  let new' := new ++ [{| rd_sector := sec; rd_storage := p;
                         rd_data := Some data |}] in
  Z.of_nat (List.length new') = Z.of_nat (List.length new) + 1
  /\ Z.of_nat (List.length (payload new')) = 512 * Z.of_nat (List.length new')
  /\ Forall is_byte (payload new')
  /\ map rd_storage new' = map (sector_target A K) (seq 0 (List.length new')).
Proof.
  intros Hlen Hbytes Hstor Hdata Hdbytes Hp new'.
  assert (Hn : List.length new' = S (List.length new)).
  { unfold new'. rewrite length_app. cbn [List.length]. lia. }
  unfold new' in *. rewrite payload_snoc, Hn.
  split; [lia|]. split; [rewrite length_app; lia|].
  split; [apply Forall_app; split; assumption|].
  rewrite map_app, seq_S, map_app, Hstor. cbn [map rd_storage Nat.add].
  rewrite Hp. reflexivity.
Qed.

Lemma readFile_sectors_copy st0 (A L K : Z) (todo : nat)
  (sector css br addr : Z) st (new : list sector_read)
  (br' addr' : Z) st' :
  sector_size (sdCardFatBootSector st0) = 512 ->
  0 <= A -> A + L <= 2 ^ 32 ->
  0 <= sdCardSector -> sdCardSector + 512 <= 2 ^ 32 ->
  A + L <= sdCardSector \/ sdCardSector + 512 <= A ->
  512 * K < L <= 512 * K + 512 -> 0 <= K ->
  copy_inv st0 A L K st new br addr ->
  readFile_sectors todo sector css br addr st = (Some (br', addr'), st') ->
  exists new',
    copy_inv st0 A L K st' new' br' addr'
    /\ List.length new' = (List.length new + todo)%nat.
Proof.
  intros Hss HA HAend Hsc Hscend Hdisj HK HK0.
  revert sector br addr st new.
  induction todo as [|todo IH]; intros sector br addr st new Hinv Hrun.
  - cbn [readFile_sectors] in Hrun. injection Hrun as <- <- <-.
    exists new. split; [exact Hinv|lia].
  - cbn [readFile_sectors] in Hrun.
    destruct Hinv as (Hg & Hhist & Hlen & Hbytes & Hstor & Hbr & Haddr
                      & Hmem & Hframe).
    cbv zeta in Hlen, Hbr, Haddr, Hmem, Hframe.
    set (j := Z.of_nat (List.length new)) in *.
    assert (Hj : 0 <= j) by (unfold j; lia).
    destruct (globals_fields _ _ Hg) as (Hb & _ & _).
    rewrite Hb, Hss in Hrun.
    destruct (br >? 512) eqn:Hcmp.
    + apply Z.gtb_lt in Hcmp.
      assert (HjK : j < K) by lia.
      destruct (readSector_effect (wrap32 (css + sector)) addr st)
        as (d & res & Heff & Hdata).
      rewrite Heff in Hrun. destruct res as [data|];
        [|change (FAILURE =? FAILURE) with true in Hrun; discriminate Hrun].
      change (SUCCESS =? FAILURE) with false in Hrun. cbv iota in Hrun.
      destruct (Hdata data eq_refl) as [Hdlen Hdbytes].
      rewrite (wrap32_small (addr + 512)) in Hrun by lia.
      destruct (copy_inv_history st0 A K new (wrap32 (css + sector)) addr
                  data Hlen Hbytes Hstor Hdlen Hdbytes)
        as (Hn' & Hlen' & Hbytes' & Hstor').
      { unfold sector_target. fold j.
        replace (j <? K) with true by (symmetry; apply Z.ltb_lt; lia).
        rewrite Haddr. f_equal. lia. }
      specialize (IH (sector + 1) (br - 512) (addr + 512)
                    (after_read (wrap32 (css + sector)) addr d (Some data) st)
                    (new ++ [{| rd_sector := wrap32 (css + sector);
                                rd_storage := addr;
                                rd_data := Some data |}])).
      apply IH in Hrun.
      * destruct Hrun as (new' & Hinv' & Hcount). exists new'.
        split; [exact Hinv'|]. rewrite Hcount, length_app.
        cbn [List.length]. lia.
      * unfold copy_inv. cbv zeta. rewrite Hn'. fold j.
        split; [exact Hg|].
        split; [rewrite history_after_read, Hhist, <- app_assoc; reflexivity|].
        split; [rewrite Hlen', Hn'; reflexivity|].
        split; [exact Hbytes'|]. split; [exact Hstor'|].
        split; [lia|]. split; [lia|].
        cbn [ram after_read set_history set_ram]. rewrite payload_snoc.
        split.
        -- intros i Hi.
           destruct (Z.lt_ge_cases i (512 * j)) as [Hlow|Hhigh].
           ++ rewrite store_bytes_outside by (rewrite ?Hdlen; lia).
              rewrite Hmem by lia. rewrite app_nth1 by lia. reflexivity.
           ++ replace (A + i) with (addr + (i - 512 * j)) by lia.
              rewrite store_bytes_inside by (rewrite ?Hdlen; lia).
              rewrite app_nth2 by lia.
              replace (Z.to_nat i - List.length (payload new))%nat
                with (Z.to_nat (i - 512 * j)) by lia.
              apply wrap8_byte, nth_is_byte; [exact Hdbytes|lia].
        -- intros a Ha Hs.
           rewrite store_bytes_outside by (rewrite ?Hdlen; lia).
           apply Hframe; [lia|exact Hs].
    + rewrite Z.gtb_ltb in Hcmp. apply Z.ltb_ge in Hcmp.
      assert (HjK : K <= j) by lia.
      destruct (readSector_effect (wrap32 (css + sector)) sdCardSector st)
        as (d & res & Heff & Hdata).
      rewrite Heff in Hrun. destruct res as [data|];
        [|change (FAILURE =? FAILURE) with true in Hrun; discriminate Hrun].
      change (SUCCESS =? FAILURE) with false in Hrun. cbv iota in Hrun.
      destruct (Hdata data eq_refl) as [Hdlen Hdbytes].
      destruct (copy_inv_history st0 A K new (wrap32 (css + sector))
                  sdCardSector data Hlen Hbytes Hstor Hdlen Hdbytes)
        as (Hn' & Hlen' & Hbytes' & Hstor').
      { unfold sector_target. fold j.
        replace (j <? K) with false by (symmetry; apply Z.ltb_ge; lia).
        reflexivity. }
      specialize (IH (sector + 1) 0 addr
                    (set_ram (memcpy
                                (ram (after_read (wrap32 (css + sector))
                                        sdCardSector d (Some data) st))
                                addr sdCardSector br)
                       (after_read (wrap32 (css + sector)) sdCardSector d
                          (Some data) st))
                    (new ++ [{| rd_sector := wrap32 (css + sector);
                                rd_storage := sdCardSector;
                                rd_data := Some data |}])).
      apply IH in Hrun.
      * destruct Hrun as (new' & Hinv' & Hcount). exists new'.
        split; [exact Hinv'|]. rewrite Hcount, length_app.
        cbn [List.length]. lia.
      * unfold copy_inv. cbv zeta. rewrite Hn'. fold j.
        split; [exact Hg|].
        split; [cbn [history set_ram];
                rewrite history_after_read, Hhist, <- app_assoc;
                reflexivity|].
        split; [rewrite Hlen', Hn'; reflexivity|].
        split; [exact Hbytes'|]. split; [exact Hstor'|].
        split; [lia|]. split; [lia|].
        cbn [ram after_read set_history set_ram]. rewrite payload_snoc.
        unfold memcpy.
        split.
        -- intros i Hi.
           destruct (Z.lt_ge_cases i (Z.min (512 * j) L)) as [Hlow|Hhigh].
           ++ rewrite store_bytes_outside
                by (rewrite ?load_bytes_length; lia).
              rewrite store_bytes_outside by (rewrite ?Hdlen; lia).
              rewrite Hmem by lia. rewrite app_nth1 by lia. reflexivity.
           ++ assert (j = K) by lia. subst j.
              replace (A + i) with (addr + (i - 512 * K)) by lia.
              rewrite store_bytes_inside
                by (rewrite ?load_bytes_length; lia).
              rewrite load_bytes_nth by lia.
              rewrite Z2Nat.id by lia.
              unfold load8. rewrite wrap32_small by lia.
              rewrite store_bytes_inside by (rewrite ?Hdlen; lia).
              rewrite app_nth2 by lia.
              replace (Z.to_nat i - List.length (payload new))%nat
                with (Z.to_nat (i - 512 * K)) by lia.
              assert (Hbyte : is_byte (nth (Z.to_nat (i - 512 * K)) data 0))
                by (apply nth_is_byte; [exact Hdbytes|lia]).
              rewrite !(wrap8_byte _ Hbyte). reflexivity.
        -- intros a Ha Hs.
           rewrite store_bytes_outside
             by (rewrite ?load_bytes_length; lia).
           rewrite store_bytes_outside by (rewrite ?Hdlen; lia).
           apply Hframe; [lia|exact Hs].
Qed.

Lemma readFile_clusters_copy st0 (A L K : Z) (todo : nat)
  (c br addr : Z) st (new : list sector_read) st' :
  sector_size (sdCardFatBootSector st0) = 512 ->
  0 <= A -> A + L <= 2 ^ 32 ->
  0 <= sdCardSector -> sdCardSector + 512 <= 2 ^ 32 ->
  A + L <= sdCardSector \/ sdCardSector + 512 <= A ->
  512 * K < L <= 512 * K + 512 -> 0 <= K ->
  copy_inv st0 A L K st new br addr ->
  readFile_clusters todo c br addr st = (SUCCESS, st') ->
  exists new' br' addr',
    copy_inv st0 A L K st' new' br' addr'
    /\ List.length new'
       = (List.length new
          + todo * Z.to_nat (sectors_per_cluster (sdCardFatBootSector st0)))%nat.
Proof.
  intros Hss HA HAend Hsc Hscend Hdisj HK HK0.
  revert c br addr st new.
  induction todo as [|todo IH]; intros c br addr st new Hinv Hrun.
  - cbn [readFile_clusters] in Hrun. injection Hrun as <-.
    exists new, br, addr. split; [exact Hinv|lia].
  - cbn [readFile_clusters] in Hrun.
    destruct (readFile_sectors _ _ _ _ _ _) as [[[br1 addr1]|] st1] eqn:Hsec;
      [|discriminate Hrun].
    assert (Hspc : sectors_per_cluster (sdCardFatBootSector st)
                   = sectors_per_cluster (sdCardFatBootSector st0)).
    { destruct Hinv as (Hg & _).
      destruct (globals_fields _ _ Hg) as (Hb & _ & _).
      rewrite Hb. reflexivity. }
    rewrite Hspc in Hsec.
    apply (readFile_sectors_copy st0 A L K _ _ _ _ _ _ new) in Hsec;
      try assumption.
    destruct Hsec as (new1 & Hinv1 & Hcount1).
    apply (IH _ _ _ _ new1 Hinv1) in Hrun.
    destruct Hrun as (new2 & br2 & addr2 & Hinv2 & Hcount2).
    exists new2, br2, addr2. split; [exact Hinv2|].
    rewrite Hcount2, Hcount1. lia.
Qed.

Lemma copy_inv_start st (A L K : Z) :
  0 < L -> 0 <= K -> copy_inv st A L K st [] L A.
Proof.
  intros HL HK. unfold copy_inv. cbv zeta. cbn [List.length payload flat_map].
  split; [reflexivity|]. split; [rewrite app_nil_r; reflexivity|].
  split; [reflexivity|]. split; [constructor|]. split; [reflexivity|].
  split; [lia|]. split; [lia|]. split.
  - intros i Hi. lia.
  - intros a _ _. reflexivity.
Qed.

(** C1, amended.  A successful load, at [address], of a file of nonzero
    size [L] from a volume that declares 512-byte sectors, the size of
    the blocks that [readSector] stores: the sectors before the one that
    holds the last byte are read straight into the destination, each 512
    bytes behind the one before; that sector and every later one are read
    into the sector buffer, and [L mod 512] bytes of it, a full 512 when
    [L] is a multiple of 512, complete the file.  Every read delivered 512
    bytes.  Afterwards the [L] bytes
    from [address] are the first [L] bytes that arrived, in order, and no
    byte at or beyond [address + L], nor any byte below [address], has
    changed, the sector buffer apart.  The destination is assumed not to
    wrap around or overlap the sector buffer. *)
Theorem readFile_copies_file st (fuel : nat) (filename ext : string)
  (address : Z) s st' :
  readFile_scan fuel st filename ext scan0 = Some s ->
  fileLength s <> 0 ->
  spi_sdcard_readFile fuel filename ext address st = Done SUCCESS st' ->
  sector_size (sdCardFatBootSector st) = 512 ->
  0 <= sectors_per_cluster (sdCardFatBootSector st) ->
  0 <= address -> address + fileLength s <= 2 ^ 32 ->
  0 <= sdCardSector -> sdCardSector + 512 <= 2 ^ 32 ->
  address + fileLength s <= sdCardSector \/ sdCardSector + 512 <= address ->
  let L := fileLength s in
  let K := (L - 1) / 512 in
  exists new,
    history st' = history st ++ new
    /\ K < Z.of_nat (List.length new)
    /\ Z.of_nat (List.length (payload new)) = 512 * Z.of_nat (List.length new)
    /\ map rd_storage new
       = map (fun k => if Z.of_nat k <? K
                       then address + 512 * Z.of_nat k
                       else sdCardSector)
             (seq 0 (List.length new))
    /\ L - 512 * K = (if L mod 512 =? 0 then 512 else L mod 512)
    /\ (forall i, 0 <= i < L ->
          load8 (ram st') (address + i) = nth (Z.to_nat i) (payload new) 0)
    /\ (forall a,
          ~ (address <= a < address + L) ->
          ~ (sdCardSector <= a < sdCardSector + 512) ->
          ram st' a = ram st a).
Proof.
  intros Hscan HL Hrun Hss Hspc0 HA HAend Hsc Hscend Hdisj L K.
  unfold spi_sdcard_readFile in Hrun.
  change {| fileClusterStart := 0; fileLength := 0; scan_n := 0 |}
    with scan0 in Hrun.
  rewrite Hscan in Hrun.
  destruct (readFile_scan_outcome _ _ _ _ _ Hscan) as [[Hz _]|[Hnz Hfound]].
  { rewrite Hz in Hrun. cbn [Z.eqb] in Hrun. discriminate Hrun. }
  apply Z.eqb_neq in Hnz. rewrite Hnz in Hrun.
  apply Z.eqb_neq in HL. rewrite HL in Hrun. apply Z.eqb_neq in HL.
  destruct (Z.eqb_spec (sectors_per_cluster (sdCardFatBootSector st)) 0)
    as [E1|E1]; [discriminate Hrun|].
  rewrite Hss in Hrun. cbn [orb Z.eqb] in Hrun.
  destruct Hfound as (_ & _ & Hlen).
  assert (HLr : 0 < L < 2 ^ 32).
  { pose proof (load32_range (ram st)
                  (entry_addr st (scan_n s) + off_file_size)) as Hr.
    unfold L. rewrite Hlen. unfold entry_file_size in HL, Hlen |- *.
    rewrite Hlen in HL. lia. }
  fold L in Hrun, HAend, Hdisj.
  set (spc := sectors_per_cluster (sdCardFatBootSector st)) in *.
  assert (HK : 512 * K < L <= 512 * K + 512 /\ 0 <= K).
  { unfold K. Z.div_mod_to_equations. lia. }
  destruct HK as [HK HK0].
  assert (Hq : 0 <= L / spc / 512).
  { apply Z.div_pos; [apply Z.div_pos|]; lia. }
  assert (Hqlt : L < spc * 512 * (L / spc / 512 + 1)).
  { rewrite Z.div_div by lia.
    pose proof (Z.mul_succ_div_gt L (spc * 512)) as Hgt.
    unfold Z.succ in Hgt. apply Hgt. lia. }
  assert (Hqsmall : L / spc / 512 < 2 ^ 23).
  { apply Z.div_lt_upper_bound; [lia|].
    apply Z.le_lt_trans with (m := L); [|lia].
    apply Z.div_le_upper_bound; [lia|]. nia. }
  unfold clusterCount in Hrun. rewrite Hss in Hrun. fold spc in Hrun.
  rewrite wrap32_small in Hrun by lia.
  rewrite (wrap32_small address) in Hrun by lia.
  destruct (readFile_clusters _ _ _ _ _) as [r st1] eqn:Hloop.
  injection Hrun as -> ->.
  apply (readFile_clusters_copy st address L K _ _ _ _ _ [])
    in Hloop; try assumption; [|apply copy_inv_start; lia].
  destruct Hloop as (new & br' & addr' & Hinv & Hcount).
  destruct Hinv as (_ & Hhist & Hplen & Hbytes & Hstor & _ & _ & Hmem
                    & Hframe).
  cbv zeta in Hplen, Hmem, Hframe.
  fold spc in Hcount. cbn [List.length Nat.add] in Hcount.
  assert (Hj : K < Z.of_nat (List.length new)).
  { rewrite Hcount, Nat2Z.inj_mul, !Z2Nat.id by lia. nia. }
  assert (Hmin : Z.min (512 * Z.of_nat (List.length new)) L = L) by lia.
  rewrite Hmin in Hmem, Hframe.
  exists new. split; [exact Hhist|]. split; [exact Hj|].
  split; [exact Hplen|]. split; [exact Hstor|]. split.
  { unfold K. destruct (Z.eqb_spec (L mod 512) 0);
      Z.div_mod_to_equations; lia. }
  split; [|exact Hframe].
  intros i Hi. unfold load8. rewrite wrap32_small by lia.
  rewrite Hmem by exact Hi.
  apply wrap8_byte, nth_is_byte; [exact Hbytes|lia].
Qed.

End Copy.

(** * Further properties of the code *)

Section TransportWire.

Context {C : Type} {Card : SpiCard C}.

Implicit Types d : spi_dev (C := C).

(** The wait for [SPI_DONE] changes nothing but the busy count, which it
    brings to zero. *)
Lemma spi_wait_done_effect d :
  let d' := snd (spi_wait_done d) in
  busy d' = 0%nat /\ card d' = card d /\ mosi d' = mosi d
  /\ miso d' = miso d /\ control d' = control d /\ cs d' = cs d
  /\ sent d' = sent d.
Proof.
  unfold spi_wait_done.
  assert (H : forall (n : nat) d0,
             busy d0 = n ->
             let d' := snd (spi_wait_done_loop n d0) in
             busy d' = 0%nat /\ card d' = card d0 /\ mosi d' = mosi d0
             /\ miso d' = miso d0 /\ control d' = control d0
             /\ cs d' = cs d0 /\ sent d' = sent d0).
  { induction n as [|n IH]; intros d0 Hn; cbv zeta;
      cbn [spi_wait_done_loop]; unfold bind, ret, spi_status_read,
      csr_status_read; rewrite Hn.
    - cbn [snd]. repeat split. exact Hn.
    - change (0 =? SPI_DONE) with false. cbv iota.
      apply (IH {| card := card d0; mosi := mosi d0; miso := miso d0;
                   control := control d0; cs := cs d0; busy := n;
                   sent := sent d0 |}).
      reflexivity. }
  apply H. reflexivity.
Qed.

Lemma spi_write_byte_effect (b : Z) d :
  let d' := snd (spi_write_byte b d) in
  let step := shift (b mod 2 ^ 8) (card d) in
  sent d' = sent d ++ [b mod 2 ^ 8]
  /\ card d' = snd step
  /\ miso d' = fst (fst step) mod 2 ^ 8
  /\ busy d' = 0%nat
  /\ control d' = 0
  /\ cs d' = cs d.
Proof.
  cbv zeta. unfold spi_write_byte, bind, spi_mosi_write, spi_control_write.
  set (d1 := csr_control_write (Z.lor ONEBYTE SPI_START) (csr_mosi_write b d)).
  assert (H1 : sent d1 = sent d ++ [b mod 2 ^ 8]
               /\ card d1 = snd (shift (b mod 2 ^ 8) (card d))
               /\ miso d1 = fst (fst (shift (b mod 2 ^ 8) (card d))) mod 2 ^ 8
               /\ cs d1 = cs d).
  { unfold d1, csr_control_write.
    change (Z.testbit (Z.lor ONEBYTE SPI_START) 0) with true. cbv iota.
    cbn [csr_mosi_write mosi card sent cs]. unfold wrap8.
    destruct (shift (b mod 2 ^ 8) (card d)) as [[b0 n] c].
    repeat split. }
  destruct H1 as (Hs & Hc & Hm & Hcs).
  destruct (spi_wait_done_effect d1) as (Hb & Hc' & _ & Hm' & _ & Hcs' & Hs').
  destruct (spi_wait_done d1) as [u d2]. cbn [snd] in *.
  unfold csr_control_write. change (Z.testbit 0 0) with false. cbv iota.
  cbn [sent card miso busy control cs].
  rewrite Hs', Hc', Hm', Hcs', Hb. repeat split; assumption.
Qed.

(** X1.  [spi_write_byte] clocks exactly one byte out, the low eight bits
    of its argument, and returns when the transfer is over: the card has
    made one step on that byte, the byte it answered is in MISO, the core
    is idle and the control register is back at zero; chip select is not
    touched. *)
Theorem spi_write_byte_transfer (b : Z) d :
  let d' := snd (spi_write_byte b d) in
  let step := shift (b mod 2 ^ 8) (card d) in
  sent d' = sent d ++ [b mod 2 ^ 8]
  /\ card d' = snd step
  /\ miso d' = fst (fst step) mod 2 ^ 8
  /\ busy d' = 0%nat
  /\ control d' = 0
  /\ cs d' = cs d.
Proof. exact (spi_write_byte_effect b d). Qed.

(** X2.  [spi_read_byte] sends one filler byte [0xff] and returns the byte
    the card answered to it, a value below 256, which is also what MISO
    holds afterwards. *)
Theorem spi_read_byte_exchange d :
  let r := fst (spi_read_byte d) in
  let d' := snd (spi_read_byte d) in
  sent d' = sent d ++ [0xff]
  /\ r = fst (fst (shift 0xff (card d))) mod 2 ^ 8
  /\ 0 <= r < 2 ^ 8
  /\ r = miso d'
  /\ card d' = snd (shift 0xff (card d)).
Proof.
  cbv zeta. unfold spi_read_byte, bind, ret, spi_miso_read, csr_miso_read.
  destruct (spi_write_byte_effect 0xff d) as (Hs & Hc & Hm & _).
  change (0xff mod 2 ^ 8) with 0xff in Hs, Hc, Hm.
  destruct (spi_write_byte 0xff d) as [u d1]. cbn [fst snd] in *.
  rewrite Hm. repeat split; try assumption; apply Z.mod_pos_bound; lia.
Qed.

(** X3.  Whatever the card does, [spi_read_rbyte] sends nothing but filler
    bytes [0xff], at most 32 of them, and the value it returns is what
    MISO holds afterwards; when the byte already in MISO has its high bit
    clear it sends nothing and leaves the core as it is. *)
Theorem spi_read_rbyte_wire d :
  (exists k : nat,
     (k <= 32)%nat
     /\ sent (snd (spi_read_rbyte d)) = sent d ++ repeat 0xff k
     /\ fst (spi_read_rbyte d) = miso (snd (spi_read_rbyte d)))
  /\ (high_bit (miso d) = false -> spi_read_rbyte d = (miso d, d)).
Proof.
  split.
  - destruct (spi_read_rbyte_loop_spec 32 d) as (k & Hk & Hrun & _).
    exists k. unfold spi_read_rbyte, bind, spi_miso_read.
    change (csr_miso_read d) with (sampled d). rewrite Hrun. cbn [fst snd].
    split; [exact Hk|]. split; [apply fillers_sent|reflexivity].
  - intros Hbit. unfold spi_read_rbyte, bind, spi_miso_read, csr_miso_read.
    cbn [spi_read_rbyte_loop]. rewrite land_0x80_testbit.
    unfold high_bit in Hbit. rewrite Hbit. reflexivity.
Qed.

(** *** The mode switch *)

Lemma fillers_cs (k : nat) d : cs (fillers k d) = cs d.
Proof.
  revert d. induction k as [|k IH]; intros d; [reflexivity|].
  rewrite fillers_S, IH.
  destruct (spi_write_byte_effect 0xff d) as (_ & _ & _ & _ & _ & H).
  exact H.
Qed.

Lemma spi_read_rbyte_run d (r : Z) d' :
  spi_read_rbyte d = (r, d') ->
  cs d' = cs d
  /\ exists k : nat, (k <= 32)%nat /\ sent d' = sent d ++ repeat 0xff k.
Proof.
  destruct (spi_read_rbyte_loop_spec 32 d) as (k & Hk & Hrun & _).
  unfold spi_read_rbyte, bind, spi_miso_read.
  change (csr_miso_read d) with (sampled d). rewrite Hrun.
  intros H. injection H as _ <-. split; [apply fillers_cs|].
  exists k. split; [exact Hk|apply fillers_sent].
Qed.

Lemma mode_cycle_run d (r : Z) d' :
  mode_cycle d = (r, d') ->
  cs d' = CS_LOW
  /\ exists f : nat, (10 <= f)%nat /\ sent d' = sent d ++ repeat 0xff f.
Proof.
  unfold mode_cycle, bind, spi_cs_write.
  change (times 10 (spi_write_byte 0xff) (csr_cs_write CS_HIGH d))
    with (times 10 (spi_write_byte 0xff) (csr_cs_write CS_HIGH d)).
  pose proof (fillers_sent 10 (csr_cs_write CS_HIGH d)) as Hs.
  unfold fillers in Hs.
  destruct (times 10 (spi_write_byte 0xff) (csr_cs_write CS_HIGH d))
    as [u d1]. cbn [snd] in Hs.
  intros Hrun. apply spi_read_rbyte_run in Hrun.
  destruct Hrun as (Hcs & k & _ & Hk). split; [rewrite Hcs; reflexivity|].
  exists (10 + k)%nat. split; [lia|].
  rewrite Hk. cbn [sent csr_cs_write]. rewrite Hs.
  cbn [sent csr_cs_write]. rewrite repeat_app, <- app_assoc. reflexivity.
Qed.

Lemma cycles_wire (k : nat) d :
  (1 <= k)%nat ->
  cs (cycles k d) = CS_LOW
  /\ exists f : nat,
       (10 * k <= f)%nat /\ sent (cycles k d) = sent d ++ repeat 0xff f.
Proof.
  revert d. induction k as [|k IH]; intros d Hk; [lia|].
  cbn [cycles]. destruct (mode_cycle d) as [r d1] eqn:E. cbn [snd].
  apply mode_cycle_run in E. destruct E as (Hcs & f1 & Hf1 & Hs1).
  destruct k as [|k].
  - cbn [cycles]. split; [exact Hcs|]. exists f1. split; [lia|exact Hs1].
  - destruct (IH d1) as (Hcs2 & f2 & Hf2 & Hs2); [lia|].
    split; [exact Hcs2|]. exists (f1 + f2)%nat. split; [lia|].
    rewrite Hs2, Hs1, repeat_app, <- app_assoc. reflexivity.
Qed.

(** X4.  [spi_setspimode] runs between 1 and 32 mode-switch cycles and
    stops at the first nonzero response or after the 32nd cycle; it
    answers [SUCCESS] exactly when it stopped before the 32nd.  It sends
    nothing but filler bytes, at least ten for each cycle, and leaves chip
    select asserted. *)
Theorem spi_setspimode_cycles d :
  exists k : nat,
    (1 <= k <= 32)%nat
    /\ snd (spi_setspimode d) = cycles k d
    /\ (forall j : nat, (j < k - 1)%nat -> cycle_response j d = 0)
    /\ (cycle_response (k - 1) d <> 0 \/ k = 32%nat)
    /\ fst (spi_setspimode d) = (if (k <? 32)%nat then SUCCESS else FAILURE)
    /\ cs (snd (spi_setspimode d)) = CS_LOW
    /\ exists f : nat,
         (10 * k <= f)%nat
         /\ sent (snd (spi_setspimode d)) = sent d ++ repeat 0xff f.
Proof.
  destruct (spi_setspimode_spec d) as (k & Hk & Hst & Hbefore & Hend & Hres).
  exists k. rewrite Hst.
  destruct (cycles_wire k d) as (Hcs & Hwire); [lia|].
  split; [exact Hk|]. split; [reflexivity|]. split; [exact Hbefore|].
  split; [exact Hend|]. split; [exact Hres|]. split; [exact Hcs|].
  exact Hwire.
Qed.

(** *** The initialisation *)

Lemma spi_sdcard_goidle_loop_S (t : nat) d :
  spi_sdcard_goidle_loop (S t) d =
  let (r, d1) := ready_round d in
  if negb (r =? 0x00) && (0 <? Z.of_nat t) then spi_sdcard_goidle_loop t d1
  else (r, d1).
Proof.
  cbn [spi_sdcard_goidle_loop]. unfold ready_round, cmd55, acmd41, bind.
  destruct (spi_write_bytes _ d) as [u1 d1].
  destruct (spi_read_rbyte d1) as [r1 d2].
  destruct (spi_write_bytes _ d2) as [u2 d3].
  destruct (spi_read_rbyte d3) as [r d4].
  destruct (negb (r =? 0x00) && (0 <? Z.of_nat t)); reflexivity.
Qed.

Lemma spi_sdcard_goidle_loop_spec (t : nat) d :
  exists k : nat,
    (k <= t)%nat
    /\ spi_sdcard_goidle_loop (S t) d
       = (ready_response k d, ready_rounds (S k) d)
    /\ (forall j : nat, (j < k)%nat -> ready_response j d <> 0)
    /\ (ready_response k d = 0 \/ k = t).
Proof.
  revert d. induction t as [|t IH]; intros d.
  - exists 0%nat. rewrite spi_sdcard_goidle_loop_S.
    unfold ready_response. cbn [ready_rounds].
    destruct (ready_round d) as [r d1]. cbn [fst snd].
    rewrite andb_false_r.
    repeat split; [lia| |now right]. intros j Hj. lia.
  - rewrite spi_sdcard_goidle_loop_S.
    destruct (ready_round d) as [r d1] eqn:E.
    assert (Hr : ready_response 0 d = r).
    { unfold ready_response. cbn [ready_rounds]. rewrite E. reflexivity. }
    assert (Hd : snd (ready_round d) = d1) by (rewrite E; reflexivity).
    assert (Hshift : forall j, ready_response (S j) d = ready_response j d1).
    { intros j. unfold ready_response. cbn [ready_rounds]. rewrite Hd.
      reflexivity. }
    destruct (Z.eqb_spec r 0x00) as [Er|Er]; cbn [negb andb].
    + exists 0%nat. repeat split.
      * lia.
      * rewrite Hr. cbn [ready_rounds]. rewrite Hd. reflexivity.
      * intros j Hj. lia.
      * left. rewrite Hr. exact Er.
    + replace (0 <? Z.of_nat (S t)) with true
        by (symmetry; apply Z.ltb_lt; lia).
      destruct (IH d1) as (k & Hk & Hrun & Hbefore & Hend).
      exists (S k). repeat split.
      * lia.
      * rewrite Hrun, Hshift. cbn [ready_rounds]. rewrite Hd. reflexivity.
      * intros [|j] Hj; [rewrite Hr; exact Er|].
        rewrite Hshift. apply Hbefore. lia.
      * rewrite Hshift. destruct Hend as [H|H]; [left; exact H|right; lia].
Qed.

(** X5.  The ready poll of [spi_sdcard_goidle] sends CMD55 and ACMD41
    between 1 and 32 times and stops at the first round whose ACMD41
    response is [0x00], or after the 32nd round.  What it hands on is the
    response of the last round it ran: [0x00] if some round, the 32nd
    included, was answered ready, and a nonzero byte if all 32 were not. *)
Theorem spi_sdcard_goidle_ready_poll d :
  exists k : nat,
    (1 <= k <= 32)%nat
    /\ spi_sdcard_goidle_loop 32 d
       = (ready_response (k - 1) d, ready_rounds k d)
    /\ (forall j : nat, (j < k - 1)%nat -> ready_response j d <> 0)
    /\ (ready_response (k - 1) d = 0 \/ k = 32%nat)
    /\ (fst (spi_sdcard_goidle_loop 32 d) = 0 <->
        exists j : nat, (j < 32)%nat /\ ready_response j d = 0).
Proof.
  destruct (spi_sdcard_goidle_loop_spec 31 d)
    as (k & Hk & Hrun & Hbefore & Hend).
  exists (S k). replace (S k - 1)%nat with k by lia.
  change (spi_sdcard_goidle_loop 32 d)
    with (spi_sdcard_goidle_loop (S 31) d).
  rewrite Hrun. cbn [fst].
  split; [lia|]. split; [reflexivity|]. split; [exact Hbefore|].
  split; [destruct Hend as [H|H]; [left; exact H|right; lia]|].
  split.
  - intros H. exists k. split; [lia|exact H].
  - intros (j & Hj & Hz).
    destruct (Nat.lt_ge_cases j k) as [Hlt|Hge].
    + exfalso. apply (Hbefore j Hlt). exact Hz.
    + destruct Hend as [H|H]; [exact H|].
      assert (j = k) as -> by lia. exact Hz.
Qed.

Lemma spi_write_bytes_run (l : list Z) d (u : unit) d' :
  spi_write_bytes l d = (u, d') -> sent d' = sent d ++ map wrap8 l.
Proof.
  intros H. pose proof (spi_write_bytes_sent l d) as Hs.
  rewrite H in Hs. exact Hs.
Qed.

Lemma times_read_byte_run (n : nat) d (u : unit) d' :
  times n spi_read_byte d = (u, d') -> sent d' = sent d ++ repeat 0xff n.
Proof.
  revert d. induction n as [|n IH]; intros d H.
  - cbn in H. injection H as _ <-. cbn. rewrite app_nil_r. reflexivity.
  - cbn [times] in H. unfold bind in H.
    pose proof (spi_read_byte_sent d) as Hs.
    destruct (spi_read_byte d) as [b d1]. cbn [snd] in Hs.
    apply IH in H. rewrite H, Hs, <- app_assoc. reflexivity.
Qed.

Lemma ready_round_run d (r : Z) d' :
  ready_round d = (r, d') ->
  exists a b : nat,
    sent d' = sent d ++ ready_wire [(a, b)].
Proof.
  unfold ready_round, bind. intros H.
  destruct (spi_write_bytes cmd55 d) as [u1 d1] eqn:E1.
  destruct (spi_read_rbyte d1) as [r1 d2] eqn:E2.
  destruct (spi_write_bytes acmd41 d2) as [u2 d3] eqn:E3.
  apply spi_write_bytes_run in E1, E3.
  apply spi_read_rbyte_run in E2, H.
  destruct E2 as (_ & a & _ & Ha). destruct H as (_ & b & _ & Hb).
  exists a, b. unfold ready_wire. cbn [flat_map fst snd].
  rewrite Hb, E3, Ha, E1, app_nil_r, <- !app_assoc. reflexivity.
Qed.

Lemma spi_sdcard_goidle_loop_run (t : nat) d (r : Z) d' :
  spi_sdcard_goidle_loop (S t) d = (r, d') ->
  exists rounds : list (nat * nat),
    (1 <= List.length rounds <= S t)%nat
    /\ sent d' = sent d ++ ready_wire rounds.
Proof.
  revert d. induction t as [|t IH]; intros d H;
    rewrite spi_sdcard_goidle_loop_S in H;
    destruct (ready_round d) as [r1 d1] eqn:E;
    apply ready_round_run in E; destruct E as (a & b & Hs).
  - rewrite andb_false_r in H. injection H as _ <-.
    exists [(a, b)]. split; [cbn; lia|exact Hs].
  - destruct (negb (r1 =? 0x00) && (0 <? Z.of_nat (S t))).
    + apply IH in H. destruct H as (rounds & Hlen & Hs').
      exists ((a, b) :: rounds). split; [cbn [List.length]; lia|].
      rewrite Hs', Hs. unfold ready_wire. cbn [flat_map].
      rewrite app_nil_r, <- !app_assoc. reflexivity.
    + injection H as _ <-. exists [(a, b)]. split; [cbn; lia|exact Hs].
Qed.

Lemma spi_setspimode_run d (r : Z) d' :
  spi_setspimode d = (r, d') ->
  exists f : nat, sent d' = sent d ++ repeat 0xff f.
Proof.
  intros H.
  destruct (spi_setspimode_spec d) as (k & Hk & Hst & _).
  rewrite H in Hst. cbn [snd] in Hst. subst d'.
  destruct (cycles_wire k d) as (_ & f & _ & Hs); [lia|].
  exists f. exact Hs.
Qed.

(** X6.  A successful [spi_sdcard_goidle] has put on the wire, after the
    filler bytes of the mode switch and in this order: CMD0, CMD8 and at
    least four filler bytes, between 1 and 32 rounds of CMD55 and ACMD41,
    CMD58 and at least four filler bytes, and CMD16 with the block length
    512; between and after the frames it sent filler bytes only. *)
Theorem spi_sdcard_goidle_wire d :
  fst (spi_sdcard_goidle d) = SUCCESS ->
  exists (f f0 f1 f2 f3 : nat) (rounds : list (nat * nat)),
    (4 <= f1)%nat /\ (4 <= f2)%nat
    /\ (1 <= List.length rounds <= 32)%nat
    /\ sent (snd (spi_sdcard_goidle d))
       = sent d ++ repeat 0xff f
         ++ cmd0 ++ repeat 0xff f0
         ++ cmd8 ++ repeat 0xff f1
         ++ ready_wire rounds
         ++ cmd58 ++ repeat 0xff f2
         ++ cmd16 ++ repeat 0xff f3.
Proof.
  unfold spi_sdcard_goidle, bind, ret.
  destruct (spi_setspimode d) as [r0 d0] eqn:E0.
  destruct (negb (r0 =? 0x01)); [intros H; discriminate H|].
  destruct (spi_write_bytes _ d0) as [u1 d1] eqn:E1.
  destruct (spi_read_rbyte d1) as [r1 d2] eqn:E2.
  destruct (negb (r1 =? 0x01)); [intros H; discriminate H|].
  destruct (spi_write_bytes _ d2) as [u3 d3] eqn:E3.
  destruct (spi_read_rbyte d3) as [r3 d4] eqn:E4.
  destruct (negb (r3 =? 0x01)); [intros H; discriminate H|].
  destruct (times 4 spi_read_byte d4) as [u5 d5] eqn:E5.
  destruct (spi_sdcard_goidle_loop 32 d5) as [r6 d6] eqn:E6.
  destruct (negb (r6 =? 0x00)); [intros H; discriminate H|].
  destruct (spi_write_bytes _ d6) as [u7 d7] eqn:E7.
  destruct (spi_read_rbyte d7) as [r7 d8] eqn:E8.
  destruct (r7 >? 0x01); [intros H; discriminate H|].
  destruct (times 4 spi_read_byte d8) as [u9 d9] eqn:E9.
  destruct (spi_write_bytes _ d9) as [u10 d10] eqn:E10.
  destruct (spi_read_rbyte d10) as [r11 d11] eqn:E11.
  destruct (negb (r11 =? 0x00)); [intros H; discriminate H|].
  intros _. cbn [snd].
  apply spi_setspimode_run in E0. destruct E0 as (f & H0).
  apply spi_write_bytes_run in E1, E3, E7, E10.
  apply spi_read_rbyte_run in E2, E4, E8, E11.
  destruct E2 as (_ & f0 & _ & H2). destruct E4 as (_ & k4 & _ & H4).
  destruct E8 as (_ & k8 & _ & H8). destruct E11 as (_ & f3 & _ & H11).
  apply times_read_byte_run in E5, E9.
  change (spi_sdcard_goidle_loop 32 d5)
    with (spi_sdcard_goidle_loop (S 31) d5) in E6.
  apply spi_sdcard_goidle_loop_run in E6.
  destruct E6 as (rounds & Hlen & H6).
  exists f, f0, (k4 + 4)%nat, (k8 + 4)%nat, f3, rounds.
  split; [lia|]. split; [lia|]. split; [exact Hlen|].
  rewrite H11, E10, E9, H8, E7, H6, E5, H4, E3, H2, E1, H0.
  rewrite !repeat_app, <- !app_assoc. reflexivity.
Qed.

End TransportWire.

Section SectorFrame.

Context {C : Type} {Card : SpiCard C}.

Implicit Types (st : state (C := C)).

Lemma store_bytes_untouched (l : list Z) (m : memory) (p a : Z) :
  (forall i, 0 <= i < Z.of_nat (List.length l) -> a <> wrap32 (p + i)) ->
  store_bytes m p l a = m a.
Proof.
  revert m p. induction l as [|b l IH]; intros m p Hout; [reflexivity|].
  cbn [store_bytes]. cbn [List.length] in Hout. rewrite IH.
  - unfold store8. destruct (Z.eqb_spec a (wrap32 p)) as [E|E];
      [|reflexivity].
    exfalso. apply (Hout 0); [lia|]. rewrite Z.add_0_r. exact E.
  - intros i Hi. replace (p + 1 + i) with (p + (i + 1)) by ring.
    apply Hout. lia.
Qed.

Lemma wrap32_apart (p j : Z) :
  0 < j < 2 ^ 32 -> wrap32 (p + j) <> wrap32 p.
Proof.
  unfold wrap32. intros Hj E.
  assert (H : (p + j - p) mod 2 ^ 32 = 0).
  { rewrite Zminus_mod, E, Z.sub_diag. reflexivity. }
  replace (p + j - p) with j in H by ring.
  rewrite Z.mod_small in H; lia.
Qed.

Lemma store_bytes_written (l : list Z) (m : memory) (p i : Z) :
  Z.of_nat (List.length l) <= 2 ^ 32 ->
  0 <= i < Z.of_nat (List.length l) ->
  store_bytes m p l (wrap32 (p + i)) = wrap8 (nth (Z.to_nat i) l 0).
Proof.
  revert m p i. induction l as [|b l IH]; intros m p i Hlen Hi.
  - cbn [List.length] in Hi. lia.
  - cbn [store_bytes]. cbn [List.length] in Hlen, Hi.
    destruct (Z.eq_dec i 0) as [->|Hne].
    + rewrite store_bytes_untouched.
      * unfold store8. rewrite Z.add_0_r, Z.eqb_refl. reflexivity.
      * intros k Hk. rewrite Z.add_0_r.
        replace (p + 1 + k) with (p + (k + 1)) by ring.
        intros E. symmetry in E. revert E. apply wrap32_apart. lia.
    + replace (p + i) with (p + 1 + (i - 1)) by ring.
      rewrite IH by lia.
      replace (Z.to_nat i) with (S (Z.to_nat (i - 1))) by lia.
      reflexivity.
Qed.

(** X7.  [readSector] answers [SUCCESS] or [FAILURE].  It changes no byte
    of memory outside the 512 bytes of [storage], at whatever address they
    are, and none at all when it fails; when it succeeds, [storage[i]]
    holds the [i]-th byte of the block that arrived, for every [i] below
    512. *)
Theorem readSector_writes_its_buffer (s p : Z) st :
  let r := fst (readSector s p st) in
  let st' := snd (readSector s p st) in
  (r = SUCCESS \/ r = FAILURE)
  /\ (forall a,
        (forall i, 0 <= i < 512 -> a <> wrap32 (p + i)) ->
        ram st' a = ram st a)
  /\ (r = FAILURE -> forall a, ram st' a = ram st a)
  /\ (r = SUCCESS ->
      exists data,
        List.length data = 512%nat
        /\ history st'
           = history st ++ [{| rd_sector := s; rd_storage := p;
                               rd_data := Some data |}]
        /\ forall i, 0 <= i < 512 ->
             load8 (ram st') (p + i) = nth (Z.to_nat i) data 0).
Proof.
  cbv zeta.
  destruct (readSector_effect s p st) as (d & res & Hrun & Hdata).
  rewrite Hrun. cbn [fst snd]. destruct res as [data|].
  - destruct (Hdata data eq_refl) as [Hlen Hbytes].
    split; [left; reflexivity|].
    cbn [ram after_read set_history set_ram]. split; [|split].
    + intros a Ha. apply store_bytes_untouched. rewrite Hlen. exact Ha.
    + intros H. discriminate H.
    + intros _. exists data. split; [exact Hlen|]. split; [reflexivity|].
      intros i Hi. unfold load8.
      rewrite store_bytes_written by (rewrite Hlen; lia).
      assert (Hb : is_byte (nth (Z.to_nat i) data 0)).
      { pose proof Hbytes as Hall. rewrite Forall_forall in Hall.
        apply Hall, nth_In. lia. }
      rewrite !(wrap8_byte _ Hb). reflexivity.
  - split; [right; reflexivity|].
    cbn [ram after_read set_history set_ram]. split; [|split].
    + intros a _. reflexivity.
    + intros _ a. reflexivity.
    + intros H. discriminate H.
Qed.

End SectorFrame.

Section FileErrors.

Context {C : Type} {Card : SpiCard C} {board : Board}.

Implicit Types (st : state (C := C)).

Lemma readFile_scan_more_fuel st (filename ext : string) (fuel : nat) s s' :
  readFile_scan fuel st filename ext s = Some s' ->
  forall fuel' : nat, (fuel <= fuel')%nat ->
    readFile_scan fuel' st filename ext s = Some s'.
Proof.
  revert s. induction fuel as [|fuel IH]; intros s Hrun fuel' Hle.
  - discriminate Hrun.
  - destruct fuel' as [|fuel']; [lia|].
    cbn [readFile_scan] in Hrun |- *.
    destruct (readFile_scan_cond st s); [|exact Hrun].
    apply (IH _ Hrun). lia.
Qed.

(** X8.  When no directory entry matches the name and extension,
    [spi_sdcard_readFile] returns [FAILURE] as soon as the scan has passed
    the last entry: it has read no sector and changed nothing. *)
Theorem readFile_file_not_found st (filename ext : string) (address : Z)
  (fuel : nat) :
  (forall j, 0 <= j < root_dir_entries (sdCardFatBootSector st) ->
             ~ matches st filename ext j) ->
  (Z.to_nat (root_dir_entries (sdCardFatBootSector st)) < fuel)%nat ->
  spi_sdcard_readFile fuel filename ext address st = Done FAILURE st.
Proof.
  intros Hnone Hfuel.
  destruct (readFile_scan_no_match st filename ext
              (Z.to_nat (root_dir_entries (sdCardFatBootSector st)))
              scan0 (scanning_scan0 _ _ _)) as (s' & Hrun).
  { cbn [scan_n scan0]. lia. }
  { cbn [scan_n scan0]. exact Hnone. }
  apply (readFile_scan_more_fuel _ _ _ _ _ _ Hrun fuel) in Hfuel.
  unfold spi_sdcard_readFile.
  change {| fileClusterStart := 0; fileLength := 0; scan_n := 0 |} with scan0.
  rewrite Hfuel.
  destruct (readFile_scan_outcome _ _ _ _ _ Hfuel) as [[Hz _]|[_ Hfound]].
  - rewrite Hz. reflexivity.
  - exfalso. destruct Hfound as ((Hr & Hm & _) & _). exact (Hnone _ Hr Hm).
Qed.

(** *** Read errors while the file is loaded *)

Lemma readFile_sectors_reads (todo : nat) (sector css br addr : Z) st
  (res : option (Z * Z)) st' :
  readFile_sectors todo sector css br addr st = (res, st') ->
  globals st' = globals st
  /\ exists oks,
       Forall read_ok oks
       /\ match res with
          | Some _ =>
              history st' = history st ++ oks /\ List.length oks = todo
          | None =>
              exists e,
                rd_data e = None
                /\ history st' = history st ++ oks ++ [e]
                /\ (List.length oks < todo)%nat
          end.
Proof.
  revert sector br addr st.
  induction todo as [|todo IH]; intros sector br addr st Hrun.
  - cbn [readFile_sectors] in Hrun. injection Hrun as <- <-.
    split; [reflexivity|]. exists []. split; [constructor|].
    rewrite app_nil_r. split; reflexivity.
  - cbn [readFile_sectors] in Hrun.
    destruct (br >? sector_size (sdCardFatBootSector st)).
    + destruct (readSector_effect (wrap32 (css + sector)) addr st)
        as (d & r0 & Heff & _).
      rewrite Heff in Hrun. destruct r0 as [data|].
      * change (SUCCESS =? FAILURE) with false in Hrun. cbv iota in Hrun.
        apply IH in Hrun. destruct Hrun as (Hg & oks & Hok & Hres).
        split; [rewrite Hg; reflexivity|].
        exists ({| rd_sector := wrap32 (css + sector); rd_storage := addr;
                   rd_data := Some data |} :: oks).
        split; [constructor; [intros H; discriminate H|exact Hok]|].
        destruct res as [v|].
        -- destruct Hres as [Hh Hl].
           rewrite history_after_read, <- app_assoc in Hh.
           split; [exact Hh|].
           cbn [List.length]. rewrite Hl. reflexivity.
        -- destruct Hres as (e & He & Hh & Hl). exists e.
           rewrite history_after_read, <- app_assoc in Hh.
           split; [exact He|]. split; [exact Hh|].
           cbn [List.length]. lia.
      * change (FAILURE =? FAILURE) with true in Hrun. cbv iota in Hrun.
        injection Hrun as <- <-. split; [reflexivity|].
        exists []. split; [constructor|].
        eexists. split; [|split; [apply history_after_read|cbn; lia]].
        reflexivity.
    + destruct (readSector_effect (wrap32 (css + sector)) sdCardSector st)
        as (d & r0 & Heff & _).
      rewrite Heff in Hrun. destruct r0 as [data|].
      * change (SUCCESS =? FAILURE) with false in Hrun. cbv iota in Hrun.
        apply IH in Hrun. destruct Hrun as (Hg & oks & Hok & Hres).
        split; [rewrite Hg; reflexivity|].
        exists ({| rd_sector := wrap32 (css + sector);
                   rd_storage := sdCardSector;
                   rd_data := Some data |} :: oks).
        split; [constructor; [intros H; discriminate H|exact Hok]|].
        destruct res as [v|].
        -- destruct Hres as [Hh Hl]. cbn [history set_ram] in Hh.
           rewrite history_after_read, <- app_assoc in Hh.
           split; [exact Hh|].
           cbn [List.length]. rewrite Hl. reflexivity.
        -- destruct Hres as (e & He & Hh & Hl). exists e.
           cbn [history set_ram] in Hh.
           rewrite history_after_read, <- app_assoc in Hh.
           split; [exact He|]. split; [exact Hh|].
           cbn [List.length]. lia.
      * change (FAILURE =? FAILURE) with true in Hrun. cbv iota in Hrun.
        injection Hrun as <- <-. split; [reflexivity|].
        exists []. split; [constructor|].
        eexists. split; [|split; [apply history_after_read|cbn; lia]].
        reflexivity.
Qed.

Lemma readFile_clusters_reads (todo : nat) (c br addr : Z) st (r : Z) st' :
  readFile_clusters todo c br addr st = (r, st') ->
  let per := Z.to_nat (sectors_per_cluster (sdCardFatBootSector st)) in
  globals st' = globals st
  /\ exists oks,
       Forall read_ok oks
       /\ (r = SUCCESS
           /\ history st' = history st ++ oks
           /\ List.length oks = (todo * per)%nat
           \/ r = FAILURE
              /\ exists e,
                   rd_data e = None
                   /\ history st' = history st ++ oks ++ [e]
                   /\ (List.length oks < todo * per)%nat).
Proof.
  revert c br addr st.
  induction todo as [|todo IH]; intros c br addr st Hrun per.
  - cbn [readFile_clusters] in Hrun. injection Hrun as <- <-.
    split; [reflexivity|]. exists []. split; [constructor|]. left.
    rewrite app_nil_r. repeat split.
  - cbn [readFile_clusters] in Hrun. fold per in Hrun.
    destruct (readFile_sectors _ _ _ _ _ _) as [res st1] eqn:Hsec.
    apply readFile_sectors_reads in Hsec.
    destruct Hsec as (Hg1 & oks1 & Hok1 & Hres1).
    destruct res as [[br1 addr1]|].
    + destruct Hres1 as [Hh1 Hl1].
      apply IH in Hrun. cbv zeta in Hrun.
      destruct (globals_fields _ _ Hg1) as (Hb & _ & _).
      rewrite Hb in Hrun. fold per in Hrun.
      destruct Hrun as (Hg2 & oks2 & Hok2 & Hres2).
      split; [rewrite Hg2; exact Hg1|].
      exists (oks1 ++ oks2). split; [apply Forall_app; split; assumption|].
      destruct Hres2 as [(Hr & Hh2 & Hl2)|(Hr & e & He & Hh2 & Hl2)].
      * left. split; [exact Hr|]. split.
        -- rewrite Hh2, Hh1, <- app_assoc. reflexivity.
        -- rewrite length_app, Hl1, Hl2. lia.
      * right. split; [exact Hr|]. exists e. split; [exact He|]. split.
        -- rewrite Hh2, Hh1, <- !app_assoc. reflexivity.
        -- rewrite length_app, Hl1. lia.
    + injection Hrun as <- <-.
      destruct Hres1 as (e & He & Hh1 & Hl1).
      split; [exact Hg1|]. exists oks1. split; [exact Hok1|].
      right. split; [reflexivity|]. exists e.
      split; [exact He|]. split; [exact Hh1|]. lia.
Qed.

(** X9.  When [spi_sdcard_readFile] returns it has stopped at the first
    sector read that failed.  It returns [SUCCESS] only if a file was
    found and every read succeeded, and then it made none for an empty
    file and (cluster count x sectors per cluster) otherwise; it returns
    [FAILURE] either without any read, when no file was found, or with the
    failed read as its last. *)
Theorem readFile_read_errors st (fuel : nat) (filename ext : string)
  (address : Z) s (r : Z) st' :
  readFile_scan fuel st filename ext scan0 = Some s ->
  spi_sdcard_readFile fuel filename ext address st = Done r st' ->
  let b := sdCardFatBootSector st in
  exists oks,
    Forall read_ok oks
    /\ (r = SUCCESS
        /\ fileClusterStart s <> 0
        /\ history st' = history st ++ oks
        /\ List.length oks
           = (if fileLength s =? 0 then 0%nat
              else (Z.to_nat (clusterCount b (fileLength s))
                    * Z.to_nat (sectors_per_cluster b))%nat)
        \/ r = FAILURE /\ fileClusterStart s = 0 /\ oks = [] /\ st' = st
        \/ r = FAILURE
           /\ fileClusterStart s <> 0
           /\ exists e,
                rd_data e = None
                /\ history st' = history st ++ oks ++ [e]).
Proof.
  intros Hscan Hrun b. unfold spi_sdcard_readFile in Hrun.
  change {| fileClusterStart := 0; fileLength := 0; scan_n := 0 |}
    with scan0 in Hrun.
  rewrite Hscan in Hrun.
  destruct (Z.eqb_spec (fileClusterStart s) 0) as [Hc|Hc].
  - injection Hrun as <- <-.
    exists []. split; [constructor|]. right. left. repeat split. exact Hc.
  - destruct (Z.eqb_spec (fileLength s) 0) as [Hl|Hl].
    + injection Hrun as <- <-.
      exists []. split; [constructor|]. left.
      rewrite app_nil_r. repeat split. exact Hc.
    + fold b in Hrun.
      destruct ((sectors_per_cluster b =? 0) || (sector_size b =? 0));
        [discriminate Hrun|].
      destruct (readFile_clusters _ _ _ _ _) as [r1 st1] eqn:Hloop.
      injection Hrun as <- <-.
      apply readFile_clusters_reads in Hloop. cbv zeta in Hloop.
      fold b in Hloop.
      destruct Hloop as (_ & oks & Hok & Hres).
      exists oks. split; [exact Hok|].
      destruct Hres as [(Hr & Hh & Hlen)|(Hr & e & He & Hh & _)].
      * left. repeat split; assumption.
      * right. right. split; [exact Hr|]. split; [exact Hc|].
        exists e. split; assumption.
Qed.

(** *** What a load may write *)

Lemma readFile_sectors_confined st0 (A L : Z) (todo : nat)
  (sector css br addr : Z) st (res : option (Z * Z)) st' :
  0 < sector_size (sdCardFatBootSector st0) ->
  0 <= A -> A + L + 512 <= 2 ^ 32 ->
  0 <= sdCardSector -> sdCardSector + 512 <= 2 ^ 32 ->
  walk_inv st0 A L st br addr ->
  readFile_sectors todo sector css br addr st = (res, st') ->
  exists br' addr',
    walk_inv st0 A L st' br' addr'
    /\ forall v, res = Some v -> v = (br', addr').
Proof.
  intros Hss HA HAend Hsc Hscend.
  revert sector br addr st.
  induction todo as [|todo IH]; intros sector br addr st Hinv Hrun.
  - cbn [readFile_sectors] in Hrun. injection Hrun as <- <-.
    exists br, addr. split; [exact Hinv|].
    intros v Hv. injection Hv as <-. reflexivity.
  - cbn [readFile_sectors] in Hrun.
    destruct Hinv as (Hg & Hframe & Hbr & Haddr & Hfit).
    destruct (globals_fields _ _ Hg) as (Hb & _ & _).
    rewrite Hb in Hrun.
    destruct (br >? sector_size (sdCardFatBootSector st0)) eqn:Hcmp.
    + apply Z.gtb_lt in Hcmp.
      destruct (readSector_effect (wrap32 (css + sector)) addr st)
        as (d & r0 & Heff & Hdata).
      rewrite Heff in Hrun. destruct r0 as [data|].
      * change (SUCCESS =? FAILURE) with false in Hrun. cbv iota in Hrun.
        destruct (Hdata data eq_refl) as [Hlen _].
        rewrite (wrap32_small (addr + _)) in Hrun by lia.
        apply IH in Hrun; [exact Hrun|].
        split; [exact Hg|]. split; [|lia].
        intros a Ha Hs. cbn [ram after_read set_history set_ram].
        rewrite store_bytes_outside by (rewrite ?Hlen; lia).
        apply Hframe; assumption.
      * change (FAILURE =? FAILURE) with true in Hrun. cbv iota in Hrun.
        injection Hrun as <- <-. exists br, addr.
        split; [|intros v Hv; discriminate Hv].
        split; [exact Hg|]. split; [exact Hframe|]. lia.
    + rewrite Z.gtb_ltb in Hcmp. apply Z.ltb_ge in Hcmp.
      destruct (readSector_effect (wrap32 (css + sector)) sdCardSector st)
        as (d & r0 & Heff & Hdata).
      rewrite Heff in Hrun. destruct r0 as [data|].
      * change (SUCCESS =? FAILURE) with false in Hrun. cbv iota in Hrun.
        destruct (Hdata data eq_refl) as [Hlen _].
        apply IH in Hrun; [exact Hrun|].
        split; [exact Hg|]. split; [|lia].
        intros a Ha Hs. cbn [ram after_read set_history set_ram].
        unfold memcpy.
        rewrite store_bytes_outside
          by (rewrite ?load_bytes_length; lia).
        rewrite store_bytes_outside by (rewrite ?Hlen; lia).
        apply Hframe; assumption.
      * change (FAILURE =? FAILURE) with true in Hrun. cbv iota in Hrun.
        injection Hrun as <- <-. exists br, addr.
        split; [|intros v Hv; discriminate Hv].
        split; [exact Hg|]. split; [exact Hframe|]. lia.
Qed.

Lemma readFile_clusters_confined st0 (A L : Z) (todo : nat)
  (c br addr : Z) st (r : Z) st' :
  0 < sector_size (sdCardFatBootSector st0) ->
  0 <= A -> A + L + 512 <= 2 ^ 32 ->
  0 <= sdCardSector -> sdCardSector + 512 <= 2 ^ 32 ->
  walk_inv st0 A L st br addr ->
  readFile_clusters todo c br addr st = (r, st') ->
  exists br' addr', walk_inv st0 A L st' br' addr'.
Proof.
  intros Hss HA HAend Hsc Hscend.
  revert c br addr st.
  induction todo as [|todo IH]; intros c br addr st Hinv Hrun.
  - cbn [readFile_clusters] in Hrun. injection Hrun as <- <-.
    exists br, addr. exact Hinv.
  - cbn [readFile_clusters] in Hrun.
    destruct (readFile_sectors _ _ _ _ _ _) as [res st1] eqn:Hsec.
    apply (readFile_sectors_confined st0 A L) in Hsec; try assumption.
    destruct Hsec as (br1 & addr1 & Hinv1 & Hres).
    destruct res as [[br2 addr2]|].
    + specialize (Hres _ eq_refl). injection Hres as -> ->.
      apply IH in Hrun; assumption.
    + injection Hrun as <- <-. exists br1, addr1. exact Hinv1.
Qed.

(** X10.  Whether the load succeeds or a read fails on the way,
    [spi_sdcard_readFile] writes nowhere but to the sector buffer and to
    the destination: the bytes of the file found and at most one sector
    of 512 bytes behind them.  The destination is assumed not to wrap
    around. *)
Theorem readFile_writes_confined st (fuel : nat) (filename ext : string)
  (address : Z) s (r : Z) st' :
  readFile_scan fuel st filename ext scan0 = Some s ->
  spi_sdcard_readFile fuel filename ext address st = Done r st' ->
  0 <= sector_size (sdCardFatBootSector st) ->
  0 <= address -> address + fileLength s + 512 <= 2 ^ 32 ->
  0 <= sdCardSector -> sdCardSector + 512 <= 2 ^ 32 ->
  forall a,
    ~ (address <= a < address + fileLength s + 512) ->
    ~ (sdCardSector <= a < sdCardSector + 512) ->
    ram st' a = ram st a.
Proof.
  intros Hscan Hrun Hss HA HAend Hsc Hscend a Ha Hs.
  unfold spi_sdcard_readFile in Hrun.
  change {| fileClusterStart := 0; fileLength := 0; scan_n := 0 |}
    with scan0 in Hrun.
  rewrite Hscan in Hrun.
  destruct (readFile_scan_outcome _ _ _ _ _ Hscan) as [[Hz _]|[Hnz Hfound]].
  { rewrite Hz in Hrun. cbn [Z.eqb] in Hrun. injection Hrun as _ <-.
    reflexivity. }
  apply Z.eqb_neq in Hnz. rewrite Hnz in Hrun.
  destruct (Z.eqb_spec (fileLength s) 0) as [HL|HL].
  { injection Hrun as _ <-. reflexivity. }
  destruct (Z.eqb_spec (sectors_per_cluster (sdCardFatBootSector st)) 0)
    as [E1|E1]; [discriminate Hrun|].
  destruct (Z.eqb_spec (sector_size (sdCardFatBootSector st)) 0)
    as [E2|E2]; [discriminate Hrun|].
  cbn [orb] in Hrun.
  destruct Hfound as (_ & _ & Hlen).
  assert (HLr : 0 <= fileLength s < 2 ^ 32)
    by (rewrite Hlen; apply load32_range).
  rewrite (wrap32_small address) in Hrun by lia.
  destruct (readFile_clusters _ _ _ _ _) as [r1 st1] eqn:Hloop.
  injection Hrun as _ <-.
  apply (readFile_clusters_confined st address (fileLength s)) in Hloop;
    try assumption; try lia; [|apply walk_inv_start; lia].
  destruct Hloop as (br' & addr' & _ & Hframe & _).
  apply Hframe; assumption.
Qed.

End FileErrors.

Section VolumeErrors.

Context {C : Type} {Card : SpiCard C} {board : Board}.

Implicit Types (st : state (C := C)).

(** *** The reads of the sector loops *)

Lemma readMBR_sectors_reads (todo : nat) (n first buffer : Z) st (r : Z) st' :
  readMBR_sectors todo n first buffer st = (r, st') ->
  globals st' = globals st
  /\ exists new,
       history st' = history st ++ new
       /\ (r = SUCCESS /\ Forall read_ok new /\ List.length new = todo
           \/ r = FAILURE /\ ends_failed new).
Proof.
  revert n st. induction todo as [|todo IH]; intros n st Hrun.
  - cbn [readMBR_sectors] in Hrun. unfold ret in Hrun.
    injection Hrun as <- <-. split; [reflexivity|].
    exists []. rewrite app_nil_r. split; [reflexivity|].
    left. split; [reflexivity|]. split; [constructor|reflexivity].
  - cbn [readMBR_sectors] in Hrun.
    destruct (readSector_effect (wrap32 (first + n))
                (wrap32 (buffer + sector_size (sdCardFatBootSector st) * n))
                st) as (d & res & Heff & _).
    rewrite Heff in Hrun. destruct res as [data|].
    + change (SUCCESS =? FAILURE) with false in Hrun. cbv iota in Hrun.
      apply IH in Hrun. destruct Hrun as (Hg & new & Hhist & Hres).
      split; [rewrite Hg; reflexivity|].
      eexists (_ :: new). split.
      * rewrite Hhist, history_after_read, <- app_assoc. reflexivity.
      * destruct Hres as [(Hr & Hok & Hlen)|(Hr & oks & e & Hnew & Hok & He)].
        -- left. split; [exact Hr|]. split.
           ++ constructor; [intros H; discriminate H|exact Hok].
           ++ cbn [List.length]. rewrite Hlen. reflexivity.
        -- right. split; [exact Hr|]. eexists (_ :: oks), e.
           split; [rewrite Hnew; reflexivity|]. split; [|exact He].
           constructor; [intros H; discriminate H|exact Hok].
    + change (FAILURE =? FAILURE) with true in Hrun. cbv iota in Hrun.
      injection Hrun as <- <-. split; [reflexivity|].
      eexists. split; [apply history_after_read|]. right.
      split; [reflexivity|]. eexists [], _.
      split; [reflexivity|]. split; [constructor|reflexivity].
Qed.

Lemma ends_failed_app (oks new : list sector_read) :
  Forall read_ok oks -> ends_failed new -> ends_failed (oks ++ new).
Proof.
  intros Hok (oks' & e & -> & Hok' & He).
  exists (oks ++ oks'), e. rewrite app_assoc.
  split; [reflexivity|]. split; [|exact He].
  apply Forall_app. split; assumption.
Qed.

(** *** The stages of [spi_sdcard_readMBR] *)

Lemma readMBR_rootDir_outcome st :
  let b := sdCardFatBootSector st in
  match readMBR_rootDir st with
  | OutOfFuel => False
  | Undefined => sector_size b = 0
  | Done r st' =>
      sector_size b <> 0
      /\ sdCardPartition st' = sdCardPartition st
      /\ sdCardFatBootSector st' = b
      /\ sdCardFatTable st' = sdCardFatTable st
      /\ fatSectorStart st' = fatSectorStart st
      /\ exists new,
           history st' = history st ++ new
           /\ (r = SUCCESS /\ Forall read_ok new
               /\ List.length new = Z.to_nat (rootDirSectors b)
               \/ r = FAILURE /\ ends_failed new)
  end.
Proof.
  intros b. unfold readMBR_rootDir. fold b.
  destruct (Z.eqb_spec (sector_size b) 0) as [E|E]; [exact E|].
  destruct (readMBR_sectors _ _ _ _ _) as [r st3] eqn:Hloop.
  apply readMBR_sectors_reads in Hloop.
  destruct Hloop as (Hg & new & Hhist & Hres).
  unfold globals in Hg.
  cbn [sdCardPartition sdCardFatBootSector sdCardFat16RootDir sdCardFatTable
       fatSectorStart rootDirSectorStart set_rootDirSectorStart
       set_sdCardFat16RootDir history] in Hg, Hhist.
  injection Hg as Hg1 Hg2 _ Hg4 Hg5 _.
  destruct Hres as [(-> & Hok & Hlen)|(-> & Hfail)].
  - change (SUCCESS =? FAILURE) with false. cbv iota.
    repeat (split; [assumption|]). exists new. split; [exact Hhist|].
    left. split; [reflexivity|]. split; assumption.
  - change (FAILURE =? FAILURE) with true. cbv iota.
    repeat (split; [assumption|]). exists new. split; [exact Hhist|].
    right. split; [reflexivity|exact Hfail].
Qed.

Lemma readMBR_fatTable_outcome st :
  let b := sdCardFatBootSector st in
  match readMBR_fatTable st with
  | OutOfFuel => False
  | Undefined => sector_size b = 0
  | Done r st' =>
      sdCardPartition st' = sdCardPartition st
      /\ sdCardFatBootSector st' = b
      /\ sdCardFatTable st'
         = wrap32 (MAIN_RAM_BASE + MAIN_RAM_SIZE
                   - sector_size b * fat_size_sectors b)
      /\ fatSectorStart st'
         = wrap32 (start_sector (sdCardPartition st) + reserved_sectors b)
      /\ exists new,
           history st' = history st ++ new
           /\ (r = SUCCESS /\ sector_size b <> 0 /\ Forall read_ok new
               /\ List.length new
                  = (Z.to_nat (fat_size_sectors b)
                     + Z.to_nat (rootDirSectors b))%nat
               \/ r = FAILURE /\ ends_failed new)
  end.
Proof.
  intros b. unfold readMBR_fatTable. fold b.
  destruct (readMBR_sectors _ _ _ _ _) as [r st3] eqn:Hloop.
  apply readMBR_sectors_reads in Hloop.
  destruct Hloop as (Hg & fat_reads & Hhist & Hres).
  unfold globals in Hg.
  cbn [sdCardPartition sdCardFatBootSector sdCardFat16RootDir sdCardFatTable
       fatSectorStart rootDirSectorStart set_fatSectorStart
       set_sdCardFatTable history] in Hg, Hhist.
  injection Hg as Hg1 Hg2 _ Hg4 Hg5 _.
  destruct Hres as [(-> & Hok & Hlen)|(-> & Hfail)].
  - change (SUCCESS =? FAILURE) with false. cbv iota.
    pose proof (readMBR_rootDir_outcome st3) as Hdir. cbv zeta in Hdir.
    rewrite Hg2 in Hdir. fold b in Hdir.
    destruct (readMBR_rootDir st3) as [r st'| |];
      [|exact Hdir|exact Hdir].
    destruct Hdir as (Hss & Hp & Hb & Hfat & Hfs & dir_reads & Hh & Hres).
    split; [rewrite Hp; exact Hg1|]. split; [exact Hb|].
    split; [rewrite Hfat; exact Hg4|]. split; [rewrite Hfs; exact Hg5|].
    exists (fat_reads ++ dir_reads).
    split; [rewrite Hh, Hhist, app_assoc; reflexivity|].
    destruct Hres as [(-> & Hok' & Hlen')|(-> & Hfail)].
    + left. split; [reflexivity|]. split; [exact Hss|]. split.
      * apply Forall_app. split; assumption.
      * rewrite length_app, Hlen, Hlen'. reflexivity.
    + right. split; [reflexivity|]. apply ends_failed_app; assumption.
  - change (FAILURE =? FAILURE) with true. cbv iota.
    repeat (split; [assumption|]). exists fat_reads.
    split; [exact Hhist|]. right. split; [reflexivity|exact Hfail].
Qed.

Lemma readMBR_head st :
  exists d0 res0,
    let st1 := after_read 0 sdCardSector d0 res0 st in
    readSector 0 sdCardSector st
    = (match res0 with Some _ => SUCCESS | None => FAILURE end, st1)
    /\ match res0 with
       | None => spi_sdcard_readMBR st = Done FAILURE st1
       | Some mbr =>
           let p := read_PartitionTable (ram st1) (sdCardSector + 0x1be) in
           let st2 := set_sdCardPartition p st1 in
           List.length mbr = 512%nat /\ Forall is_byte mbr
           /\ (~ valid_partition p
               /\ spi_sdcard_readMBR st = Done FAILURE st2
               \/ valid_partition p
                  /\ exists d1 res1,
                       let st3 :=
                         after_read (start_sector p) sdCardSector d1 res1
                           st2 in
                       readSector (start_sector p) sdCardSector st2
                       = (match res1 with
                          | Some _ => SUCCESS
                          | None => FAILURE
                          end, st3)
                       /\ match res1 with
                          | None => spi_sdcard_readMBR st = Done FAILURE st3
                          | Some boot =>
                              let b :=
                                read_Fat16BootSector (ram st3) sdCardSector in
                              let st4 := set_sdCardFatBootSector b st3 in
                              List.length boot = 512%nat
                              /\ Forall is_byte boot
                              /\ (total_sectors_long b = 0
                                  /\ spi_sdcard_readMBR st = Done FAILURE st4
                                  \/ total_sectors_long b <> 0
                                     /\ spi_sdcard_readMBR st
                                        = readMBR_fatTable st4)
                          end)
       end.
Proof.
  destruct (readSector_effect 0 sdCardSector st) as (d0 & res0 & Heff0 & H0).
  exists d0, res0. cbv zeta. split; [exact Heff0|].
  unfold spi_sdcard_readMBR, readMBR_partition. rewrite Heff0.
  destruct res0 as [mbr|]; [|reflexivity].
  change (SUCCESS =? SUCCESS) with true. cbv iota.
  cbn [sdCardPartition set_sdCardPartition].
  set (st1 := after_read 0 sdCardSector d0 (Some mbr) st).
  set (p := read_PartitionTable (ram st1) (sdCardSector + 0x1be)).
  destruct (H0 mbr eq_refl) as [Hlen0 Hb0].
  split; [exact Hlen0|]. split; [exact Hb0|].
  assert (Hvalid : valid_partition p
                   <-> (negb (first_byte p =? 0x80)
                        && negb (first_byte p =? 0x00) = false
                        /\ (partition_type p =? 4) || (partition_type p =? 6)
                           || (partition_type p =? 14) = true)).
  { unfold valid_partition.
    destruct (Z.eqb_spec (first_byte p) 0x80);
      destruct (Z.eqb_spec (first_byte p) 0x00);
      destruct (Z.eqb_spec (partition_type p) 4);
      destruct (Z.eqb_spec (partition_type p) 6);
      destruct (Z.eqb_spec (partition_type p) 14);
      cbn [negb andb orb]; split; intros H;
      first [split; reflexivity
            |split; [tauto|tauto]
            |exfalso; destruct H as [H1 H2];
             first [discriminate H1|discriminate H2|tauto]]. }
  destruct (negb (first_byte p =? 0x80) && negb (first_byte p =? 0x00))
    eqn:Efirst.
  { left. split; [|reflexivity]. intros Hv. apply Hvalid in Hv.
    destruct Hv as [Hv _]. discriminate Hv. }
  destruct ((partition_type p =? 4) || (partition_type p =? 6)
            || (partition_type p =? 14)) eqn:Etype.
  2:{ left. split; [|reflexivity]. intros Hv. apply Hvalid in Hv.
      destruct Hv as [_ Hv]. discriminate Hv. }
  right. split; [apply Hvalid; split; reflexivity|].
  unfold readMBR_bootSector. cbn [sdCardPartition set_sdCardPartition].
  destruct (readSector_effect (start_sector p) sdCardSector
              (set_sdCardPartition p st1)) as (d1 & res1 & Heff1 & H1).
  exists d1, res1. split; [exact Heff1|]. rewrite Heff1.
  destruct res1 as [boot|]; [|reflexivity].
  change (SUCCESS =? SUCCESS) with true. cbv iota.
  destruct (H1 boot eq_refl) as [Hlen1 Hb1].
  split; [exact Hlen1|]. split; [exact Hb1|].
  cbn [sdCardFatBootSector set_sdCardFatBootSector].
  destruct (Z.eqb_spec
              (total_sectors_long
                 (read_Fat16BootSector
                    (ram (after_read (start_sector p) sdCardSector d1
                            (Some boot) (set_sdCardPartition p st1)))
                    sdCardSector)) 0) as [E|E].
  - left. split; [exact E|reflexivity].
  - right. split; [exact E|reflexivity].
Qed.

Lemma readMBR_success_run st st' :
  spi_sdcard_readMBR st = Done SUCCESS st' ->
  exists d0 mbr d1 boot,
    let st1 := after_read 0 sdCardSector d0 (Some mbr) st in
    let p := read_PartitionTable (ram st1) (sdCardSector + 0x1be) in
    let st2 := set_sdCardPartition p st1 in
    let st3 := after_read (start_sector p) sdCardSector d1 (Some boot) st2 in
    let b := read_Fat16BootSector (ram st3) sdCardSector in
    let st4 := set_sdCardFatBootSector b st3 in
    List.length mbr = 512%nat /\ Forall is_byte mbr
    /\ List.length boot = 512%nat /\ Forall is_byte boot
    /\ valid_partition p
    /\ total_sectors_long b <> 0
    /\ readMBR_fatTable st4 = Done SUCCESS st'.
Proof.
  intros Hrun.
  destruct (readMBR_head st) as (d0 & res0 & _ & Hcase).
  destruct res0 as [mbr|];
    [|rewrite Hrun in Hcase; discriminate Hcase].
  cbv zeta in Hcase.
  destruct Hcase as (Hlen0 & Hb0 & [[_ H]|[Hv (d1 & res1 & _ & Hcase)]]);
    [rewrite Hrun in H; discriminate H|].
  destruct res1 as [boot|];
    [|rewrite Hrun in Hcase; discriminate Hcase].
  destruct Hcase as (Hlen1 & Hb1 & [[_ H]|[Ht H]]);
    [rewrite Hrun in H; discriminate H|].
  exists d0, mbr, d1, boot. cbv zeta.
  repeat (split; [assumption|]). rewrite <- H. exact Hrun.
Qed.

(** X11.  When [spi_sdcard_readMBR] returns [SUCCESS], the entry of
    partition 1 has passed the validation, the boot sector declares a
    nonzero total of sectors and a nonzero sector size, the allocation
    table was read from sector (partition start + reserved sectors) into
    the buffer that ends at the top of main RAM, and every sector read of
    the call succeeded: two for sector 0 and the boot sector, one for each
    sector of the allocation table, one for each whole sector of the root
    directory. *)
Theorem readMBR_success_conditions st st' :
  spi_sdcard_readMBR st = Done SUCCESS st' ->
  let p := sdCardPartition st' in
  let b := sdCardFatBootSector st' in
  valid_partition p
  /\ total_sectors_long b <> 0
  /\ 0 < sector_size b
  /\ fatSectorStart st' = wrap32 (start_sector p + reserved_sectors b)
  /\ sdCardFatTable st'
     = wrap32 (MAIN_RAM_BASE + MAIN_RAM_SIZE
               - sector_size b * fat_size_sectors b)
  /\ exists new,
       history st' = history st ++ new
       /\ Forall read_ok new
       /\ List.length new
          = (2 + Z.to_nat (fat_size_sectors b)
             + Z.to_nat (rootDirSectors b))%nat.
Proof.
  intros Hrun.
  destruct (readMBR_success_run _ _ Hrun)
    as (d0 & mbr & d1 & boot & _ & _ & _ & _ & Hv & Ht & Hfat).
  match type of Hfat with
  | readMBR_fatTable ?s = _ =>
      pose proof (readMBR_fatTable_outcome s) as Hout
  end.
  cbv zeta in Hout. rewrite Hfat in Hout.
  destruct Hout as (Hp & Hb & Htab & Hfs & new & Hh & Hres).
  destruct Hres as [(_ & Hss & Hok & Hlen)|(H & _)]; [|discriminate H].
  cbn [sdCardPartition sdCardFatBootSector set_sdCardFatBootSector
       set_sdCardPartition after_read set_history set_ram set_dev history]
    in Hp, Hb, Htab, Hfs, Hh, Hss, Hlen.
  cbv zeta. rewrite Hp, Hb.
  split; [exact Hv|]. split; [exact Ht|]. split.
  { match goal with
    | |- 0 < sector_size (read_Fat16BootSector ?m ?a) =>
        pose proof (load16_range m (a + 11)) as Hr;
        change (load16 m (a + 11))
          with (sector_size (read_Fat16BootSector m a)) in Hr
    end.
    lia. }
  split; [exact Hfs|]. split; [exact Htab|].
  eexists (_ :: _ :: new). split.
  { rewrite Hh, <- !app_assoc. reflexivity. }
  split.
  - constructor; [intros H; discriminate H|].
    constructor; [intros H; discriminate H|exact Hok].
  - cbn [List.length]. rewrite Hlen. reflexivity.
Qed.

(** X12.  When [spi_sdcard_readMBR] returns [FAILURE] it is for one of
    three reasons: a sector read failed, and it is the last read of the
    call, every read before it having succeeded; or sector 0 was read and
    the entry of partition 1 did not pass the validation, and nothing else
    was read; or sector 0 and the boot sector were read, the entry is
    valid, the boot sector declares a total of zero sectors, and nothing
    else was read. *)
Theorem readMBR_failure_causes st st' :
  spi_sdcard_readMBR st = Done FAILURE st' ->
  exists new,
    history st' = history st ++ new
    /\ (ends_failed new
        \/ (exists e0,
              new = [e0] /\ read_ok e0
              /\ ~ valid_partition (sdCardPartition st'))
        \/ (exists e0 e1,
              new = [e0; e1] /\ read_ok e0 /\ read_ok e1
              /\ valid_partition (sdCardPartition st')
              /\ total_sectors_long (sdCardFatBootSector st') = 0)).
Proof.
  intros Hrun.
  destruct (readMBR_head st) as (d0 & res0 & _ & Hcase).
  destruct res0 as [mbr|].
  2:{ rewrite Hrun in Hcase. injection Hcase as ->.
      eexists. split; [apply history_after_read|]. left.
      eexists [], _. split; [reflexivity|].
      split; [constructor|reflexivity]. }
  cbv zeta in Hcase.
  destruct Hcase as (_ & _ & [[Hnv H]|[Hv (d1 & res1 & _ & Hcase)]]).
  { rewrite Hrun in H. injection H as ->.
    eexists. split; [apply history_after_read|]. right. left.
    eexists. split; [reflexivity|].
    split; [intros H; discriminate H|exact Hnv]. }
  destruct res1 as [boot|].
  2:{ rewrite Hrun in Hcase. injection Hcase as ->.
      eexists [_; _]. split.
      { rewrite history_after_read. cbn [history set_sdCardPartition].
        rewrite history_after_read, <- app_assoc. reflexivity. }
      left. eexists [_], _. split; [reflexivity|]. split; [|reflexivity].
      constructor; [intros H; discriminate H|constructor]. }
  destruct Hcase as (_ & _ & [[Ht H]|[Ht H]]).
  { rewrite Hrun in H. injection H as ->.
    eexists [_; _]. split.
    { cbn [history set_sdCardFatBootSector].
      rewrite history_after_read. cbn [history set_sdCardPartition].
      rewrite history_after_read, <- app_assoc. reflexivity. }
    right. right. eexists _, _. split; [reflexivity|].
    split; [intros H; discriminate H|].
    split; [intros H; discriminate H|].
    split; [exact Hv|exact Ht]. }
  rewrite Hrun in H. symmetry in H.
  match type of H with
  | readMBR_fatTable ?s = _ =>
      pose proof (readMBR_fatTable_outcome s) as Hout
  end.
  cbv zeta in Hout. rewrite H in Hout.
  destruct Hout as (_ & _ & _ & _ & new & Hh & Hres).
  destruct Hres as [(Hs & _)|(_ & Hfail)]; [discriminate Hs|].
  cbn [history set_sdCardFatBootSector set_sdCardPartition after_read
       set_history set_ram set_dev] in Hh.
  eexists (_ :: _ :: new). split.
  { rewrite Hh, <- !app_assoc. reflexivity. }
  left.
  apply (ends_failed_app [_; _]); [|exact Hfail].
  constructor; [intros H0; discriminate H0|].
  constructor; [intros H0; discriminate H0|constructor].
Qed.

(** *** The bytes behind the structures *)

Lemma after_read_byte_at (s p : Z) d (data : list Z) st (a i : Z) :
  List.length data = 512%nat -> Forall is_byte data ->
  0 <= i < 512 -> a = p + i ->
  load8 (ram (after_read s p d (Some data) st)) a = byte_at data i.
Proof.
  intros Hlen Hbytes Hi ->. unfold load8, byte_at.
  cbn [ram after_read set_history set_ram].
  rewrite store_bytes_written by (rewrite Hlen; lia).
  assert (Hb : is_byte (nth (Z.to_nat i) data 0)).
  { pose proof Hbytes as Hall. rewrite Forall_forall in Hall.
    apply Hall, nth_In. lia. }
  rewrite !(wrap8_byte _ Hb). reflexivity.
Qed.

Lemma after_read_le16_at (s p : Z) d (data : list Z) st (a i : Z) :
  List.length data = 512%nat -> Forall is_byte data ->
  0 <= i < 511 -> a = p + i ->
  load16 (ram (after_read s p d (Some data) st)) a = le16_at data i.
Proof.
  intros Hlen Hbytes Hi ->. unfold load16, le16_at.
  rewrite (after_read_byte_at s p d data st _ i) by (assumption || lia).
  rewrite (after_read_byte_at s p d data st _ (i + 1))
    by (assumption || lia).
  reflexivity.
Qed.

Lemma after_read_le32_at (s p : Z) d (data : list Z) st (a i : Z) :
  List.length data = 512%nat -> Forall is_byte data ->
  0 <= i < 509 -> a = p + i ->
  load32 (ram (after_read s p d (Some data) st)) a = le32_at data i.
Proof.
  intros Hlen Hbytes Hi ->. unfold load32, le32_at.
  rewrite (after_read_byte_at s p d data st _ i) by (assumption || lia).
  rewrite (after_read_byte_at s p d data st _ (i + 1))
    by (assumption || lia).
  rewrite (after_read_byte_at s p d data st _ (i + 2))
    by (assumption || lia).
  rewrite (after_read_byte_at s p d data st _ (i + 3))
    by (assumption || lia).
  reflexivity.
Qed.

Lemma byte_at_range (l : list Z) (i : Z) :
  Forall is_byte l -> 0 <= byte_at l i < 2 ^ 8.
Proof.
  intros Hall. unfold byte_at.
  destruct (nth_in_or_default (Z.to_nat i) l 0) as [Hin|E]; [|rewrite E; lia].
  rewrite Forall_forall in Hall. exact (Hall _ Hin).
Qed.

(** X13.  When [spi_sdcard_readMBR] returns [SUCCESS], the fields it has
    worked with are bytes of the card: the first read of the call is
    sector 0, and the status byte, the type and the first sector of
    partition 1 are its bytes [0x1be], [0x1c2] and [0x1c6..0x1c9]; the
    second read is that first sector, and the sector size, the sectors
    per cluster, the reserved sectors, the number of tables, the number
    of root directory entries, the table size and the long total of
    sectors are its bytes 11-12, 13, 14-15, 16, 17-18, 22-23 and 32-35,
    multi-byte values least significant byte first. *)
Theorem readMBR_decodes_card st st' :
  spi_sdcard_readMBR st = Done SUCCESS st' ->
  let p := sdCardPartition st' in
  let b := sdCardFatBootSector st' in
  exists mbr boot rest,
    history st'
    = history st
      ++ {| rd_sector := 0; rd_storage := sdCardSector;
            rd_data := Some mbr |}
      :: {| rd_sector := le32_at mbr 0x1c6; rd_storage := sdCardSector;
            rd_data := Some boot |}
      :: rest
    /\ first_byte p = byte_at mbr 0x1be
    /\ partition_type p = byte_at mbr 0x1c2
    /\ start_sector p = le32_at mbr 0x1c6
    /\ sector_size b = le16_at boot 11
    /\ sectors_per_cluster b = byte_at boot 13
    /\ reserved_sectors b = le16_at boot 14
    /\ number_of_fats b = byte_at boot 16
    /\ root_dir_entries b = le16_at boot 17
    /\ fat_size_sectors b = le16_at boot 22
    /\ total_sectors_long b = le32_at boot 32.
Proof.
  intros Hrun.
  destruct (readMBR_success_run _ _ Hrun)
    as (d0 & mbr & d1 & boot & Hl0 & Hb0 & Hl1 & Hb1 & _ & _ & Hfat).
  match type of Hfat with
  | readMBR_fatTable ?s = _ =>
      pose proof (readMBR_fatTable_outcome s) as Hout
  end.
  cbv zeta in Hout. rewrite Hfat in Hout.
  destruct Hout as (Hp & Hb & _ & _ & new & Hh & _).
  cbn [sdCardPartition sdCardFatBootSector set_sdCardFatBootSector
       set_sdCardPartition after_read set_history set_ram set_dev history]
    in Hp, Hb, Hh.
  cbv zeta. rewrite Hp, Hb.
  assert (Hstart : start_sector
                     (read_PartitionTable
                        (ram (after_read 0 sdCardSector d0 (Some mbr) st))
                        (sdCardSector + 0x1be))
                   = le32_at mbr 0x1c6).
  { cbn [start_sector read_PartitionTable].
    apply (after_read_le32_at 0 sdCardSector d0 mbr st _ 0x1c6);
      [exact Hl0|exact Hb0|lia|ring]. }
  exists mbr, boot, new. split.
  { rewrite Hh, <- !app_assoc, Hstart. reflexivity. }
  split.
  { apply (after_read_byte_at 0 sdCardSector d0 mbr st _ 0x1be);
      [exact Hl0|exact Hb0|lia|ring]. }
  split.
  { apply (after_read_byte_at 0 sdCardSector d0 mbr st _ 0x1c2);
      [exact Hl0|exact Hb0|lia|ring]. }
  split; [exact Hstart|].
  cbn [sector_size sectors_per_cluster reserved_sectors number_of_fats
       root_dir_entries fat_size_sectors total_sectors_long
       read_Fat16BootSector].
  split.
  { apply (after_read_le16_at _ sdCardSector d1 boot _ _ 11);
      [exact Hl1|exact Hb1|lia|ring]. }
  split.
  { apply (after_read_byte_at _ sdCardSector d1 boot _ _ 13);
      [exact Hl1|exact Hb1|lia|ring]. }
  split.
  { apply (after_read_le16_at _ sdCardSector d1 boot _ _ 14);
      [exact Hl1|exact Hb1|lia|ring]. }
  split.
  { apply (after_read_byte_at _ sdCardSector d1 boot _ _ 16);
      [exact Hl1|exact Hb1|lia|ring]. }
  split.
  { apply (after_read_le16_at _ sdCardSector d1 boot _ _ 17);
      [exact Hl1|exact Hb1|lia|ring]. }
  split.
  { apply (after_read_le16_at _ sdCardSector d1 boot _ _ 22);
      [exact Hl1|exact Hb1|lia|ring]. }
  apply (after_read_le32_at _ sdCardSector d1 boot _ _ 32);
      [exact Hl1|exact Hb1|lia|ring].
Qed.

(** X14.  [spi_sdcard_readMBR] divides by the sector size that the boot
    sector declares, without a check.  The division is by zero only on a
    card on which sector 0 and the boot sector could be read, the entry
    of partition 1 is valid, the boot sector declares a nonzero long
    total of sectors, and bytes 11 and 12 of the boot sector, the sector
    size, are both zero. *)
Theorem readMBR_zero_sector_size st :
  spi_sdcard_readMBR st = Undefined ->
  exists d0 mbr d1 boot,
    let st1 := after_read 0 sdCardSector d0 (Some mbr) st in
    let p := read_PartitionTable (ram st1) (sdCardSector + 0x1be) in
    let st2 := set_sdCardPartition p st1 in
    let st3 := after_read (start_sector p) sdCardSector d1 (Some boot) st2 in
    readSector 0 sdCardSector st = (SUCCESS, st1)
    /\ readSector (start_sector p) sdCardSector st2 = (SUCCESS, st3)
    /\ valid_partition p
    /\ le32_at boot 32 <> 0
    /\ byte_at boot 11 = 0 /\ byte_at boot 12 = 0.
Proof.
  intros Hrun.
  destruct (readMBR_head st) as (d0 & res0 & Hr0 & Hcase).
  destruct res0 as [mbr|];
    [|rewrite Hrun in Hcase; discriminate Hcase].
  cbv zeta in Hcase, Hr0.
  destruct Hcase as (Hl0 & Hb0 & [[_ H]|[Hv (d1 & res1 & Hr1 & Hcase)]]);
    [rewrite Hrun in H; discriminate H|].
  destruct res1 as [boot|];
    [|rewrite Hrun in Hcase; discriminate Hcase].
  destruct Hcase as (Hl1 & Hb1 & [[_ H]|[Ht H]]);
    [rewrite Hrun in H; discriminate H|].
  exists d0, mbr, d1, boot. cbv zeta.
  split; [exact Hr0|]. split; [exact Hr1|]. split; [exact Hv|].
  rewrite Hrun in H. symmetry in H.
  match type of H with
  | readMBR_fatTable ?s = _ =>
      pose proof (readMBR_fatTable_outcome s) as Hout
  end.
  cbv zeta in Hout. rewrite H in Hout.
  cbn [sdCardFatBootSector set_sdCardFatBootSector] in Hout.
  cbn [total_sectors_long sector_size read_Fat16BootSector] in Ht, Hout.
  rewrite (after_read_le32_at _ sdCardSector d1 boot _ _ 32 Hl1 Hb1)
    in Ht by (lia || ring).
  rewrite (after_read_le16_at _ sdCardSector d1 boot _ _ 11 Hl1 Hb1)
    in Hout by (lia || ring).
  split; [exact Ht|].
  unfold le16_at in Hout.
  pose proof (byte_at_range boot 11 Hb1) as R1.
  pose proof (byte_at_range boot 12 Hb1) as R2.
  change (11 + 1) with 12 in Hout. lia.
Qed.

End VolumeErrors.

Section VolumeTables.

Context {C : Type} {Card : SpiCard C} {board : Board}.

Implicit Types (st : state (C := C)).

(** *** A sector loop of [spi_sdcard_readMBR] with 512-byte sectors *)

Lemma readMBR_sectors_loaded (todo start : nat) (first buffer : Z) st st' :
  sector_size (sdCardFatBootSector st) = 512 ->
  0 <= buffer -> buffer + 512 * Z.of_nat (start + todo) <= 2 ^ 32 ->
  readMBR_sectors todo (Z.of_nat start) first buffer st = (SUCCESS, st') ->
  exists new,
    history st' = history st ++ new
    /\ map rd_sector new
       = map (fun i => wrap32 (first + Z.of_nat i)) (seq start todo)
    /\ Z.of_nat (List.length (payload new)) = 512 * Z.of_nat todo
    /\ Forall is_byte (payload new)
    /\ (forall i, 0 <= i < 512 * Z.of_nat todo ->
          ram st' (buffer + 512 * Z.of_nat start + i)
          = byte_at (payload new) i)
    /\ (forall a,
          ~ (buffer + 512 * Z.of_nat start <= a
             < buffer + 512 * Z.of_nat (start + todo)) ->
          ram st' a = ram st a).
Proof.
  revert start st.
  induction todo as [|todo IH]; intros start st Hss Hbuf Hend Hrun.
  - cbn [readMBR_sectors] in Hrun. unfold ret in Hrun.
    injection Hrun as <-. exists []. rewrite app_nil_r.
    split; [reflexivity|]. split; [reflexivity|].
    split; [reflexivity|]. split; [constructor|].
    split; [intros i Hi; lia|intros a _; reflexivity].
  - cbn [readMBR_sectors] in Hrun. rewrite Hss in Hrun.
    rewrite (wrap32_small (buffer + _)) in Hrun by lia.
    destruct (readSector_effect (wrap32 (first + Z.of_nat start))
                (buffer + 512 * Z.of_nat start) st)
      as (d & res & Heff & Hdata).
    rewrite Heff in Hrun. destruct res as [data|];
      [|change (FAILURE =? FAILURE) with true in Hrun; cbv iota in Hrun;
        discriminate Hrun].
    change (SUCCESS =? FAILURE) with false in Hrun. cbv iota in Hrun.
    destruct (Hdata data eq_refl) as [Hlen Hbytes].
    replace (Z.of_nat start + 1) with (Z.of_nat (S start)) in Hrun by lia.
    apply IH in Hrun; [|exact Hss|exact Hbuf|lia].
    destruct Hrun as (new & Hh & Hsec & Hpl & Hpb & Hmem & Hframe).
    exists ({| rd_sector := wrap32 (first + Z.of_nat start);
               rd_storage := buffer + 512 * Z.of_nat start;
               rd_data := Some data |} :: new).
    assert (Hpay : payload
                     ({| rd_sector := wrap32 (first + Z.of_nat start);
                         rd_storage := buffer + 512 * Z.of_nat start;
                         rd_data := Some data |} :: new)
                   = data ++ payload new) by reflexivity.
    rewrite Hpay.
    split; [rewrite Hh, history_after_read, <- app_assoc; reflexivity|].
    split; [cbn [map seq rd_sector]; f_equal; exact Hsec|].
    split; [rewrite length_app; lia|].
    split; [apply Forall_app; split; assumption|].
    split.
    + intros i Hi. unfold byte_at.
      destruct (Z.lt_ge_cases i 512) as [Hlt|Hge].
      * rewrite Hframe by lia.
        cbn [ram after_read set_history set_ram].
        rewrite store_bytes_inside by (rewrite ?Hlen; lia).
        rewrite app_nth1 by lia.
        apply wrap8_byte, nth_is_byte; [exact Hbytes|lia].
      * replace (buffer + 512 * Z.of_nat start + i)
          with (buffer + 512 * Z.of_nat (S start) + (i - 512)) by lia.
        rewrite Hmem by lia. unfold byte_at.
        rewrite app_nth2 by lia. f_equal. lia.
    + intros a Ha. rewrite Hframe by lia.
      cbn [ram after_read set_history set_ram].
      apply store_bytes_outside; rewrite ?Hlen; lia.
Qed.

Lemma load8_ram (m : memory) (a : Z) (v : Z) :
  0 <= a < 2 ^ 32 -> m a = v -> is_byte v -> load8 m a = v.
Proof.
  intros Ha <- Hv. unfold load8. rewrite wrap32_small by exact Ha.
  apply wrap8_byte, Hv.
Qed.

Lemma byte_at_is_byte (l : list Z) (i : Z) :
  Forall is_byte l -> 0 <= i < Z.of_nat (List.length l) ->
  is_byte (byte_at l i).
Proof.
  intros Hall Hi. unfold byte_at. apply nth_is_byte; [exact Hall|lia].
Qed.

(** *** The tables after [spi_sdcard_readMBR] *)

Lemma readMBR_fatTable_loaded st st' :
  readMBR_fatTable st = Done SUCCESS st' ->
  let b := sdCardFatBootSector st in
  sector_size b = 512 ->
  0 <= fat_size_sectors b -> 0 <= root_dir_entries b ->
  MAIN_RAM_BASE + MAIN_RAM_SIZE <= 2 ^ 32 ->
  0 <= MAIN_RAM_BASE + MAIN_RAM_SIZE
       - 512 * fat_size_sectors b - 32 * root_dir_entries b ->
  exists fat_reads dir_reads,
    history st' = history st ++ fat_reads ++ dir_reads
    /\ map rd_sector fat_reads
       = map (fun i => wrap32 (fatSectorStart st' + Z.of_nat i))
             (seq 0 (Z.to_nat (fat_size_sectors b)))
    /\ map rd_sector dir_reads
       = map (fun i => wrap32 (rootDirSectorStart st' + Z.of_nat i))
             (seq 0 (Z.to_nat (rootDirSectors b)))
    /\ (forall i, 0 <= i < 512 * fat_size_sectors b ->
          load8 (ram st') (sdCardFatTable st' + i)
          = byte_at (payload fat_reads) i)
    /\ (forall i, 0 <= i < 512 * rootDirSectors b ->
          load8 (ram st') (sdCardFat16RootDir st' + i)
          = byte_at (payload dir_reads) i).
Proof.
  intros Hrun b Hss HF HE Htop Hbot.
  assert (HD : 0 <= rootDirSectors b
               /\ 512 * rootDirSectors b <= 32 * root_dir_entries b).
  { unfold rootDirSectors, sizeof_Fat16Entry. rewrite Hss.
    pose proof (Z.mul_div_le (root_dir_entries b * 32) 512 ltac:(lia)).
    pose proof (Z.div_pos (root_dir_entries b * 32) 512 ltac:(lia)
                  ltac:(lia)).
    lia. }
  set (top := MAIN_RAM_BASE + MAIN_RAM_SIZE) in *.
  set (F := fat_size_sectors b) in *.
  set (E := root_dir_entries b) in *.
  set (D := rootDirSectors b) in *.
  unfold readMBR_fatTable in Hrun. fold b in Hrun. fold F in Hrun.
  rewrite Hss in Hrun. fold top in Hrun.
  set (fat := wrap32 (top - 512 * F)) in *.
  cbn [sdCardPartition set_sdCardFatTable set_fatSectorStart fatSectorStart
       sdCardFatTable] in Hrun.
  set (fs := wrap32 (start_sector (sdCardPartition st)
                     + reserved_sectors b)) in *.
  destruct (readMBR_sectors _ _ _ _ _) as [r st3] eqn:Hloop.
  destruct (readMBR_sectors_reads _ _ _ _ _ _ _ Hloop)
    as (Hg & _ & _ & [(-> & _)|(-> & _)]);
    [|change (FAILURE =? FAILURE) with true in Hrun; discriminate Hrun].
  change (SUCCESS =? FAILURE) with false in Hrun. cbv iota in Hrun.
  assert (Hfat : 0 <= fat /\ fat + 512 * F <= 2 ^ 32
                 /\ (0 < F -> fat = top - 512 * F)).
  { unfold fat, wrap32.
    pose proof (Z.mod_pos_bound (top - 512 * F) (2 ^ 32) ltac:(lia)).
    destruct (Z.eq_dec F 0) as [->|HF0]; [lia|].
    rewrite Z.mod_small by lia. lia. }
  apply (readMBR_sectors_loaded _ 0) in Hloop;
    [|exact Hss|lia|cbn [Nat.add]; lia].
  destruct Hloop as (fat_reads & Hh1 & Hs1 & Hl1 & Hb1 & Hm1 & Hf1).
  cbn [history set_sdCardFatTable set_fatSectorStart ram] in Hh1, Hm1, Hf1.
  unfold globals in Hg.
  cbn [sdCardPartition sdCardFatBootSector sdCardFat16RootDir sdCardFatTable
       fatSectorStart rootDirSectorStart set_fatSectorStart
       set_sdCardFatTable] in Hg.
  injection Hg as Hg1 Hg2 _ Hg4 Hg5 _.
  unfold readMBR_rootDir in Hrun. rewrite Hg2 in Hrun. fold b in Hrun.
  fold F E D in Hrun. rewrite Hss in Hrun. fold top in Hrun.
  change (512 =? 0) with false in Hrun. cbv iota in Hrun.
  unfold sizeof_Fat16Entry in Hrun.
  replace (E * 32) with (32 * E) in Hrun by ring.
  set (dir := wrap32 (top - 512 * F - 32 * E)) in *.
  cbn [sdCardPartition set_sdCardFat16RootDir set_rootDirSectorStart
       rootDirSectorStart sdCardFat16RootDir] in Hrun.
  rewrite Hg1 in Hrun.
  set (rs := wrap32 (start_sector (sdCardPartition st) + reserved_sectors b
                     + number_of_fats b * F)) in *.
  destruct (readMBR_sectors _ _ _ _ _) as [r st5] eqn:Hloop.
  destruct (readMBR_sectors_reads _ _ _ _ _ _ _ Hloop)
    as (Hg' & _ & _ & [(-> & _)|(-> & _)]);
    [|change (FAILURE =? FAILURE) with true in Hrun; discriminate Hrun].
  change (SUCCESS =? FAILURE) with false in Hrun. cbv iota in Hrun.
  injection Hrun as <-.
  assert (Hdir : 0 <= dir /\ dir + 512 * D <= 2 ^ 32
                 /\ (0 < D -> dir = top - 512 * F - 32 * E)).
  { unfold dir, wrap32.
    pose proof (Z.mod_pos_bound (top - 512 * F - 32 * E) (2 ^ 32)
                  ltac:(lia)).
    destruct (Z.eq_dec D 0) as [HD0|HD0]; [lia|].
    rewrite Z.mod_small by lia. lia. }
  apply (readMBR_sectors_loaded _ 0) in Hloop;
    [|cbn [sdCardFatBootSector set_sdCardFat16RootDir
           set_rootDirSectorStart]; rewrite Hg2; exact Hss
     |lia|cbn [Nat.add]; lia].
  destruct Hloop as (dir_reads & Hh2 & Hs2 & Hl2 & Hb2 & Hm2 & Hf2).
  cbn [history set_sdCardFat16RootDir set_rootDirSectorStart ram]
    in Hh2, Hm2, Hf2.
  unfold globals in Hg'.
  cbn [sdCardPartition sdCardFatBootSector sdCardFat16RootDir sdCardFatTable
       fatSectorStart rootDirSectorStart set_rootDirSectorStart
       set_sdCardFat16RootDir] in Hg'.
  injection Hg' as _ _ Hg3' Hg4' Hg5' Hg6'.
  rewrite Hg3', Hg4', Hg5', Hg6', Hg4, Hg5.
  exists fat_reads, dir_reads.
  split; [rewrite Hh2, Hh1, app_assoc; reflexivity|].
  split; [exact Hs1|]. split; [exact Hs2|].
  cbn [Z.of_nat Nat.add] in Hm1, Hm2, Hf2.
  rewrite Z2Nat.id in Hl1, Hm1, Hl2, Hm2, Hf2 by lia.
  rewrite Z.mul_0_r, Z.add_0_r in Hm1, Hm2, Hf2.
  split.
  - intros i Hi. destruct Hfat as (Hf0 & Hfe & Hfv).
    apply load8_ram; [lia| |apply byte_at_is_byte; [exact Hb1|lia]].
    rewrite Hf2; [apply Hm1; exact Hi|].
    destruct Hdir as (Hd0 & Hde & Hdv).
    destruct (Z.eq_dec D 0) as [HD0|HD0]; [lia|].
    rewrite Hdv, Hfv by lia. lia.
  - intros i Hi. destruct Hdir as (Hd0 & Hde & Hdv).
    apply load8_ram; [lia| |apply byte_at_is_byte; [exact Hb2|lia]].
    apply Hm2. exact Hi.
Qed.

Lemma readMBR_tables st st' :
  spi_sdcard_readMBR st = Done SUCCESS st' ->
  let b := sdCardFatBootSector st' in
  sector_size b = 512 ->
  MAIN_RAM_BASE + MAIN_RAM_SIZE <= 2 ^ 32 ->
  0 <= MAIN_RAM_BASE + MAIN_RAM_SIZE
       - 512 * fat_size_sectors b - 32 * root_dir_entries b ->
  0 <= fat_size_sectors b
  /\ 0 <= rootDirSectors b
  /\ exists e0 e1 fat_reads dir_reads,
       history st' = history st ++ e0 :: e1 :: fat_reads ++ dir_reads
       /\ map rd_sector fat_reads
          = map (fun i => wrap32 (fatSectorStart st' + Z.of_nat i))
                (seq 0 (Z.to_nat (fat_size_sectors b)))
       /\ map rd_sector dir_reads
          = map (fun i => wrap32 (rootDirSectorStart st' + Z.of_nat i))
                (seq 0 (Z.to_nat (rootDirSectors b)))
       /\ (forall i, 0 <= i < 512 * fat_size_sectors b ->
             load8 (ram st') (sdCardFatTable st' + i)
             = byte_at (payload fat_reads) i)
       /\ (forall i, 0 <= i < 512 * rootDirSectors b ->
             load8 (ram st') (sdCardFat16RootDir st' + i)
             = byte_at (payload dir_reads) i).
Proof.
  intros Hrun b Hss Htop Hbot.
  destruct (readMBR_success_run _ _ Hrun)
    as (d0 & mbr & d1 & boot & _ & _ & _ & _ & _ & _ & Hfat).
  match type of Hfat with
  | readMBR_fatTable ?s = _ =>
      pose proof (readMBR_fatTable_outcome s) as Hout;
      pose proof (readMBR_fatTable_loaded s st' Hfat) as Hload
  end.
  cbv zeta in Hout, Hload. rewrite Hfat in Hout.
  destruct Hout as (_ & Hb & _).
  rewrite <- Hb in Hload. fold b in Hload.
  assert (HF : 0 <= fat_size_sectors b).
  { unfold b. rewrite Hb. apply load16_range. }
  assert (HE : 0 <= root_dir_entries b).
  { unfold b. rewrite Hb. apply load16_range. }
  split; [exact HF|]. split.
  { unfold rootDirSectors, sizeof_Fat16Entry. rewrite Hss.
    apply Z.div_pos; lia. }
  destruct (Hload Hss HF HE Htop Hbot)
    as (fat_reads & dir_reads & Hh & Hrest).
  cbn [history set_sdCardFatBootSector set_sdCardPartition after_read
       set_history set_ram set_dev] in Hh.
  eexists _, _, fat_reads, dir_reads. split; [|exact Hrest].
  rewrite Hh, <- !app_assoc. reflexivity.
Qed.

(** X15.  After a successful [spi_sdcard_readMBR] on a volume with
    512-byte sectors, the allocation table in memory is the table of the
    card: the reads that follow sector 0 and the boot sector are those of
    the sectors from [fatSectorStart] on, as many as the table has, and
    the bytes from [sdCardFatTable] on are the bytes that arrived, in
    order; so [sdCardFatTable[c]] is the little-endian value of bytes
    [2c] and [2c + 1] of the table, for every cluster [c] the table has
    an entry for.  Main RAM is assumed to end within the 32-bit address
    space, with room for the table and the root directory. *)
Theorem readMBR_loads_allocation_table st st' :
  spi_sdcard_readMBR st = Done SUCCESS st' ->
  let b := sdCardFatBootSector st' in
  sector_size b = 512 ->
  MAIN_RAM_BASE + MAIN_RAM_SIZE <= 2 ^ 32 ->
  0 <= MAIN_RAM_BASE + MAIN_RAM_SIZE
       - 512 * fat_size_sectors b - 32 * root_dir_entries b ->
  exists e0 e1 fat_reads rest,
    history st' = history st ++ e0 :: e1 :: fat_reads ++ rest
    /\ map rd_sector fat_reads
       = map (fun i => wrap32 (fatSectorStart st' + Z.of_nat i))
             (seq 0 (Z.to_nat (fat_size_sectors b)))
    /\ (forall i, 0 <= i < 512 * fat_size_sectors b ->
          load8 (ram st') (sdCardFatTable st' + i)
          = byte_at (payload fat_reads) i)
    /\ (forall c, 0 <= c < 256 * fat_size_sectors b ->
          fatEntry st' c = le16_at (payload fat_reads) (2 * c)).
Proof.
  intros Hrun b Hss Htop Hbot.
  destruct (readMBR_tables st st' Hrun Hss Htop Hbot)
    as (_ & _ & e0 & e1 & fat_reads & dir_reads & Hh & Hs & _ & Hm & _).
  fold b in Hs, Hm.
  exists e0, e1, fat_reads, dir_reads.
  split; [exact Hh|]. split; [exact Hs|]. split; [exact Hm|].
  intros c Hc. unfold fatEntry, load16, le16_at.
  rewrite <- Z.add_assoc. rewrite !Hm by lia. reflexivity.
Qed.

(** X16.  After a successful [spi_sdcard_readMBR] on a volume with
    512-byte sectors, the root directory in memory is the directory of
    the card: the last reads of the call are those of the sectors from
    [rootDirSectorStart] on, and entry [n] of [sdCardFat16RootDir], for
    every [n] within the sectors read, has its name in bytes [32n ..
    32n + 7] of what arrived, its extension in the next three, its
    starting cluster in bytes [32n + 26] and [32n + 27] and its size in
    the last four, least significant byte first.  Main RAM is assumed to
    end within the 32-bit address space, with room for the table and the
    root directory. *)
Theorem readMBR_loads_directory_entries st st' :
  spi_sdcard_readMBR st = Done SUCCESS st' ->
  let b := sdCardFatBootSector st' in
  sector_size b = 512 ->
  MAIN_RAM_BASE + MAIN_RAM_SIZE <= 2 ^ 32 ->
  0 <= MAIN_RAM_BASE + MAIN_RAM_SIZE
       - 512 * fat_size_sectors b - 32 * root_dir_entries b ->
  exists before dir_reads,
    history st' = history st ++ before ++ dir_reads
    /\ map rd_sector dir_reads
       = map (fun i => wrap32 (rootDirSectorStart st' + Z.of_nat i))
             (seq 0 (Z.to_nat (rootDirSectors b)))
    /\ forall n, 0 <= n < 16 * rootDirSectors b ->
         (forall i, 0 <= i < 8 ->
            entry_filename st' n i = byte_at (payload dir_reads) (32 * n + i))
         /\ (forall i, 0 <= i < 3 ->
               entry_ext st' n i
               = byte_at (payload dir_reads) (32 * n + 8 + i))
         /\ entry_starting_cluster st' n
            = le16_at (payload dir_reads) (32 * n + 26)
         /\ entry_file_size st' n
            = le32_at (payload dir_reads) (32 * n + 28).
Proof.
  intros Hrun b Hss Htop Hbot.
  destruct (readMBR_tables st st' Hrun Hss Htop Hbot)
    as (_ & _ & e0 & e1 & fat_reads & dir_reads & Hh & _ & Hs & _ & Hm).
  fold b in Hs, Hm.
  exists (e0 :: e1 :: fat_reads), dir_reads.
  split; [rewrite Hh; reflexivity|]. split; [exact Hs|].
  intros n Hn.
  unfold entry_filename, entry_ext, entry_starting_cluster, entry_file_size,
    entry_addr, load16, load32, le16_at, le32_at, sizeof_Fat16Entry,
    off_filename, off_ext, off_starting_cluster, off_file_size.
  split; [|split; [|split]].
  - intros i Hi. rewrite <- !Z.add_assoc. apply Hm. lia.
  - intros i Hi. rewrite <- !Z.add_assoc. apply Hm. lia.
  - rewrite <- !Z.add_assoc. rewrite !Hm by lia. reflexivity.
  - rewrite <- !Z.add_assoc. rewrite !Hm by lia. reflexivity.
Qed.

End VolumeTables.

Section Wire.

Context {C : Type} {Card : SpiCard C} {board : Board}.

Implicit Types (st : state (C := C)).

(** *** The chip select *)

Lemma spi_write_bytes_cs (l : list Z) d :
  cs (snd (spi_write_bytes l d)) = cs d.
Proof.
  revert d. induction l as [|b l IH]; intros d; [reflexivity|].
  cbn [spi_write_bytes]. unfold bind.
  pose proof (spi_write_byte_effect b d) as H. cbv zeta in H.
  destruct (spi_write_byte b d) as [u d1]. cbn [snd] in H.
  destruct H as (_ & _ & _ & _ & _ & H). rewrite IH. exact H.
Qed.

Lemma spi_read_rbyte_cs d : cs (snd (spi_read_rbyte d)) = cs d.
Proof.
  destruct (spi_read_rbyte_loop_spec 32 d) as (k & _ & Hrun & _).
  unfold spi_read_rbyte, bind, spi_miso_read.
  change (csr_miso_read d) with (sampled d). rewrite Hrun. apply fillers_cs.
Qed.

Lemma spi_read_byte_cs d : cs (snd (spi_read_byte d)) = cs d.
Proof.
  unfold spi_read_byte, bind, ret, spi_miso_read.
  pose proof (spi_write_byte_effect 0xff d) as H. cbv zeta in H.
  destruct (spi_write_byte 0xff d) as [u d1]. apply H.
Qed.

Lemma read_bytes_cs (n : nat) d : cs (snd (read_bytes n d)) = cs d.
Proof.
  revert d. induction n as [|n IH]; intros d; [reflexivity|].
  cbn [read_bytes]. unfold bind, ret.
  pose proof (spi_read_byte_cs d) as H.
  destruct (spi_read_byte d) as [b d1]. cbn [snd] in H.
  specialize (IH d1). destruct (read_bytes n d1) as [bs d2].
  cbn [snd] in IH |- *. rewrite IH. exact H.
Qed.

Lemma poll_token_cs (n : nat) d : cs (snd (poll_token n d)) = cs d.
Proof.
  revert d. induction n as [|n IH]; intros d; [reflexivity|].
  cbn [poll_token]. unfold bind, ret.
  pose proof (spi_read_byte_cs d) as H.
  destruct (spi_read_byte d) as [b d1]. cbn [snd] in H.
  destruct (b =? 0xfe); [exact H|]. rewrite IH. exact H.
Qed.

Lemma readSector_spec_cs (polls : nat) (s p : Z) st :
  cs (dev (snd (readSector_spec polls s p st))) = cs (dev st).
Proof.
  unfold readSector_spec, bind, store_block, record_read, ret.
  rewrite !on_dev_eq.
  pose proof (spi_write_bytes_cs
                ([0xff; 0x51] ++ big_endian32 s ++ [0xff]) (dev st)) as H1.
  set (d1 := snd (spi_write_bytes _ (dev st))) in *.
  cbn [dev set_dev].
  pose proof (spi_read_rbyte_cs d1) as H2.
  set (d2 := snd (spi_read_rbyte d1)) in *.
  destruct (fst (spi_read_rbyte d1) =? 0x00).
  - rewrite on_dev_eq. cbn [dev set_dev].
    pose proof (poll_token_cs polls d2) as H3.
    set (d3 := snd (poll_token polls d2)) in *.
    destruct (fst (poll_token polls d2)).
    + rewrite !on_dev_eq. cbn [dev set_dev set_ram set_history snd].
      rewrite !read_bytes_cs, H3, H2. exact H1.
    + cbn [dev set_dev set_history snd]. rewrite H3, H2. exact H1.
  - cbn [dev set_dev set_history snd]. rewrite H2. exact H1.
Qed.

(** *** One read after the other *)

Lemma reads_on_wire_refl st : reads_on_wire st st.
Proof.
  exists [], []. cbn [read_wire flat_map map]. rewrite !app_nil_r.
  repeat split.
Qed.

Lemma reads_on_wire_trans st st1 st2 :
  reads_on_wire st st1 -> reads_on_wire st1 st2 -> reads_on_wire st st2.
Proof.
  intros (new1 & jobs1 & Hh1 & Hj1 & Hs1 & Hc1)
         (new2 & jobs2 & Hh2 & Hj2 & Hs2 & Hc2).
  exists (new1 ++ new2), (jobs1 ++ jobs2).
  split; [rewrite Hh2, Hh1, app_assoc; reflexivity|].
  split; [rewrite !map_app, Hj1, Hj2; reflexivity|].
  split; [|rewrite Hc2; exact Hc1].
  unfold read_wire in *. rewrite flat_map_app, Hs2, Hs1, app_assoc.
  reflexivity.
Qed.

Lemma readSector_on_wire (s p : Z) st :
  reads_on_wire st (snd (readSector s p st)).
Proof.
  destruct (readSector_spec_sent (Z.to_nat 16385) s p st) as (fill & Hsent).
  rewrite <- (readSector_refines _ s p st readSector_polls) in Hsent.
  pose proof (readSector_spec_cs (Z.to_nat 16385) s p st) as Hcs.
  rewrite <- (readSector_refines _ s p st readSector_polls) in Hcs.
  destruct (readSector_effect s p st) as (d & res & Heff & _).
  rewrite Heff in Hsent, Hcs |- *. cbn [snd] in Hsent, Hcs |- *.
  exists [{| rd_sector := s; rd_storage := p; rd_data := res |}],
         [(s, fill)].
  split; [apply history_after_read|]. split; [reflexivity|].
  split; [|exact Hcs].
  rewrite Hsent. unfold read_wire. cbn [flat_map fst snd].
  rewrite ?app_nil_r, <- ?app_assoc. reflexivity.
Qed.

Lemma reads_on_wire_to st st1 st2 :
  history st2 = history st1 -> dev st2 = dev st1 ->
  reads_on_wire st st1 -> reads_on_wire st st2.
Proof.
  intros Hh Hd (new & jobs & H1 & H2 & H3 & H4). exists new, jobs.
  rewrite Hh, Hd. repeat split; assumption.
Qed.

Lemma reads_on_wire_from st0 st st' :
  history st0 = history st -> dev st0 = dev st ->
  reads_on_wire st0 st' -> reads_on_wire st st'.
Proof.
  intros Hh Hd (new & jobs & H1 & H2 & H3 & H4). exists new, jobs.
  rewrite <- Hh, <- Hd. repeat split; assumption.
Qed.

(** *** The loops *)

Lemma readMBR_sectors_on_wire (todo : nat) (n first buffer : Z) st :
  reads_on_wire st (snd (readMBR_sectors todo n first buffer st)).
Proof.
  revert n st. induction todo as [|todo IH]; intros n st.
  - apply reads_on_wire_refl.
  - cbn [readMBR_sectors].
    pose proof (readSector_on_wire (wrap32 (first + n))
                  (wrap32 (buffer + sector_size (sdCardFatBootSector st) * n))
                  st) as H.
    destruct (readSector _ _ st) as [r st1]. cbn [snd] in H.
    destruct (r =? FAILURE); [exact H|].
    exact (reads_on_wire_trans _ _ _ H (IH _ st1)).
Qed.

Lemma readFile_sectors_on_wire (todo : nat) (sector css br addr : Z) st :
  reads_on_wire st (snd (readFile_sectors todo sector css br addr st)).
Proof.
  revert sector br addr st.
  induction todo as [|todo IH]; intros sector br addr st.
  - apply reads_on_wire_refl.
  - cbn [readFile_sectors].
    destruct (br >? sector_size (sdCardFatBootSector st)).
    + pose proof (readSector_on_wire (wrap32 (css + sector)) addr st) as H.
      destruct (readSector _ _ st) as [r st1]. cbn [snd] in H.
      destruct (r =? FAILURE); [exact H|].
      exact (reads_on_wire_trans _ _ _ H (IH _ _ _ st1)).
    + pose proof (readSector_on_wire (wrap32 (css + sector)) sdCardSector
                    st) as H.
      destruct (readSector _ _ st) as [r st1]. cbn [snd] in H.
      destruct (r =? FAILURE); [exact H|].
      refine (reads_on_wire_trans _ _ _ H _).
      refine (reads_on_wire_from _ _ _ _ _ (IH _ _ _ _)); reflexivity.
Qed.

Lemma readFile_clusters_on_wire (todo : nat) (c br addr : Z) st :
  reads_on_wire st (snd (readFile_clusters todo c br addr st)).
Proof.
  revert c br addr st.
  induction todo as [|todo IH]; intros c br addr st.
  - apply reads_on_wire_refl.
  - cbn [readFile_clusters].
    pose proof (readFile_sectors_on_wire
                  (Z.to_nat (sectors_per_cluster (sdCardFatBootSector st)))
                  0 (clusterSector st c) br addr st) as H.
    destruct (readFile_sectors _ _ _ _ _ st) as [[[br1 addr1]|] st1];
      cbn [snd] in H; [|exact H].
    exact (reads_on_wire_trans _ _ _ H (IH _ _ _ st1)).
Qed.

(** X17.  Whatever [spi_sdcard_readFile] returns, between its start and
    its end the card was sent nothing but read-block commands and filler
    bytes [0xff]: one command, with its sector number as four big-endian
    bytes, for each read that the call made, in the order of the reads.
    The chip select is left as it was. *)
Theorem readFile_sends_only_reads st (fuel : nat) (filename ext : string)
  (address : Z) (r : Z) st' :
  spi_sdcard_readFile fuel filename ext address st = Done r st' ->
  exists new jobs,
    history st' = history st ++ new
    /\ map fst jobs = map rd_sector new
    /\ sent (dev st') = sent (dev st) ++ read_wire jobs
    /\ cs (dev st') = cs (dev st).
Proof.
  intros Hrun. fold (reads_on_wire st st').
  unfold spi_sdcard_readFile in Hrun.
  destruct (readFile_scan _ _ _ _ _) as [s|]; [|discriminate Hrun].
  destruct (fileClusterStart s =? 0).
  { injection Hrun as _ <-. apply reads_on_wire_refl. }
  destruct (fileLength s =? 0).
  { injection Hrun as _ <-. apply reads_on_wire_refl. }
  destruct (_ || _); [discriminate Hrun|].
  pose proof (readFile_clusters_on_wire
                (Z.to_nat (clusterCount (sdCardFatBootSector st)
                             (fileLength s)))
                (fileClusterStart s) (fileLength s) (wrap32 address) st)
    as H.
  destruct (readFile_clusters _ _ _ _ _) as [r1 st1].
  injection Hrun as _ <-. exact H.
Qed.

(** *** The stages of [spi_sdcard_readMBR] *)

Lemma readMBR_rootDir_on_wire st (r : Z) st' :
  readMBR_rootDir st = Done r st' -> reads_on_wire st st'.
Proof.
  unfold readMBR_rootDir. intros Hrun.
  destruct (_ =? 0); [discriminate Hrun|].
  match type of Hrun with
  | context [readMBR_sectors ?t ?n ?f ?b ?s] =>
      pose proof (readMBR_sectors_on_wire t n f b s) as H;
      destruct (readMBR_sectors t n f b s) as [r1 st3]
  end.
  cbn [snd] in H.
  assert (Hst : st3 = st')
    by (destruct (r1 =? FAILURE); injection Hrun as _ <-; reflexivity).
  rewrite <- Hst.
  refine (reads_on_wire_from _ _ _ _ _ H); reflexivity.
Qed.

Lemma readMBR_fatTable_on_wire st (r : Z) st' :
  readMBR_fatTable st = Done r st' -> reads_on_wire st st'.
Proof.
  unfold readMBR_fatTable. intros Hrun.
  match type of Hrun with
  | context [readMBR_sectors ?t ?n ?f ?b ?s] =>
      pose proof (readMBR_sectors_on_wire t n f b s) as H;
      destruct (readMBR_sectors t n f b s) as [r1 st3]
  end.
  cbn [snd] in H.
  assert (H0 : reads_on_wire st st3)
    by (refine (reads_on_wire_from _ _ _ _ _ H); reflexivity).
  destruct (r1 =? FAILURE).
  - injection Hrun as _ <-. exact H0.
  - apply readMBR_rootDir_on_wire in Hrun.
    exact (reads_on_wire_trans _ _ _ H0 Hrun).
Qed.

Lemma readMBR_bootSector_on_wire st (r : Z) st' :
  readMBR_bootSector st = Done r st' -> reads_on_wire st st'.
Proof.
  unfold readMBR_bootSector. intros Hrun.
  pose proof (readSector_on_wire (start_sector (sdCardPartition st))
                sdCardSector st) as H.
  destruct (readSector _ _ st) as [r1 st1]. cbn [snd] in H.
  destruct (r1 =? SUCCESS).
  - destruct (_ =? 0).
    + injection Hrun as _ <-.
      refine (reads_on_wire_to _ _ _ _ _ H); reflexivity.
    + apply readMBR_fatTable_on_wire in Hrun.
      refine (reads_on_wire_trans _ _ _ H _).
      refine (reads_on_wire_from _ _ _ _ _ Hrun); reflexivity.
  - injection Hrun as _ <-. exact H.
Qed.

(** X18.  Whatever [spi_sdcard_readMBR] returns, between its start and
    its end the card was sent nothing but read-block commands and filler
    bytes [0xff]: one command, with its sector number as four big-endian
    bytes, for each read that the call made, in the order of the reads.
    The chip select is left as it was. *)
Theorem readMBR_sends_only_reads st (r : Z) st' :
  spi_sdcard_readMBR st = Done r st' ->
  exists new jobs,
    history st' = history st ++ new
    /\ map fst jobs = map rd_sector new
    /\ sent (dev st') = sent (dev st) ++ read_wire jobs
    /\ cs (dev st') = cs (dev st).
Proof.
  intros Hrun. fold (reads_on_wire st st').
  unfold spi_sdcard_readMBR, readMBR_partition in Hrun.
  pose proof (readSector_on_wire 0 sdCardSector st) as H.
  destruct (readSector _ _ st) as [r1 st1]. cbn [snd] in H.
  destruct (r1 =? SUCCESS).
  - destruct (negb _ && negb _).
    + injection Hrun as _ <-.
      refine (reads_on_wire_to _ _ _ _ _ H); reflexivity.
    + destruct (_ || _).
      * apply readMBR_bootSector_on_wire in Hrun.
        refine (reads_on_wire_trans _ _ _ H _).
        refine (reads_on_wire_from _ _ _ _ _ Hrun); reflexivity.
      * injection Hrun as _ <-.
        refine (reads_on_wire_to _ _ _ _ _ H); reflexivity.
  - injection Hrun as _ <-. exact H.
Qed.

End Wire.

Section NoCard.

Context {C : Type} {Card : SpiCard C} {board : Board}.

Implicit Types (d : spi_dev (C := C)) (st : state (C := C)).

Lemma spi_write_byte_unanswered (b : Z) d :
  never_responds -> high_bit (miso (snd (spi_write_byte b d))) = true.
Proof.
  intros Hno.
  destruct (spi_write_byte_effect b d) as (_ & _ & Hm & _).
  rewrite Hm. apply Hno.
Qed.

Lemma spi_write_bytes_unanswered (l : list Z) d :
  never_responds -> l <> [] ->
  high_bit (miso (snd (spi_write_bytes l d))) = true.
Proof.
  intros Hno. revert d. induction l as [|b l IH]; intros d Hl;
    [contradiction|].
  cbn [spi_write_bytes]. unfold bind.
  pose proof (spi_write_byte_unanswered b d Hno) as H.
  destruct (spi_write_byte b d) as [u d1]. cbn [snd] in H.
  destruct l as [|b' l']; [exact H|].
  apply IH. intros E. discriminate E.
Qed.

Lemma fillers_unanswered (k : nat) d :
  never_responds -> high_bit (miso d) = true ->
  high_bit (miso (fillers k d)) = true.
Proof.
  intros Hno. revert d. induction k as [|k IH]; intros d Hd; [exact Hd|].
  rewrite fillers_S. apply IH. apply spi_write_byte_unanswered, Hno.
Qed.

Lemma spi_read_rbyte_unanswered d :
  never_responds -> high_bit (miso d) = true ->
  high_bit (fst (spi_read_rbyte d)) = true.
Proof.
  intros Hno Hd.
  destruct (spi_read_rbyte_loop_spec 32 d) as (k & _ & Hrun & _).
  unfold spi_read_rbyte, bind, spi_miso_read.
  change (csr_miso_read d) with (sampled d). rewrite Hrun. cbn [fst].
  apply fillers_unanswered; assumption.
Qed.

Lemma high_bit_not (r v : Z) :
  high_bit r = true -> high_bit v = false -> (r =? v) = false.
Proof.
  intros Hr Hv. apply Z.eqb_neq. intros ->. rewrite Hr in Hv.
  discriminate Hv.
Qed.

Lemma readSector_unanswered (s p : Z) st :
  never_responds -> fst (readSector s p st) = FAILURE.
Proof.
  intros Hno. unfold readSector, bind, record_read, ret.
  rewrite !on_dev_eq. cbn [dev set_dev].
  rewrite (high_bit_not _ 0x00); [reflexivity| |reflexivity].
  apply spi_read_rbyte_unanswered; [exact Hno|].
  apply spi_write_bytes_unanswered; [exact Hno|].
  unfold cmd17. intros E. discriminate E.
Qed.

(** X19.  With no card in the slot, or a card that never sends a
    response (every byte sampled has its high bit set),
    [spi_sdcard_goidle] returns [FAILURE], every [readSector] returns
    [FAILURE], and [spi_sdcard_readMBR] returns [FAILURE] after its first
    read; none of them waits for ever. *)
Theorem no_card_fails :
  never_responds ->
  (forall d, fst (spi_sdcard_goidle d) = FAILURE)
  /\ (forall s p st, fst (readSector s p st) = FAILURE)
  /\ (forall st, exists d,
        spi_sdcard_readMBR st
        = Done FAILURE (after_read 0 sdCardSector d None st)).
Proof.
  intros Hno. split; [|split].
  - intros d. unfold spi_sdcard_goidle, bind, ret.
    destruct (spi_setspimode d) as [r0 d0].
    destruct (negb (r0 =? 0x01)); [reflexivity|].
    pose proof (spi_write_bytes_unanswered
                  [0xff; 0x40; 0x00; 0x00; 0x00; 0x00; 0x95] d0 Hno
                  ltac:(intros E; discriminate E)) as H1.
    destruct (spi_write_bytes _ d0) as [u1 d1]. cbn [snd] in H1.
    pose proof (spi_read_rbyte_unanswered d1 Hno H1) as H2.
    destruct (spi_read_rbyte d1) as [r1 d2]. cbn [fst] in H2.
    rewrite (high_bit_not r1 0x01 H2 eq_refl). reflexivity.
  - intros s p st. apply readSector_unanswered, Hno.
  - intros st.
    destruct (readMBR_head st) as (d0 & res0 & Hr0 & Hcase).
    pose proof (readSector_unanswered 0 sdCardSector st Hno) as Hf.
    rewrite Hr0 in Hf. cbn [fst] in Hf.
    destruct res0 as [mbr|]; [discriminate Hf|].
    exists d0. exact Hcase.
Qed.

End NoCard.

Section Selected.

Context {C : Type} {Card : SpiCard C}.

Implicit Types (d : spi_dev (C := C)).

Lemma times_read_byte_cs (n : nat) d :
  cs (snd (times n spi_read_byte d)) = cs d.
Proof.
  revert d. induction n as [|n IH]; intros d; [reflexivity|].
  cbn [times]. unfold bind.
  pose proof (spi_read_byte_cs d) as H.
  destruct (spi_read_byte d) as [b d1]. cbn [snd] in H.
  rewrite IH. exact H.
Qed.

Lemma ready_round_cs d : cs (snd (ready_round d)) = cs d.
Proof.
  unfold ready_round, bind.
  pose proof (spi_write_bytes_cs cmd55 d) as H1.
  destruct (spi_write_bytes cmd55 d) as [u1 d1]. cbn [snd] in H1.
  pose proof (spi_read_rbyte_cs d1) as H2.
  destruct (spi_read_rbyte d1) as [r1 d2]. cbn [snd] in H2.
  pose proof (spi_write_bytes_cs acmd41 d2) as H3.
  destruct (spi_write_bytes acmd41 d2) as [u2 d3]. cbn [snd] in H3.
  rewrite spi_read_rbyte_cs. congruence.
Qed.

Lemma spi_sdcard_goidle_loop_cs (t : nat) d :
  cs (snd (spi_sdcard_goidle_loop t d)) = cs d.
Proof.
  revert d. induction t as [|t IH]; intros d; [reflexivity|].
  rewrite spi_sdcard_goidle_loop_S.
  pose proof (ready_round_cs d) as H.
  destruct (ready_round d) as [r d1]. cbn [snd] in H.
  destruct (negb (r =? 0x00) && (0 <? Z.of_nat t)); [|exact H].
  rewrite IH. exact H.
Qed.

(** X20.  Whatever the card answers and whatever it returns,
    [spi_sdcard_goidle] leaves the chip select asserted: the mode switch
    ends with it low and no later step of the initialisation touches
    it. *)
Theorem spi_sdcard_goidle_selects_card d :
  cs (snd (spi_sdcard_goidle d)) = CS_LOW.
Proof.
  unfold spi_sdcard_goidle, bind, ret.
  assert (H0 : cs (snd (spi_setspimode d)) = CS_LOW).
  { destruct (spi_setspimode_spec d) as (k & Hk & Hst & _).
    rewrite Hst. apply cycles_wire. lia. }
  destruct (spi_setspimode d) as [r0 d0]. cbn [snd] in H0.
  destruct (negb (r0 =? 0x01)); [exact H0|].
  pose proof (spi_write_bytes_cs
                [0xff; 0x40; 0x00; 0x00; 0x00; 0x00; 0x95] d0) as H1.
  destruct (spi_write_bytes _ d0) as [u1 d1]. cbn [snd] in H1.
  pose proof (spi_read_rbyte_cs d1) as H2.
  destruct (spi_read_rbyte d1) as [r1 d2]. cbn [snd] in H2.
  destruct (negb (r1 =? 0x01)); [cbn [snd]; congruence|].
  pose proof (spi_write_bytes_cs
                [0xff; 0x48; 0x00; 0x00; 0x01; 0xaa; 0x87] d2) as H3.
  destruct (spi_write_bytes _ d2) as [u3 d3]. cbn [snd] in H3.
  pose proof (spi_read_rbyte_cs d3) as H4.
  destruct (spi_read_rbyte d3) as [r3 d4]. cbn [snd] in H4.
  destruct (negb (r3 =? 0x01)); [cbn [snd]; congruence|].
  pose proof (times_read_byte_cs 4 d4) as H5.
  destruct (times 4 spi_read_byte d4) as [u5 d5]. cbn [snd] in H5.
  pose proof (spi_sdcard_goidle_loop_cs 32 d5) as H6.
  destruct (spi_sdcard_goidle_loop 32 d5) as [r6 d6]. cbn [snd] in H6.
  destruct (negb (r6 =? 0x00)); [cbn [snd]; congruence|].
  pose proof (spi_write_bytes_cs
                [0xff; 0x7a; 0x00; 0x00; 0x00; 0x00; 0xff] d6) as H7.
  destruct (spi_write_bytes _ d6) as [u7 d7]. cbn [snd] in H7.
  pose proof (spi_read_rbyte_cs d7) as H8.
  destruct (spi_read_rbyte d7) as [r8 d8]. cbn [snd] in H8.
  destruct (r8 >? 0x01); [cbn [snd]; congruence|].
  pose proof (times_read_byte_cs 4 d8) as H9.
  destruct (times 4 spi_read_byte d8) as [u9 d9]. cbn [snd] in H9.
  pose proof (spi_write_bytes_cs
                [0xff; 0x50; 0x00; 0x00; 0x02; 0x00; 0xff] d9) as H10.
  destruct (spi_write_bytes _ d9) as [u10 d10]. cbn [snd] in H10.
  pose proof (spi_read_rbyte_cs d10) as H11.
  destruct (spi_read_rbyte d10) as [r11 d11]. cbn [snd] in H11.
  destruct (negb (r11 =? 0x00)); cbn [snd]; congruence.
Qed.

End Selected.
Section BootFlow.

Context {C : Type} {Card : SpiCard C} {board : Board}.

Implicit Types (st : state (C := C)).

Lemma entries_in_payload st (P : list Z) (D : Z) :
  (forall i, 0 <= i < 512 * D ->
     load8 (ram st) (sdCardFat16RootDir st + i) = byte_at P i) ->
  forall n, 0 <= n < 16 * D ->
    (forall i, 0 <= i < 8 ->
       entry_filename st n i = byte_at P (32 * n + i))
    /\ (forall i, 0 <= i < 3 ->
          entry_ext st n i = byte_at P (32 * n + 8 + i))
    /\ entry_starting_cluster st n = le16_at P (32 * n + 26)
    /\ entry_file_size st n = le32_at P (32 * n + 28).
Proof.
  intros Hm n Hn.
  unfold entry_filename, entry_ext, entry_starting_cluster, entry_file_size,
    entry_addr, load16, load32, le16_at, le32_at, sizeof_Fat16Entry,
    off_filename, off_ext, off_starting_cluster, off_file_size.
  split; [|split; [|split]].
  - intros i Hi. rewrite <- !Z.add_assoc. apply Hm. lia.
  - intros i Hi. rewrite <- !Z.add_assoc. apply Hm. lia.
  - rewrite <- !Z.add_assoc. rewrite !Hm by lia. reflexivity.
  - rewrite <- !Z.add_assoc. rewrite !Hm by lia. reflexivity.
Qed.

Lemma matches_entry_bytes st (P : list Z) (D : Z) (filename ext : string)
  (n : Z) :
  (forall i, 0 <= i < 512 * D ->
     load8 (ram st) (sdCardFat16RootDir st + i) = byte_at P i) ->
  (strlen filename <= 8)%nat -> (strlen ext <= 3)%nat ->
  0 <= n < 16 * D ->
  matches st filename ext n <-> entry_bytes_match P filename ext n.
Proof.
  intros Hm Hlf Hle Hn.
  destruct (entries_in_payload st P D Hm n Hn) as (Hname & Hext & _).
  unfold matches, entry_bytes_match. rewrite readFile_nameMatch_spec.
  rewrite (Hname 0) by lia. rewrite Z.add_0_r.
  split; intros (H0 & H1 & H2); (split; [exact H0|split]).
  - intros i Hi. rewrite <- Hname by lia. apply H1. exact Hi.
  - intros j Hj. rewrite <- Hext by lia. apply H2. exact Hj.
  - intros i Hi. rewrite Hname by lia. apply H1. exact Hi.
  - intros j Hj. rewrite Hext by lia. apply H2. exact Hj.
Qed.

(** X21.  [spi_sdcard_readMBR] and [spi_sdcard_readFile] together, on a
    volume with 512-byte sectors whose root directory fills whole
    sectors: the file that the scan of [spi_sdcard_readFile] settles on is
    the first entry of the card's root directory, as the last reads of
    [spi_sdcard_readMBR] delivered it, whose first byte is not zero and
    whose name and extension begin with the name and extension asked for
    (of at most 8 and 3 characters); its starting cluster and size are
    bytes 26-27 and 28-31 of that entry.  Main RAM is assumed to end
    within the 32-bit address space, with room for the table and the root
    directory. *)
Theorem readFile_finds_card_entry st st1 (fuel : nat)
  (filename ext : string) s :
  spi_sdcard_readMBR st = Done SUCCESS st1 ->
  let b := sdCardFatBootSector st1 in
  sector_size b = 512 ->
  root_dir_entries b mod 16 = 0 ->
  MAIN_RAM_BASE + MAIN_RAM_SIZE <= 2 ^ 32 ->
  0 <= MAIN_RAM_BASE + MAIN_RAM_SIZE
       - 512 * fat_size_sectors b - 32 * root_dir_entries b ->
  (strlen filename <= 8)%nat -> (strlen ext <= 3)%nat ->
  readFile_scan fuel st1 filename ext scan0 = Some s ->
  fileClusterStart s <> 0 ->
  exists before dir_reads,
    history st1 = history st ++ before ++ dir_reads
    /\ map rd_sector dir_reads
       = map (fun i => wrap32 (rootDirSectorStart st1 + Z.of_nat i))
             (seq 0 (Z.to_nat (root_dir_entries b / 16)))
    /\ 0 <= scan_n s < root_dir_entries b
    /\ entry_bytes_match (payload dir_reads) filename ext (scan_n s)
    /\ (forall m, 0 <= m < scan_n s ->
          ~ entry_bytes_match (payload dir_reads) filename ext m)
    /\ fileClusterStart s = le16_at (payload dir_reads) (32 * scan_n s + 26)
    /\ fileLength s = le32_at (payload dir_reads) (32 * scan_n s + 28).
Proof.
  intros Hrun b Hss Hmod Htop Hbot Hlf Hle Hscan Hc.
  destruct (readMBR_tables st st1 Hrun Hss Htop Hbot)
    as (_ & _ & e0 & e1 & fat_reads & dir_reads & Hh & _ & Hs & _ & Hm).
  fold b in Hs, Hm.
  assert (HD : rootDirSectors b = root_dir_entries b / 16).
  { unfold rootDirSectors, sizeof_Fat16Entry. rewrite Hss.
    change 512 with (16 * 32). apply Z.div_mul_cancel_r; lia. }
  assert (HE : 16 * rootDirSectors b = root_dir_entries b).
  { rewrite HD. symmetry. apply Z.div_exact; [lia|exact Hmod]. }
  destruct (readFile_scan_outcome _ _ _ _ _ Hscan) as [[Hz _]|[_ Hfound]];
    [contradiction|].
  destruct Hfound as ((Hrange & Hmatch & Hfirst) & Hcl & Hlen).
  fold b in Hrange.
  exists (e0 :: e1 :: fat_reads), dir_reads.
  split; [rewrite Hh; reflexivity|].
  split; [rewrite <- HD; exact Hs|].
  split; [exact Hrange|].
  split.
  { apply (matches_entry_bytes st1 _ (rootDirSectors b)); try assumption.
    lia. }
  split.
  { intros m Hmr Hbm. apply (Hfirst m Hmr).
    apply (matches_entry_bytes st1 (payload dir_reads) (rootDirSectors b));
      try assumption.
    lia. }
  destruct (entries_in_payload st1 _ _ Hm (scan_n s) ltac:(lia))
    as (_ & _ & Hcluster & Hsize).
  split; [rewrite Hcl; exact Hcluster|rewrite Hlen; exact Hsize].
Qed.

End BootFlow.

(** * The functions on explicit inputs *)

(** ** Checks of the embedding *)

Example big_endian32_12345678 :
  big_endian32 0x12345678 = [0x12; 0x34; 0x56; 0x78]
  /\ cmd17 0x12345678 = [0xff; 0x51; 0x12; 0x34; 0x56; 0x78; 0xff].
Proof. split; reflexivity. Qed.

(** A response that is ready after three filler bytes. *)
Example spi_read_rbyte_ready :
  fst (spi_read_rbyte (script_dev [0xff; 0xff; 0x05; 0x06])) = 0x05
  /\ sent (snd (spi_read_rbyte (script_dev [0xff; 0xff; 0x05; 0x06])))
     = [0xff; 0xff; 0xff].
Proof. vm_compute. split; reflexivity. Qed.

(** A card that never answers: 32 filler bytes, and the value is the last
    sample. *)
Example spi_read_rbyte_exhausted :
  fst (spi_read_rbyte (script_dev (repeat 0xff 31 ++ [0xfd; 0x00]))) = 0xfd
  /\ sent (snd (spi_read_rbyte (script_dev (repeat 0xff 31 ++ [0xfd; 0x00]))))
     = repeat 0xff 32.
Proof. vm_compute. split; reflexivity. Qed.

(** The boot sector of the small volume parses to its fields. *)
Example read_Fat16BootSector_fields :
  let b := read_Fat16BootSector (image 0 (boot_sector 4 16) zero_memory) 0 in
  sector_size b = 512 /\ sectors_per_cluster b = 4
  /\ reserved_sectors b = 1 /\ number_of_fats b = 1
  /\ root_dir_entries b = 16 /\ fat_size_sectors b = 1
  /\ total_sectors_long b = 100 /\ boot_sector_signature b = 0xaa55.
Proof. vm_compute. repeat split. Qed.

(** One block read: the command on the wire, the block in memory, the
    call in the history. *)
Example readSector_block_in_memory :
  let run := readSector 7 load_address
               (script_state (block_reply 2 (ramp 65)) zero_memory) in
  fst run = SUCCESS
  /\ firstn 7 (sent (dev (snd run))) = [0xff; 0x51; 0; 0; 0; 7; 0xff]
  /\ load_bytes (ram (snd run)) load_address 4 = [65; 66; 67; 68]
  /\ load8 (ram (snd run)) (load_address + 511) = 64
  /\ map rd_key (history (snd run)) = [(7, load_address)].
Proof. vm_compute. repeat split. Qed.

(** The whole path: load the tables from the card, then load the ten
    bytes of [HELLO.TXT]; the eight-character name picks the third entry. *)
Example readFile_after_readMBR :
  let st1 := final_state (spi_sdcard_readMBR full_volume) full_volume in
  let st2 :=
    final_state (spi_sdcard_readFile 4 "HELLO   " "TXT" load_address st1)
      st1 in
  outcome_value (spi_sdcard_readMBR full_volume) = Some SUCCESS
  /\ outcome_value (spi_sdcard_readFile 4 "HELLO   " "TXT" load_address st1)
     = Some SUCCESS
  /\ load_bytes (ram st2) load_address 12
     = [65; 66; 67; 68; 69; 70; 71; 72; 73; 74; 0; 0]
  /\ map rd_key (history st2)
     = [(0, sdCardSector); (1, sdCardSector); (2, demo_fat_addr);
        (3, demo_dir_addr); (4, sdCardSector)].
Proof. vm_compute. repeat split. Qed.

(** ** The claims on explicit inputs *)

(** C8 as stated fails: with a bound of 16384 single-byte reads the call
    below would fail, since none of the first 16384 bytes after the
    response is the token; the code reads a 16385th byte, finds the token
    there and succeeds. *)
Lemma readSector_token_in_read_16385 :
  let st := script_state late_token_script zero_memory in
  let d := snd (spi_read_rbyte (snd (spi_write_bytes (cmd17 0) (dev st)))) in
  existsb (Z.eqb 0xfe) (polled (Z.to_nat 16384) d) = false
  /\ fst (readSector_spec (Z.to_nat 16384) 0 0x40000000 st) = FAILURE
  /\ fst (readSector 0 0x40000000 st) = SUCCESS.
Proof. vm_compute. repeat split. Qed.

(** C10, the code at the failing input.  A card whose response stays zero
    for 31 cycles and is [0x01] in the 32nd gets 32 cycles (320 filler
    bytes) and the result [FAILURE], although the 32nd cycle obtained a
    response; one cycle earlier the same response gives [SUCCESS]. *)
Theorem spi_setspimode_response_in_last_cycle :
  cycle_response 31 (script_dev (mode_switch_script 31 0x01)) = 0x01
  /\ fst (spi_setspimode (script_dev (mode_switch_script 31 0x01))) = FAILURE
  /\ List.length (sent (snd (spi_setspimode
                          (script_dev (mode_switch_script 31 0x01)))))
     = 320%nat
  /\ fst (spi_setspimode (script_dev (mode_switch_script 30 0x01))) = SUCCESS.
Proof. vm_compute. repeat split. Qed.

(** An outcome that returns [a] is [Done a] with its final state. *)
Lemma done_final_state {St A : Type} (o : outcome St A) (st : St) (a : A) :
  outcome_value o = Some a -> o = Done a (final_state o st).
Proof.
  destruct o as [a' st'| |]; cbn [outcome_value final_state]; intros H;
    [injection H as ->; reflexivity|discriminate H|discriminate H].
Qed.

(** The empty file is the first entry of its directory that matches. *)
Lemma empty_file_first_match :
  first_match empty_file_state "EMPTY" "TXT" 0.
Proof.
  split; [vm_compute; split; [intros H; discriminate H|reflexivity]|].
  split; [vm_compute; reflexivity|]. intros j Hj. lia.
Qed.

(** C4, the code at the failing input.  The first directory entry is the
    file [EMPTY.TXT] with size 0 and starting cluster 0.  It matches, and
    the call never returns: whatever the fuel, it is still in the
    directory scan. *)
Theorem readFile_empty_file_never_returns :
  matches empty_file_state "EMPTY" "TXT" 0
  /\ entry_file_size empty_file_state 0 = 0
  /\ entry_starting_cluster empty_file_state 0 = 0
  /\ forall (fuel : nat) (address : Z),
       spi_sdcard_readFile fuel "EMPTY" "TXT" address empty_file_state
       = OutOfFuel.
Proof.
  split; [vm_compute; reflexivity|].
  split; [vm_compute; reflexivity|].
  split; [vm_compute; reflexivity|].
  apply (readFile_never_returns empty_file_state "EMPTY" "TXT" 0
           empty_file_first_match).
  vm_compute. reflexivity.
Qed.

(** C5, amended, on the directory of the empty file: asking for
    [EMPTY.TXT] keeps the scan going for ever, asking for [HELLO.TXT] ends
    it. *)
Lemma readFile_scan_termination_witness :
  first_match empty_file_state "EMPTY" "TXT" 0
  /\ entry_starting_cluster empty_file_state 0 = 0
  /\ (forall fuel : nat,
        readFile_scan fuel empty_file_state "EMPTY" "TXT" scan0 = None)
  /\ exists (fuel : nat) s,
       readFile_scan fuel empty_file_state "HELLO" "TXT" scan0 = Some s.
Proof.
  assert (Hzero : entry_starting_cluster empty_file_state 0 = 0)
    by (vm_compute; reflexivity).
  split; [exact empty_file_first_match|]. split; [exact Hzero|]. split.
  - apply (proj1 (readFile_scan_termination empty_file_state "EMPTY" "TXT")
             0 empty_file_first_match Hzero).
  - apply (proj1 (proj2 (readFile_scan_termination empty_file_state
                           "HELLO" "TXT"))).
    right. exists 1. split; [|vm_compute; intros H; discriminate H].
    split; [vm_compute; split; [intros H; discriminate H|reflexivity]|].
    split; [vm_compute; reflexivity|].
    intros j Hj. assert (j = 0) as -> by lia.
    vm_compute. intros H. discriminate H.
Defined.

(** C5 as stated fails: in this directory entry 1, [HELLO.TXT], matches
    the name and extension asked for and records starting cluster 0, yet
    the scan ends, on entry 0, [HELLOWLD.TXT], which matches too and comes
    first, and the call returns. *)
Lemma readFile_scan_ends_before_cluster_zero :
  matches shadowed_state "HELLO" "TXT" 1
  /\ entry_starting_cluster shadowed_state 1 = 0
  /\ readFile_scan 3 shadowed_state "HELLO" "TXT" scan0
     = Some {| fileClusterStart := 3; fileLength := 20; scan_n := 0 |}
  /\ outcome_value (spi_sdcard_readFile 3 "HELLO" "TXT" load_address
                      shadowed_state)
     = Some SUCCESS.
Proof. vm_compute. repeat split. Qed.


(** C6 on two cards: status [0x80] with type 6 goes on, status [0x81]
    ends the call after the read of sector 0. *)
Lemma readMBR_partition_check_witness :
  fst (readSector 0 sdCardSector fresh_volume) = SUCCESS
  /\ fst (readMBR_partition fresh_volume) = inr tt
  /\ fst (readSector 0 sdCardSector bad_status_volume) = SUCCESS
  /\ spi_sdcard_readMBR bad_status_volume
     = Done FAILURE
         (set_sdCardPartition
            (read_PartitionTable
               (ram (snd (readSector 0 sdCardSector bad_status_volume)))
               (sdCardSector + 0x1be))
            (snd (readSector 0 sdCardSector bad_status_volume))).
Proof.
  assert (H1 : fst (readSector 0 sdCardSector fresh_volume) = SUCCESS)
    by (vm_compute; reflexivity).
  assert (H2 : fst (readSector 0 sdCardSector bad_status_volume) = SUCCESS)
    by (vm_compute; reflexivity).
  split; [exact H1|]. split.
  - apply (proj1 (readMBR_partition_check fresh_volume H1)).
    vm_compute. split; [right; reflexivity|right; left; reflexivity].
  - split; [exact H2|].
    apply (proj2 (proj2 (readMBR_partition_check bad_status_volume H2))).
    vm_compute. intros [[H|H] _]; discriminate H.
Defined.

(** The reads of the root directory on the volume of 16 entries: one
    directory sector, read from sector 3 into the 512 bytes below the
    table. *)
Lemma readMBR_loads_root_directory_witness :
  let st' := final_state (spi_sdcard_readMBR fresh_volume) fresh_volume in
  spi_sdcard_readMBR fresh_volume = Done SUCCESS st'
  /\ rootDirSectorStart st' = 3
  /\ sdCardFat16RootDir st' = demo_dir_addr
  /\ sdCardFatTable st' = demo_fat_addr
  /\ map rd_key (history st')
     = [(0, sdCardSector); (1, sdCardSector); (2, demo_fat_addr);
        (3, demo_dir_addr)].
Proof.
  intros st'.
  assert (Hrun : spi_sdcard_readMBR fresh_volume = Done SUCCESS st')
    by (apply done_final_state; vm_compute; reflexivity).
  split; [exact Hrun|].
  destruct (readMBR_loads_root_directory fresh_volume st' Hrun)
    as (Hrds & Hdir & Hbelow & _ & _).
  repeat split; vm_compute; reflexivity.
Defined.

(** C7, the code at the failing input.  The volume has 8 root directory
    entries, half a sector of 512 bytes, and the card holds that sector
    with [README.MD] in its first entry.  [spi_sdcard_readMBR] returns
    [SUCCESS] after three reads, sector 0, the boot sector and the
    allocation table: the quotient [8 * 32 / 512] is 0 where the rounded-up
    count is 1, and the directory sector is still with the card.
    [spi_sdcard_readFile] then scans 8 entries that were never loaded and
    does not find the file. *)
Theorem readMBR_leaves_partial_directory_unread :
  let st1 :=
    final_state (spi_sdcard_readMBR half_directory_volume)
      half_directory_volume in
  let load := spi_sdcard_readFile 9 "README" "MD" load_address st1 in
  outcome_value (spi_sdcard_readMBR half_directory_volume) = Some SUCCESS
  /\ root_dir_entries (sdCardFatBootSector st1) = 8
  /\ sector_size (sdCardFatBootSector st1) = 512
  /\ (8 * sizeof_Fat16Entry + 512 - 1) / 512 = 1
  /\ rootDirSectors (sdCardFatBootSector st1) = 0
  /\ map rd_key (history st1)
     = [(0, sdCardSector); (1, sdCardSector); (2, sdCardFatTable st1)]
  /\ card (dev st1) = block_reply 0 (sector_of hello_dir)
  /\ firstn 11 (sector_of hello_dir) = bytes_of_string "README  MD "
  /\ outcome_value load = Some FAILURE
  /\ history (final_state load st1) = history st1.
Proof. vm_compute. repeat split. Qed.

(** C2 on a file of 1024 bytes with one sector per cluster: three
    clusters are visited, 2, its table entry 3, and the end-of-chain mark
    [0xffff] of cluster 3 taken as a cluster number. *)
Lemma readFile_cluster_walk_witness :
  let s := {| fileClusterStart := 2; fileLength := 1024; scan_n := 0 |} in
  let st' :=
    final_state (spi_sdcard_readFile 3 "KERNEL" "BIN" load_address
                   kernel_state) kernel_state in
  readFile_scan 3 kernel_state "KERNEL" "BIN" scan0 = Some s
  /\ spi_sdcard_readFile 3 "KERNEL" "BIN" load_address kernel_state
     = Done SUCCESS st'
  /\ cluster_chain kernel_state 3 2 = [2; 3; 0xffff]
  /\ map rd_sector (history st') = [4; 5; 65537].
Proof.
  intros s st'.
  assert (Hscan : readFile_scan 3 kernel_state "KERNEL" "BIN" scan0 = Some s)
    by (vm_compute; reflexivity).
  assert (Hrun : spi_sdcard_readFile 3 "KERNEL" "BIN" load_address
                   kernel_state = Done SUCCESS st')
    by (apply done_final_state; vm_compute; reflexivity).
  assert (Hchain : cluster_chain kernel_state 3 2 = [2; 3; 0xffff])
    by (vm_compute; reflexivity).
  split; [exact Hscan|]. split; [exact Hrun|]. split; [exact Hchain|].
  destruct (readFile_cluster_walk kernel_state 3 "KERNEL" "BIN" load_address
              s st' Hscan) as (_ & _ & new & Hhist & Hsecs).
  - cbn [fileLength s]. lia.
  - exact Hrun.
  - vm_compute. repeat split; intros H; discriminate H.
  - vm_compute. reflexivity.
  - vm_compute. intros H; discriminate H.
  - vm_compute. intros H; discriminate H.
  - vm_compute. intros H; discriminate H.
  - vm_compute. intros H; discriminate H.
  - vm_compute. intros H; discriminate H.
  - vm_compute. intros H; discriminate H.
  - left. vm_compute. intros H; discriminate H.
  - left. vm_compute. intros H; discriminate H.
  - rewrite Hhist, map_app, Hsecs.
    change (Z.to_nat _) with 3%nat. cbn [fileClusterStart s].
    rewrite Hchain. vm_compute. reflexivity.
Defined.

(** C1, amended, on a file of 700 bytes: the first sector goes straight
    to the destination, the second through the sector buffer, byte 699 is the
    188th of the second block and byte 700 is untouched. *)
Lemma readFile_copies_file_witness :
  let s := {| fileClusterStart := 5; fileLength := 700; scan_n := 0 |} in
  let st' :=
    final_state (spi_sdcard_readFile 3 "README" "MD" load_address
                   readme_state) readme_state in
  readFile_scan 3 readme_state "README" "MD" scan0 = Some s
  /\ spi_sdcard_readFile 3 "README" "MD" load_address readme_state
     = Done SUCCESS st'
  /\ map rd_storage (history st') = [load_address; sdCardSector]
  /\ load8 (ram st') (load_address + 699) = 194
  /\ ram st' (load_address + 700) = 0.
Proof.
  intros s st'.
  assert (Hscan : readFile_scan 3 readme_state "README" "MD" scan0 = Some s)
    by (vm_compute; reflexivity).
  assert (Hrun : spi_sdcard_readFile 3 "README" "MD" load_address
                   readme_state = Done SUCCESS st')
    by (apply done_final_state; vm_compute; reflexivity).
  split; [exact Hscan|]. split; [exact Hrun|].
  destruct (readFile_copies_file readme_state 3 "README" "MD" load_address
              s st' Hscan)
    as (new & Hhist & _ & _ & Hstor & _ & Hmem & Hframe).
  - cbn [fileLength s]. lia.
  - exact Hrun.
  - vm_compute. reflexivity.
  - vm_compute. intros H; discriminate H.
  - vm_compute. intros H; discriminate H.
  - vm_compute. intros H; discriminate H.
  - vm_compute. intros H; discriminate H.
  - vm_compute. intros H; discriminate H.
  - right. vm_compute. intros H; discriminate H.
  - split; [vm_compute; reflexivity|]. split.
    + vm_compute. reflexivity.
    + rewrite Hframe.
      * vm_compute. reflexivity.
      * cbn [fileLength s]. unfold load_address. lia.
      * vm_compute. intros [_ H]. discriminate H.
Defined.

(** C1 as stated fails: on a volume that declares 256-byte sectors a file
    of 300 bytes is loaded with [SUCCESS], by one read straight into the
    destination and one into the sector buffer, and the byte at
    [address + 300], behind the end of the file, has changed: the first
    read stored a block of 512 bytes where the sector size is 256. *)
Lemma readFile_small_sectors_overrun :
  let load :=
    spi_sdcard_readFile 3 "NOTE" "TXT" load_address small_sector_state in
  let st' := final_state load small_sector_state in
  sector_size (sdCardFatBootSector small_sector_state) = 256
  /\ readFile_scan 3 small_sector_state "NOTE" "TXT" scan0
     = Some {| fileClusterStart := 2; fileLength := 300; scan_n := 0 |}
  /\ outcome_value load = Some SUCCESS
  /\ map rd_key (history st') = [(4, load_address); (5, sdCardSector)]
  /\ ram small_sector_state (load_address + 300) = 0
  /\ ram st' (load_address + 300) = 45.
Proof. vm_compute. repeat split. Qed.

(** ** The further properties on explicit inputs *)

(** X6 on a card that is ready in the second round of the poll. *)
Lemma spi_sdcard_goidle_wire_witness :
  fst (spi_sdcard_goidle (script_dev goidle_script)) = SUCCESS
  /\ exists (f f0 f1 f2 f3 : nat) (rounds : list (nat * nat)),
       (4 <= f1)%nat /\ (4 <= f2)%nat
       /\ (1 <= List.length rounds <= 32)%nat
       /\ sent (snd (spi_sdcard_goidle (script_dev goidle_script)))
          = sent (script_dev goidle_script) ++ repeat 0xff f
            ++ cmd0 ++ repeat 0xff f0
            ++ cmd8 ++ repeat 0xff f1
            ++ ready_wire rounds
            ++ cmd58 ++ repeat 0xff f2
            ++ cmd16 ++ repeat 0xff f3.
Proof.
  assert (H : fst (spi_sdcard_goidle (script_dev goidle_script)) = SUCCESS)
    by (vm_compute; reflexivity).
  split; [exact H|].
  apply (spi_sdcard_goidle_wire (script_dev goidle_script) H).
Defined.

(** X8 on the directory of the three files, asked for a file that is not
    there. *)
Lemma readFile_file_not_found_witness :
  spi_sdcard_readFile 17 "NOFILE" "BIN" load_address hello_state
  = Done FAILURE hello_state.
Proof.
  apply (readFile_file_not_found hello_state "NOFILE" "BIN" load_address 17).
  - intros j Hj Hm. unfold matches in Hm.
    change (root_dir_entries (sdCardFatBootSector hello_state)) with 16 in Hj.
    assert (Hcases : j = 0 \/ j = 1 \/ j = 2 \/ j = 3 \/ j = 4 \/ j = 5
                     \/ j = 6 \/ j = 7 \/ j = 8 \/ j = 9 \/ j = 10 \/ j = 11
                     \/ j = 12 \/ j = 13 \/ j = 14 \/ j = 15) by lia.
    repeat (destruct Hcases as [->|Hcases];
            [vm_compute in Hm; discriminate Hm|]).
    subst j. vm_compute in Hm. discriminate Hm.
  - vm_compute. lia.
Defined.

(** X9 on a file of two sectors whose second read fails. *)
Lemma readFile_read_errors_witness :
  let s := {| fileClusterStart := 5; fileLength := 700; scan_n := 0 |} in
  let st' :=
    final_state (spi_sdcard_readFile 3 "README" "MD" load_address
                   one_block_state) one_block_state in
  spi_sdcard_readFile 3 "README" "MD" load_address one_block_state
  = Done FAILURE st'
  /\ exists oks,
       Forall read_ok oks
       /\ (FAILURE = SUCCESS
           /\ fileClusterStart s <> 0
           /\ history st' = history one_block_state ++ oks
           /\ List.length oks
              = (if fileLength s =? 0 then 0%nat
                 else (Z.to_nat (clusterCount
                                   (sdCardFatBootSector one_block_state)
                                   (fileLength s))
                       * Z.to_nat (sectors_per_cluster
                                     (sdCardFatBootSector one_block_state)))%nat)
           \/ FAILURE = FAILURE /\ fileClusterStart s = 0 /\ oks = []
              /\ st' = one_block_state
           \/ FAILURE = FAILURE
              /\ fileClusterStart s <> 0
              /\ exists e,
                   rd_data e = None
                   /\ history st' = history one_block_state ++ oks ++ [e]).
Proof.
  intros s st'.
  assert (Hscan : readFile_scan 3 one_block_state "README" "MD" scan0
                  = Some s) by (vm_compute; reflexivity).
  assert (Hrun : spi_sdcard_readFile 3 "README" "MD" load_address
                   one_block_state = Done FAILURE st')
    by (apply done_final_state; vm_compute; reflexivity).
  split; [exact Hrun|].
  exact (readFile_read_errors one_block_state 3 "README" "MD" load_address
           s FAILURE st' Hscan Hrun).
Defined.

(** X10 on the load whose second read fails. *)
Lemma readFile_writes_confined_witness :
  let st' :=
    final_state (spi_sdcard_readFile 3 "README" "MD" load_address
                   one_block_state) one_block_state in
  spi_sdcard_readFile 3 "README" "MD" load_address one_block_state
  = Done FAILURE st'
  /\ forall a,
       ~ (load_address <= a < load_address + 700 + 512) ->
       ~ (sdCardSector <= a < sdCardSector + 512) ->
       ram st' a = ram one_block_state a.
Proof.
  intros st'.
  assert (Hscan : readFile_scan 3 one_block_state "README" "MD" scan0
                  = Some {| fileClusterStart := 5; fileLength := 700;
                            scan_n := 0 |})
    by (vm_compute; reflexivity).
  assert (Hrun : spi_sdcard_readFile 3 "README" "MD" load_address
                   one_block_state = Done FAILURE st')
    by (apply done_final_state; vm_compute; reflexivity).
  split; [exact Hrun|].
  apply (readFile_writes_confined one_block_state 3 "README" "MD"
           load_address _ FAILURE st' Hscan Hrun).
  - vm_compute. intros H; discriminate H.
  - vm_compute. intros H; discriminate H.
  - vm_compute. intros H; discriminate H.
  - vm_compute. intros H; discriminate H.
  - vm_compute. intros H; discriminate H.
Defined.

(** X11 on the volume of 16 entries: four reads. *)
Lemma readMBR_success_conditions_witness :
  let st' := final_state (spi_sdcard_readMBR fresh_volume) fresh_volume in
  spi_sdcard_readMBR fresh_volume = Done SUCCESS st'
  /\ valid_partition (sdCardPartition st')
  /\ total_sectors_long (sdCardFatBootSector st') <> 0
  /\ 0 < sector_size (sdCardFatBootSector st')
  /\ fatSectorStart st'
     = wrap32 (start_sector (sdCardPartition st')
               + reserved_sectors (sdCardFatBootSector st'))
  /\ sdCardFatTable st'
     = wrap32 (MAIN_RAM_BASE + MAIN_RAM_SIZE
               - sector_size (sdCardFatBootSector st')
                 * fat_size_sectors (sdCardFatBootSector st'))
  /\ exists new,
       history st' = history fresh_volume ++ new
       /\ Forall read_ok new
       /\ List.length new
          = (2 + Z.to_nat (fat_size_sectors (sdCardFatBootSector st'))
             + Z.to_nat (rootDirSectors (sdCardFatBootSector st')))%nat.
Proof.
  intros st'.
  assert (Hrun : spi_sdcard_readMBR fresh_volume = Done SUCCESS st')
    by (apply done_final_state; vm_compute; reflexivity).
  split; [exact Hrun|].
  exact (readMBR_success_conditions fresh_volume st' Hrun).
Defined.

(** X12 on the card that falls silent after the boot sector: the read of
    the allocation table fails. *)
Lemma readMBR_failure_causes_witness :
  let st' :=
    final_state (spi_sdcard_readMBR silent_table_volume)
      silent_table_volume in
  spi_sdcard_readMBR silent_table_volume = Done FAILURE st'
  /\ exists new,
       history st' = history silent_table_volume ++ new
       /\ (ends_failed new
           \/ (exists e0,
                 new = [e0] /\ read_ok e0
                 /\ ~ valid_partition (sdCardPartition st'))
           \/ (exists e0 e1,
                 new = [e0; e1] /\ read_ok e0 /\ read_ok e1
                 /\ valid_partition (sdCardPartition st')
                 /\ total_sectors_long (sdCardFatBootSector st') = 0)).
Proof.
  intros st'.
  assert (Hrun : spi_sdcard_readMBR silent_table_volume = Done FAILURE st')
    by (apply done_final_state; vm_compute; reflexivity).
  split; [exact Hrun|].
  exact (readMBR_failure_causes silent_table_volume st' Hrun).
Defined.

(** X13 on the volume of 16 entries. *)
Lemma readMBR_decodes_card_witness :
  let st' := final_state (spi_sdcard_readMBR fresh_volume) fresh_volume in
  spi_sdcard_readMBR fresh_volume = Done SUCCESS st'
  /\ exists mbr boot rest,
       history st'
       = history fresh_volume
         ++ {| rd_sector := 0; rd_storage := sdCardSector;
               rd_data := Some mbr |}
         :: {| rd_sector := le32_at mbr 0x1c6; rd_storage := sdCardSector;
               rd_data := Some boot |}
         :: rest
       /\ first_byte (sdCardPartition st') = byte_at mbr 0x1be
       /\ partition_type (sdCardPartition st') = byte_at mbr 0x1c2
       /\ start_sector (sdCardPartition st') = le32_at mbr 0x1c6
       /\ sector_size (sdCardFatBootSector st') = le16_at boot 11
       /\ sectors_per_cluster (sdCardFatBootSector st') = byte_at boot 13
       /\ reserved_sectors (sdCardFatBootSector st') = le16_at boot 14
       /\ number_of_fats (sdCardFatBootSector st') = byte_at boot 16
       /\ root_dir_entries (sdCardFatBootSector st') = le16_at boot 17
       /\ fat_size_sectors (sdCardFatBootSector st') = le16_at boot 22
       /\ total_sectors_long (sdCardFatBootSector st') = le32_at boot 32.
Proof.
  intros st'.
  assert (Hrun : spi_sdcard_readMBR fresh_volume = Done SUCCESS st')
    by (apply done_final_state; vm_compute; reflexivity).
  split; [exact Hrun|].
  exact (readMBR_decodes_card fresh_volume st' Hrun).
Defined.

(** X14 on the card whose boot sector declares a sector size of zero. *)
Lemma readMBR_zero_sector_size_witness :
  spi_sdcard_readMBR zero_sector_size_volume = Undefined
  /\ exists d0 mbr d1 boot,
       let st1 :=
         after_read 0 sdCardSector d0 (Some mbr) zero_sector_size_volume in
       let p := read_PartitionTable (ram st1) (sdCardSector + 0x1be) in
       let st2 := set_sdCardPartition p st1 in
       let st3 :=
         after_read (start_sector p) sdCardSector d1 (Some boot) st2 in
       readSector 0 sdCardSector zero_sector_size_volume = (SUCCESS, st1)
       /\ readSector (start_sector p) sdCardSector st2 = (SUCCESS, st3)
       /\ valid_partition p
       /\ le32_at boot 32 <> 0
       /\ byte_at boot 11 = 0 /\ byte_at boot 12 = 0.
Proof.
  assert (Hrun : spi_sdcard_readMBR zero_sector_size_volume = Undefined)
    by (vm_compute; reflexivity).
  split; [exact Hrun|].
  exact (readMBR_zero_sector_size zero_sector_size_volume Hrun).
Defined.

(** X15 on the volume of 16 entries: cluster 2 is followed by cluster
    3. *)
Lemma readMBR_loads_allocation_table_witness :
  let st' := final_state (spi_sdcard_readMBR fresh_volume) fresh_volume in
  spi_sdcard_readMBR fresh_volume = Done SUCCESS st'
  /\ exists e0 e1 fat_reads rest,
       history st' = history fresh_volume ++ e0 :: e1 :: fat_reads ++ rest
       /\ map rd_sector fat_reads
          = map (fun i => wrap32 (fatSectorStart st' + Z.of_nat i))
                (seq 0 (Z.to_nat (fat_size_sectors
                                    (sdCardFatBootSector st'))))
       /\ (forall i,
             0 <= i < 512 * fat_size_sectors (sdCardFatBootSector st') ->
             load8 (ram st') (sdCardFatTable st' + i)
             = byte_at (payload fat_reads) i)
       /\ (forall c,
             0 <= c < 256 * fat_size_sectors (sdCardFatBootSector st') ->
             fatEntry st' c = le16_at (payload fat_reads) (2 * c)).
Proof.
  intros st'.
  assert (Hrun : spi_sdcard_readMBR fresh_volume = Done SUCCESS st')
    by (apply done_final_state; vm_compute; reflexivity).
  split; [exact Hrun|].
  apply (readMBR_loads_allocation_table fresh_volume st' Hrun).
  - vm_compute. reflexivity.
  - vm_compute. intros H; discriminate H.
  - vm_compute. intros H; discriminate H.
Defined.

(** X16 on the volume of 16 entries. *)
Lemma readMBR_loads_directory_entries_witness :
  let st' := final_state (spi_sdcard_readMBR fresh_volume) fresh_volume in
  spi_sdcard_readMBR fresh_volume = Done SUCCESS st'
  /\ exists before dir_reads,
       history st' = history fresh_volume ++ before ++ dir_reads
       /\ map rd_sector dir_reads
          = map (fun i => wrap32 (rootDirSectorStart st' + Z.of_nat i))
                (seq 0 (Z.to_nat (rootDirSectors (sdCardFatBootSector st'))))
       /\ forall n,
            0 <= n < 16 * rootDirSectors (sdCardFatBootSector st') ->
            (forall i, 0 <= i < 8 ->
               entry_filename st' n i
               = byte_at (payload dir_reads) (32 * n + i))
            /\ (forall i, 0 <= i < 3 ->
                  entry_ext st' n i
                  = byte_at (payload dir_reads) (32 * n + 8 + i))
            /\ entry_starting_cluster st' n
               = le16_at (payload dir_reads) (32 * n + 26)
            /\ entry_file_size st' n
               = le32_at (payload dir_reads) (32 * n + 28).
Proof.
  intros st'.
  assert (Hrun : spi_sdcard_readMBR fresh_volume = Done SUCCESS st')
    by (apply done_final_state; vm_compute; reflexivity).
  split; [exact Hrun|].
  apply (readMBR_loads_directory_entries fresh_volume st' Hrun).
  - vm_compute. reflexivity.
  - vm_compute. intros H; discriminate H.
  - vm_compute. intros H; discriminate H.
Defined.

(** X17 on the file of 700 bytes: two commands. *)
Lemma readFile_sends_only_reads_witness :
  let st' :=
    final_state (spi_sdcard_readFile 3 "README" "MD" load_address
                   readme_state) readme_state in
  spi_sdcard_readFile 3 "README" "MD" load_address readme_state
  = Done SUCCESS st'
  /\ exists new jobs,
       history st' = history readme_state ++ new
       /\ map fst jobs = map rd_sector new
       /\ sent (dev st') = sent (dev readme_state) ++ read_wire jobs
       /\ cs (dev st') = cs (dev readme_state).
Proof.
  intros st'.
  assert (Hrun : spi_sdcard_readFile 3 "README" "MD" load_address
                   readme_state = Done SUCCESS st')
    by (apply done_final_state; vm_compute; reflexivity).
  split; [exact Hrun|].
  exact (readFile_sends_only_reads readme_state 3 "README" "MD" load_address
           SUCCESS st' Hrun).
Defined.

(** X18 on the volume of 16 entries: four commands. *)
Lemma readMBR_sends_only_reads_witness :
  let st' := final_state (spi_sdcard_readMBR fresh_volume) fresh_volume in
  spi_sdcard_readMBR fresh_volume = Done SUCCESS st'
  /\ exists new jobs,
       history st' = history fresh_volume ++ new
       /\ map fst jobs = map rd_sector new
       /\ sent (dev st') = sent (dev fresh_volume) ++ read_wire jobs
       /\ cs (dev st') = cs (dev fresh_volume).
Proof.
  intros st'.
  assert (Hrun : spi_sdcard_readMBR fresh_volume = Done SUCCESS st')
    by (apply done_final_state; vm_compute; reflexivity).
  split; [exact Hrun|].
  exact (readMBR_sends_only_reads fresh_volume SUCCESS st' Hrun).
Defined.

(** X19 on the empty slot. *)
Lemma no_card_fails_witness :
  @never_responds unit absent_card
  /\ (forall d, fst (@spi_sdcard_goidle unit absent_card d) = FAILURE)
  /\ (forall s p st,
        fst (@readSector unit absent_card s p st) = FAILURE)
  /\ (forall st, exists d,
        @spi_sdcard_readMBR unit absent_card demo_board st
        = Done FAILURE (after_read 0 sdCardSector d None st)).
Proof.
  assert (H : @never_responds unit absent_card)
    by (intros b c; vm_compute; reflexivity).
  split; [exact H|].
  exact (@no_card_fails unit absent_card demo_board H).
Defined.

(** X21 on the volume of 16 entries, asked for [HELLO.TXT]: the scan
    settles on the second entry, [HELLOWLD.TXT], whose name begins with
    the name asked for. *)
Lemma readFile_finds_card_entry_witness :
  let st1 := final_state (spi_sdcard_readMBR fresh_volume) fresh_volume in
  let s := {| fileClusterStart := 3; fileLength := 20; scan_n := 1 |} in
  spi_sdcard_readMBR fresh_volume = Done SUCCESS st1
  /\ readFile_scan 5 st1 "HELLO" "TXT" scan0 = Some s
  /\ exists before dir_reads,
       history st1 = history fresh_volume ++ before ++ dir_reads
       /\ map rd_sector dir_reads
          = map (fun i => wrap32 (rootDirSectorStart st1 + Z.of_nat i))
                (seq 0 (Z.to_nat (root_dir_entries (sdCardFatBootSector st1)
                                  / 16)))
       /\ 0 <= scan_n s < root_dir_entries (sdCardFatBootSector st1)
       /\ entry_bytes_match (payload dir_reads) "HELLO" "TXT" (scan_n s)
       /\ (forall m, 0 <= m < scan_n s ->
             ~ entry_bytes_match (payload dir_reads) "HELLO" "TXT" m)
       /\ fileClusterStart s
          = le16_at (payload dir_reads) (32 * scan_n s + 26)
       /\ fileLength s = le32_at (payload dir_reads) (32 * scan_n s + 28).
Proof.
  intros st1 s.
  assert (Hrun : spi_sdcard_readMBR fresh_volume = Done SUCCESS st1)
    by (apply done_final_state; vm_compute; reflexivity).
  assert (Hscan : readFile_scan 5 st1 "HELLO" "TXT" scan0 = Some s)
    by (vm_compute; reflexivity).
  split; [exact Hrun|]. split; [exact Hscan|].
  apply (readFile_finds_card_entry fresh_volume st1 5 "HELLO" "TXT" s Hrun).
  - vm_compute. reflexivity.
  - vm_compute. reflexivity.
  - vm_compute. intros H; discriminate H.
  - vm_compute. intros H; discriminate H.
  - vm_compute. lia.
  - vm_compute. lia.
  - exact Hscan.
  - cbn [fileClusterStart s]. lia.
Defined.
